(** * PseudoVPN client: endpoint selection and session lifecycle

    A shallow embedding of the client (class [PseudoVPNClient] of
    src/unnamed/part_001, the [client.js] of its usage text: [healthCheck],
    [getBestWorker], [generateSessionToken], [connect],
    [establishConnection], [scheduleTokenRefresh], [refreshToken],
    [disconnect], [switchCountry], [benchmark]) and of the relay
    (src/worker-deno.js: [cleanupExpiredSessions], [validateToken],
    [handleHealthCheck], [handleConnect], [handleProxy], [handleRequest]),
    followed by the properties of the specification that were checked
    against them and by further properties of the client and the relay.

    Conventions.
    - A JavaScript string is represented by the bytes of its UTF-8
      encoding, as a [string]; [Buffer.from(s)] is therefore the identity.
    - Timestamps, durations, latencies and HTTP status codes are integers
      ([Z]); [Date.now()] readings are supplied by the environment.
    - A promise has three possible fates, see [Outcome].
    - The configuration has the shape that [loadConfig] writes: every
      region has a name and a list of workers, and the workers are
      strings.  An address on which [https.get] itself throws is part of
      what a probe may meet, see [Reply].
    - Tokens and session identifiers are strings. *)

From stdpp Require Import base strings list gmap.
From Stdlib Require Import ZArith NArith Ascii String DecimalString Sorted Lia.

Local Open Scope Z_scope.
Set Warnings "-register-all".

(** ** Strings *)

Module Str.

Definition quote_char : ascii := ascii_of_N 34.
Definition backslash : ascii := ascii_of_N 92.
Definition dot : ascii := ascii_of_N 46.

Definition of_char (c : ascii) : string := String c EmptyString.

(** Decimal rendering of an integer, as template literals and
    [JSON.stringify] print integral numbers. *)
Definition of_Z (z : Z) : string := NilZero.string_of_int (Z.to_int z).

(** [s.split('.')]: always at least one part. *)
Fixpoint split (sep : ascii) (s : string) : list string :=
  match s with
  | EmptyString => [EmptyString]
  | String c rest =>
      let parts := split sep rest in
      if Ascii.eqb c sep then EmptyString :: parts
      else match parts with
           | p :: ps => String c p :: ps
           | [] => [String c EmptyString]
           end
  end.

Fixpoint mem (c : ascii) (s : string) : bool :=
  match s with
  | EmptyString => false
  | String d rest => Ascii.eqb d c || mem c rest
  end.

(** JavaScript truthiness of a string: only the empty string is falsy. *)
Definition truthy (s : string) : bool :=
  match s with EmptyString => false | _ => true end.

End Str.

(** ** Base64 *)

Module Base64.

(** The 64 symbols; the last two are [+ /] in the standard alphabet and
    [- _] in the URL-safe one. *)
Definition symbol (c62 c63 : ascii) (i : N) : ascii :=
  if (i <? 26)%N then ascii_of_N (65 + i)
  else if (i <? 52)%N then ascii_of_N (97 + (i - 26))
  else if (i <? 62)%N then ascii_of_N (48 + (i - 52))
  else if (i =? 62)%N then c62 else c63.

Definition url_symbol : N -> ascii := symbol "-"%char "_"%char.
Definition std_symbol : N -> ascii := symbol "+"%char "/"%char.

(** Unpadded encoding of a byte string, three bytes at a time. *)
Fixpoint encode (sym : N -> ascii) (s : string) : string :=
  match s with
  | EmptyString => EmptyString
  | String a EmptyString =>
      let a := N_of_ascii a in
      String (sym (a / 4)) (String (sym ((a mod 4) * 16)) EmptyString)
  | String a (String b EmptyString) =>
      let a := N_of_ascii a in
      let b := N_of_ascii b in
      String (sym (a / 4))
        (String (sym ((a mod 4) * 16 + b / 16))
           (String (sym ((b mod 16) * 4)) EmptyString))
  | String a (String b (String c rest)) =>
      let a := N_of_ascii a in
      let b := N_of_ascii b in
      let c := N_of_ascii c in
      String (sym (a / 4))
        (String (sym ((a mod 4) * 16 + b / 16))
           (String (sym ((b mod 16) * 4 + c / 64))
              (String (sym (c mod 64)) (encode sym rest))))
  end%N.

(** [buf.toString('base64url')] *)
Definition base64url (s : string) : string := encode url_symbol s.

(** Value of a symbol of the standard alphabet. *)
Definition std_value (c : ascii) : option N :=
  let n := N_of_ascii c in
  if (65 <=? n)%N && (n <=? 90)%N then Some (n - 65)%N
  else if (97 <=? n)%N && (n <=? 122)%N then Some (n - 97 + 26)%N
  else if (48 <=? n)%N && (n <=? 57)%N then Some (n - 48 + 52)%N
  else if (n =? 43)%N then Some 62%N
  else if (n =? 47)%N then Some 63%N
  else None.

Definition is_ascii_whitespace (c : ascii) : bool :=
  let n := N_of_ascii c in
  (n =? 9)%N || (n =? 10)%N || (n =? 12)%N || (n =? 13)%N || (n =? 32)%N.

Definition strip_whitespace (cs : list ascii) : list ascii :=
  List.filter (fun c => negb (is_ascii_whitespace c)) cs.

(** When the length is a multiple of four, one or two trailing [=] are
    dropped. *)
Definition strip_padding (cs : list ascii) : list ascii :=
  if (N.of_nat (List.length cs) mod 4 =? 0)%N then
    match List.rev cs with
    | c1 :: r1 =>
        if Ascii.eqb c1 "=" then
          match r1 with
          | c2 :: r2 => if Ascii.eqb c2 "=" then List.rev r2 else List.rev r1
          | [] => List.rev r1
          end
        else cs
    | [] => cs
    end
  else cs.

Fixpoint values (cs : list ascii) : option (list N) :=
  match cs with
  | [] => Some []
  | c :: rest =>
      match std_value c, values rest with
      | Some v, Some vs => Some (v :: vs)
      | _, _ => None
      end
  end.

(** Four symbols give three bytes; a final group of three gives two
    bytes and a final group of two gives one, the spare bits being
    discarded. *)
Fixpoint bytes_of_values (vs : list N) : list ascii :=
  match vs with
  | a :: b :: c :: d :: rest =>
      ascii_of_N (a * 4 + b / 16)
        :: ascii_of_N ((b mod 16) * 16 + c / 4)
        :: ascii_of_N ((c mod 4) * 64 + d)
        :: bytes_of_values rest
  | [a; b; c] =>
      [ascii_of_N (a * 4 + b / 16); ascii_of_N ((b mod 16) * 16 + c / 4)]
  | [a; b] => [ascii_of_N (a * 4 + b / 16)]
  | _ => []
  end%N.

(** The forgiving-base64 decoder behind [atob]: the bytes, or [None]
    where [atob] throws [InvalidCharacterError]. *)
Definition forgiving_decode (s : string) : option (list ascii) :=
  let cs := strip_padding (strip_whitespace (list_ascii_of_string s)) in
  if (N.of_nat (List.length cs) mod 4 =? 1)%N then None
  else match values cs with
       | Some vs => Some (bytes_of_values vs)
       | None => None
       end.

(** [atob] returns a binary string: one code unit per byte.  In the
    UTF-8 representation of strings a code unit above 127 takes two
    bytes. *)
Definition utf8_of_latin1 (c : ascii) : list ascii :=
  let n := N_of_ascii c in
  if (n <? 128)%N then [c]
  else [ascii_of_N (192 + n / 64); ascii_of_N (128 + n mod 64)]%N.

Definition atob (s : string) : option string :=
  match forgiving_decode s with
  | Some bytes => Some (string_of_list_ascii (flat_map utf8_of_latin1 bytes))
  | None => None
  end.

End Base64.

(** ** JavaScript values and outcomes *)

(** Parsed JSON.  Numbers are the integral ones (timestamps in
    milliseconds, status codes). *)
Inductive Json : Type :=
| JNull
| JBool (b : bool)
| JNum (n : Z)
| JStr (s : string)
| JArr (items : list Json)
| JObj (fields : list (string * Json)).

Inductive JsError : Type :=
| Error (message : string)
| TypeError (message : string)
| SystemError (code : string).

(** The fate of an awaited call: it returns, it throws (the promise is
    rejected), or its promise is never settled. *)
Inductive Outcome (A : Type) : Type :=
| Returned (a : A)
| Threw (e : JsError)
| Pending.
Arguments Returned {A} a.
Arguments Threw {A} e.
Arguments Pending {A}.

(** What the code takes from the platform without defining it. *)
Class Platform : Type := {
  (** [JSON.parse]; [None] where it throws [SyntaxError]. *)
  JSON_parse : string -> option Json;
  (** [ToNumber] on strings, arrays and objects; [None] for [NaN]. *)
  ToNumber_other : Json -> option Z;
  (** [crypto.createHmac('sha256', key).update(message).digest()] *)
  hmac_sha256 : string -> string -> string;
  (** [Buffer.from(s, "base64").toString("utf-8")], which never throws *)
  Buffer_base64_utf8 : string -> string
}.

Module JS.

Fixpoint assoc (k : string) (fields : list (string * Json)) : option Json :=
  match fields with
  | [] => None
  | (k', v) :: rest => if String.eqb k k' then Some v else assoc k rest
  end.

(** [v.k] for a property name [k] that no built-in prototype defines:
    [None] where the access throws [TypeError] ([v] is [null]),
    [Some None] where it yields [undefined]. *)
Definition get (v : Json) (k : string) : option (option Json) :=
  match v with
  | JNull => None
  | JObj fields => Some (assoc k fields)
  | _ => Some None
  end.

(** [ToNumber]; [None] for [NaN]. *)
Definition ToNumber `{Platform} (v : option Json) : option Z :=
  match v with
  | None => None
  | Some JNull => Some 0
  | Some (JBool b) => Some (if b then 1 else 0)
  | Some (JNum n) => Some n
  | Some other => ToNumber_other other
  end.

(** Whether the conversion of [v] to a primitive value throws
    [TypeError], in a template literal as well as under [>].  An object
    made by [JSON.parse] inherits [toString] and [valueOf] unless it has
    a key of that name, whose value is then not callable; the inherited
    [valueOf] returns the object, which is no primitive.  So the
    conversion of an object throws exactly when it has the key
    [toString].  An array is converted by joining the conversions of its
    elements, [null] counting as the empty string. *)
Fixpoint conversion_throws (v : Json) : bool :=
  match v with
  | JObj fields =>
      match assoc "toString" fields with Some _ => true | None => false end
  | JArr items => existsb conversion_throws items
  | _ => false
  end.

(** The same for a property value, which may be [undefined]. *)
Definition throws_on_conversion (v : option Json) : bool :=
  match v with Some v => conversion_throws v | None => false end.

Definition cannot_convert : JsError :=
  TypeError "Cannot convert object to primitive value".

(** [n > v] for a number [n] and a value [v] whose conversion completes
    (see [throws_on_conversion]): false when [v] converts to [NaN]. *)
Definition gt `{Platform} (n : Z) (v : option Json) : bool :=
  match ToNumber v with
  | Some m => m <? n
  | None => false
  end.

(** [v !== s] for a string [s]. *)
Definition strict_ne_string (v : option Json) (s : string) : bool :=
  match v with
  | Some (JStr s') => negb (String.eqb s' s)
  | _ => true
  end.

Definition hex_digit (n : N) : ascii :=
  if (n <? 10)%N then ascii_of_N (48 + n) else ascii_of_N (87 + n).

(** One character of a string inside [JSON.stringify]. *)
Definition escape_char (c : ascii) : string :=
  let n := N_of_ascii c in
  if (n =? 34)%N then String Str.backslash (Str.of_char Str.quote_char)
  else if (n =? 92)%N then String Str.backslash (Str.of_char Str.backslash)
  else if (n =? 8)%N then String Str.backslash "b"
  else if (n =? 12)%N then String Str.backslash "f"
  else if (n =? 10)%N then String Str.backslash "n"
  else if (n =? 13)%N then String Str.backslash "r"
  else if (n =? 9)%N then String Str.backslash "t"
  else if (n <? 32)%N then
    String Str.backslash
      ("u00" +:+ String (hex_digit (n / 16)) (Str.of_char (hex_digit (n mod 16))))
  else Str.of_char c.

Fixpoint escape (s : string) : string :=
  match s with
  | EmptyString => EmptyString
  | String c rest => escape_char c +:+ escape rest
  end.

Definition quote (s : string) : string :=
  String Str.quote_char (escape s +:+ Str.of_char Str.quote_char).

Fixpoint join (sep : string) (parts : list string) : string :=
  match parts with
  | [] => EmptyString
  | [p] => p
  | p :: rest => p +:+ sep +:+ join sep rest
  end.

(** [JSON.stringify] without indentation. *)
Fixpoint JSON_stringify (v : Json) : string :=
  match v with
  | JNull => "null"
  | JBool true => "true"
  | JBool false => "false"
  | JNum n => Str.of_Z n
  | JStr s => quote s
  | JArr items => "[" +:+ join "," (List.map JSON_stringify items) +:+ "]"
  | JObj fields =>
      "{" +:+ join ","
               (List.map (fun kv => quote (fst kv) +:+ ":" +:+ JSON_stringify (snd kv))
                  fields)
          +:+ "}"
  end.

End JS.

(** ** Configuration *)

Record Region : Type := { name : string; workers : list string }.
Record Auth : Type := { tokenDuration : Z; refreshBuffer : Z }.
Record Health : Type := { checkInterval : Z; timeout : Z }.
Record Config : Type := {
  regions : gmap string Region;
  auth : Auth;
  health : Health
}.

(** ** Session tokens *)

Record Payload : Type := {
  country : string;
  workerId : string;
  sessionId : string;
  issued : Z;
  expires : Z
}.

Record SessionInfo : Type := {
  token : string;
  payload : Payload;
  secret : string
}.

(** What one call of [generateSessionToken] reads from its environment:
    the two [Date.now()] readings and the random material, or the error
    that [crypto] throws when it has none. *)
Inductive Entropy : Type :=
| EntropyFails (e : JsError)
| EntropyGives (uuid secretHex : string).

Record Mint : Type := {
  entropy : Entropy;
  issuedNow : Z;
  expiresNow : Z
}.

Module Token.

Definition json_of_payload (p : Payload) : Json :=
  JObj [("country", JStr (country p));
        ("workerId", JStr (workerId p));
        ("sessionId", JStr (sessionId p));
        ("issued", JNum (issued p));
        ("expires", JNum (expires p))]%string.

Definition header : string :=
  Base64.base64url
    (JS.JSON_stringify (JObj [("alg", JStr "HS256"); ("typ", JStr "JWT")]%string)).

(** part_001, [generateSessionToken(country, workerId)] *)
Definition generateSessionToken `{Platform} (cfg : Config) (m : Mint)
    (country workerId : string) : Outcome SessionInfo :=
  match entropy m with
  | EntropyFails e => Threw e
  | EntropyGives uuid secretHex =>
      let payload :=
        {| country := country;
           workerId := workerId;
           sessionId := uuid;
           issued := issuedNow m;
           expires := expiresNow m + tokenDuration (auth cfg) * 1000 |} in
      let payloadB64 := Base64.base64url (JS.JSON_stringify (json_of_payload payload)) in
      let secret := secretHex in
      let signature :=
        Base64.base64url (hmac_sha256 secret (header +:+ "." +:+ payloadB64)) in
      Returned {| token := header +:+ "." +:+ payloadB64 +:+ "." +:+ signature;
                  payload := payload;
                  secret := secret |}
  end.

(** The body shared by every relay's [validateToken(token, sessionId)];
    [decode] is the relay's base64 decoding of the middle segment and
    [now] the reading of [Date.now()].  [None] is the [false] that the
    function returns on every failure, including an exception caught by
    its [catch]. *)
Definition validate_with `{Platform} (decode : string -> option string)
    (now : Z) (token sessionId : string) : option Json :=
  if negb (Str.truthy token) then None
  else
    let parts := Str.split Str.dot token in
    if negb (List.length parts =? 3)%nat then None
    else
      match decode (nth 1 parts EmptyString) with
      | None => None
      | Some text =>
          match JSON_parse text with
          | None => None
          | Some payload =>
              match JS.get payload "expires", JS.get payload "sessionId" with
              | Some expires, Some sid =>
                  (* [Date.now() > payload.expires] may throw *)
                  if JS.throws_on_conversion expires then None
                  else if JS.gt now expires then None
                  else if JS.strict_ne_string sid sessionId then None
                  else Some payload
              | _, _ => None
              end
          end
      end.

(** worker-deno.js and the Cloudflare worker: [JSON.parse(atob(parts[1]))] *)
Definition validateToken `{Platform} (now : Z) (token sessionId : string)
    : option Json :=
  validate_with Base64.atob now token sessionId.

(** The Express relays:
    [JSON.parse(Buffer.from(parts[1], "base64").toString("utf-8"))] *)
Definition validateToken_express `{Platform} (now : Z) (token sessionId : string)
    : option Json :=
  validate_with (fun segment => Some (Buffer_base64_utf8 segment)) now token sessionId.

End Token.

(** ** Health probes *)

Inductive ProbeStatus : Type := StHealthy | StError | StTimeout | StInvalid.

Record ProbeResult : Type := {
  url : string;
  status : ProbeStatus;
  latency : Z;
  data : option Json
}.

(** What the network does with the rest of a response once its head has
    arrived: the body ends (['end'] fires) or nothing more happens. *)
Inductive Body : Type :=
| BodyEnds (data : string)
| BodyStalls.

(** What one health request meets.  [elapsed] is the difference between
    [Date.now()] at the event and [startTime]; the timer of the probe is
    taken to run on the same clock.  [RequestThrows] is the case of an
    address that [https.get] refuses (no scheme, [http:], an empty
    string): it throws [e] at once and nothing is sent. *)
Inductive Reply : Type :=
| NoReply
| ConnectionError (elapsed : Z)
| ResponseHead (elapsed : Z) (statusCode : Z) (body : Body)
| RequestThrows (e : JsError).

Module Probe.

Definition is_healthy (check : ProbeResult) : bool :=
  match status check with StHealthy => true | _ => false end.

(** part_001, [healthCheck(workerUrl, timeout)].  The promise is
    resolved by the first call of [resolve], and stays pending when no
    call is ever made.  An event that arrives after [timeout]
    milliseconds finds the promise resolved by the timer; an earlier one
    cancels the timer.  When [https.get] throws, the executor ends there
    and the promise is rejected with that error; the [resolve] of the
    timer, which is armed by then, comes too late to change it. *)
Definition healthCheck `{Platform} (workerUrl : string) (timeout : Z)
    (net : Reply) : Outcome ProbeResult :=
  let timer_fires :=
    Returned {| url := workerUrl; status := StTimeout; latency := timeout;
                data := None |} in
  match net with
  | RequestThrows e => Threw e
  | NoReply => timer_fires
  | ConnectionError elapsed =>
      if elapsed <? timeout then
        (* request.on('error'): clearTimeout, resolve *)
        Returned {| url := workerUrl; status := StError; latency := elapsed;
                    data := None |}
      else timer_fires
  | ResponseHead elapsed statusCode body =>
      if elapsed <? timeout then
        (* response callback: clearTimeout; latency = Date.now() - startTime *)
        let latency := elapsed in
        match body with
        | BodyEnds data =>
            (* res.on('end') *)
            match JSON_parse data with
            | Some result =>
                Returned {| url := workerUrl;
                            status := if statusCode =? 200 then StHealthy else StError;
                            latency := latency;
                            data := Some result |}
            | None =>
                Returned {| url := workerUrl; status := StInvalid; latency := latency;
                            data := None |}
            end
        | BodyStalls => Pending
        end
      else timer_fires
  end.

(** The error of the first rejected promise of a list. *)
Fixpoint first_rejection {A : Type} (promises : list (Outcome A)) : option JsError :=
  match promises with
  | [] => None
  | Threw e :: _ => Some e
  | _ :: rest => first_rejection rest
  end.

(** The results in order, once every promise is fulfilled. *)
Fixpoint fulfilled {A : Type} (promises : list (Outcome A)) : option (list A) :=
  match promises with
  | [] => Some []
  | p :: rest =>
      match p, fulfilled rest with
      | Returned a, Some l => Some (a :: l)
      | _, _ => None
      end
  end.

(** [Promise.all] over promises that are rejected, if at all, when they
    are made: it is rejected with the error of the first rejected one,
    whatever becomes of the others; otherwise it is fulfilled with the
    results in order once every promise is fulfilled. *)
Definition Promise_all {A : Type} (promises : list (Outcome A)) : Outcome (list A) :=
  match first_rejection promises with
  | Some e => Threw e
  | None =>
      match fulfilled promises with
      | Some results => Returned results
      | None => Pending
      end
  end.

(** [.sort((a, b) => a.latency - b.latency)]: a stable sort. *)
Fixpoint insert_by_latency (a : ProbeResult) (sorted : list ProbeResult)
    : list ProbeResult :=
  match sorted with
  | [] => [a]
  | b :: rest =>
      if latency a - latency b <=? 0 then a :: b :: rest
      else b :: insert_by_latency a rest
  end.

Definition sort_by_latency (checks : list ProbeResult) : list ProbeResult :=
  foldr insert_by_latency [] checks.

End Probe.

(** ** The client *)

Module Session.
Record t : Type := {
  country : string;
  worker : ProbeResult;
  sessionId : string;
  connectedAt : Z
}.
End Session.

Record Client : Type := {
  config : Config;
  currentSession : option Session.t;
  sessionToken : option string;
  tokenExpiry : option Z;
  tokenRefreshTimeout : option nat
}.

(** A pending [setTimeout] of the refresh callback: armed when the clock
    read [setAt], with [delay] as the delay passed to [setTimeout]. *)
Record Timer : Type := { handle : nat; setAt : Z; delay : Z }.

(** The longest delay that Node's [setTimeout] honours: 2^31 - 1 ms. *)
Definition TIMEOUT_MAX : Z := 2147483647.

(** The delay that Node gives a timer: a delay below 1 or above
    [TIMEOUT_MAX] is set to 1. *)
Definition effective_delay (delay : Z) : Z :=
  if (1 <=? delay) && (delay <=? TIMEOUT_MAX) then delay else 1.

Definition fireAt (t : Timer) : Z := setAt t + effective_delay (delay t).

(** What the client does to the outside. *)
Inductive Event : Type :=
| Connecting (country : string)
| HealthRequest (url : string)
| ConnectRequest (url token sessionId : string)
| SetTimeout (t : Timer)
| ClearTimeout (handle : nat)
| ConsoleError (e : JsError).

(** The client object together with the timers of the event loop and the
    record of what it has done so far, oldest first. *)
Record World : Type := {
  this : Client;
  timers : list Timer;
  nextHandle : nat;
  trace : list Event
}.

(** What the network does with one [POST /connect]. *)
Inductive HandshakeReply : Type :=
| HandshakeSilent
| HandshakeError (e : JsError)
| HandshakeResponse (statusCode : Z) (body : Body).

(** What one call of [connect] reads from its environment. *)
Record ConnectEnv : Type := {
  probeReply : nat -> Reply;
  mint : Mint;
  handshakeReply : HandshakeReply;
  connectedNow : Z;
  scheduleNow : Z
}.

(** What one firing of the refresh timer reads from its environment. *)
Record RefreshEnv : Type := {
  refreshMint : Mint;
  refreshScheduleNow : Z;
  reconnectEnv : ConnectEnv
}.

Module M.

(** Computations over the world that may throw or never complete. *)
Definition t (A : Type) : Type := World -> Outcome A * World.

Definition ret {A} (a : A) : t A := fun w => (Returned a, w).
Definition throw {A} (e : JsError) : t A := fun w => (Threw e, w).
Definition pending {A} : t A := fun w => (Pending, w).

Definition bind {A B} (c : t A) (k : A -> t B) : t B :=
  fun w =>
    match c w with
    | (Returned a, w') => k a w'
    | (Threw e, w') => (Threw e, w')
    | (Pending, w') => (Pending, w')
    end.

(** [try { c } catch (error) { handler }] *)
Definition try_catch {A} (c : t A) (handler : JsError -> t A) : t A :=
  fun w =>
    match c w with
    | (Threw e, w') => handler e w'
    | other => other
    end.

Definition lift {A} (o : Outcome A) : t A := fun w => (o, w).

Definition read : t Client := fun w => (Returned (this w), w).

(** The world after an assignment to a field of [this]. *)
Definition updated (f : Client -> Client) (w : World) : World :=
  {| this := f (this w); timers := timers w; nextHandle := nextHandle w;
     trace := trace w |}.

Definition update (f : Client -> Client) : t unit :=
  fun w => (Returned tt, updated f w).

(** The world after the events [es]. *)
Definition logged (es : list Event) (w : World) : World :=
  {| this := this w; timers := timers w; nextHandle := nextHandle w;
     trace := trace w ++ es |}.

Definition emit (es : list Event) : t unit :=
  fun w => (Returned tt, logged es w).

End M.

Declare Scope js_scope.
Delimit Scope js_scope with js.
Notation "x <- c1 ;; c2" := (M.bind c1 (fun x => c2))
  (at level 100, c1 at next level, right associativity) : js_scope.
Notation "c1 ;; c2" := (M.bind c1 (fun _ => c2))
  (at level 100, right associativity) : js_scope.

Definition set_currentSession (v : option Session.t) (c : Client) : Client :=
  {| config := config c; currentSession := v; sessionToken := sessionToken c;
     tokenExpiry := tokenExpiry c; tokenRefreshTimeout := tokenRefreshTimeout c |}.

Definition set_sessionToken (v : option string) (c : Client) : Client :=
  {| config := config c; currentSession := currentSession c; sessionToken := v;
     tokenExpiry := tokenExpiry c; tokenRefreshTimeout := tokenRefreshTimeout c |}.

Definition set_tokenExpiry (v : option Z) (c : Client) : Client :=
  {| config := config c; currentSession := currentSession c;
     sessionToken := sessionToken c; tokenExpiry := v;
     tokenRefreshTimeout := tokenRefreshTimeout c |}.

Definition set_tokenRefreshTimeout (v : option nat) (c : Client) : Client :=
  {| config := config c; currentSession := currentSession c;
     sessionToken := sessionToken c; tokenExpiry := tokenExpiry c;
     tokenRefreshTimeout := v |}.

Module PseudoVPNClient.

Local Open Scope js_scope.

(** The property names that every object inherits from
    [Object.prototype]. *)
Definition object_prototype_keys : list string :=
  ["constructor"; "__proto__"; "hasOwnProperty"; "isPrototypeOf";
   "propertyIsEnumerable"; "toLocaleString"; "toString"; "valueOf";
   "__defineGetter__"; "__defineSetter__"; "__lookupGetter__";
   "__lookupSetter__"]%string.

(** [this.config.regions[country]]: a configured region, a value
    inherited from [Object.prototype] (truthy, and without a [workers]
    property), or [undefined].  [regions] is a plain object, made by
    [JSON.parse] or by the literal in [loadConfig]. *)
Inductive RegionLookup : Type :=
| Configured (region : Region)
| Inherited
| Undefined.

Definition regions_get (cfg : Config) (country : string) : RegionLookup :=
  match regions cfg !! country with
  | Some region => Configured region
  | None =>
      if bool_decide (country ∈ object_prototype_keys) then Inherited
      else Undefined
  end.

(** [getBestWorker] calls [healthCheck(worker)], leaving the timeout to
    its default. *)
Definition default_timeout : Z := 5000.

Definition no_healthy_workers (country : string) : JsError :=
  Error ("No healthy workers available for " +:+ country).

Definition not_supported (country : string) : JsError :=
  Error ("Country " +:+ country +:+ " not supported").

(** [workers.map(worker => this.healthCheck(worker))]; [net i] is what
    the network does with the request to the [i]-th worker. *)
Definition probeAll `{Platform} (net : nat -> Reply) (workers : list string)
    : list (Outcome ProbeResult) :=
  imap (fun i worker => Probe.healthCheck worker default_timeout (net i)) workers.

(** The workers to which a health request goes out: all but those on
    whose address [https.get] throws. *)
Fixpoint requested (net : nat -> Reply) (workers : list string) : list string :=
  match workers with
  | [] => []
  | worker :: rest =>
      let others := requested (fun i => net (S i)) rest in
      match net 0%nat with
      | RequestThrows _ => others
      | _ => worker :: others
      end
  end.

(** part_001, [getBestWorker(country)] *)
Definition getBestWorker `{Platform} (net : nat -> Reply) (country : string)
    : M.t ProbeResult :=
  c <- M.read;;
  match regions_get (config c) country with
  | Undefined => M.throw (not_supported country)
  | Inherited =>
      M.throw (TypeError "Cannot read properties of undefined (reading 'map')")
  | Configured region =>
      let workers := workers region in
      M.emit (List.map HealthRequest (requested net workers));;
      healthChecks <- M.lift (Probe.Promise_all (probeAll net workers));;
      let sortedWorkers :=
        Probe.sort_by_latency (List.filter Probe.is_healthy healthChecks) in
      match sortedWorkers with
      | [] => M.throw (no_healthy_workers country)
      | best :: _ => M.ret best
      end
  end.

(** How the promise of [establishConnection] is settled: by [reject]
    from [req.on('error')], or in [res.on('end')] by [resolve] or
    [reject] according to the status code and the body. *)
Definition handshakeOutcome `{Platform} (net : HandshakeReply) : Outcome Json :=
  match net with
  | HandshakeSilent => Pending
  | HandshakeError e => Threw e
  | HandshakeResponse statusCode BodyStalls => Pending
  | HandshakeResponse statusCode (BodyEnds data) =>
      if statusCode =? 200 then
        match JSON_parse data with
        | Some result => Returned result
        | None => Threw (Error "Invalid response format")
        end
      else Threw (Error ("HTTP " +:+ Str.of_Z statusCode +:+ ": " +:+ data))
  end.

(** part_001, [establishConnection(workerUrl, sessionInfo)] *)
Definition establishConnection `{Platform} (net : HandshakeReply)
    (workerUrl : string) (sessionInfo : SessionInfo) : M.t Json :=
  M.emit [ConnectRequest workerUrl (token sessionInfo)
            (sessionId (payload sessionInfo))];;
  M.lift (handshakeOutcome net).

(** The pending timers other than [h]. *)
Definition without (h : nat) (pending : list Timer) : list Timer :=
  List.filter (fun t => negb (Nat.eqb (handle t) h)) pending.

(** The world after [clearTimeout(h)]. *)
Definition cancelled (h : nat) (w : World) : World :=
  {| this := this w;
     timers := without h (timers w);
     nextHandle := nextHandle w;
     trace := trace w ++ [ClearTimeout h] |}.

(** The world after [this.tokenRefreshTimeout = setTimeout(callback, delay)]
    at clock reading [now]. *)
Definition armed (now delay : Z) (w : World) : World :=
  let t := {| handle := nextHandle w; setAt := now; delay := delay |} in
  {| this := set_tokenRefreshTimeout (Some (nextHandle w)) (this w);
     timers := timers w ++ [t];
     nextHandle := S (nextHandle w);
     trace := trace w ++ [SetTimeout t] |}.

Definition clearTimeout (h : nat) : M.t unit :=
  fun w => (Returned tt, cancelled h w).

Definition setTimeout (now delay : Z) : M.t unit :=
  fun w => (Returned tt, armed now delay w).

(** A [null] operand of [-] counts as 0. *)
Definition number_of (v : option Z) : Z :=
  match v with Some n => n | None => 0 end.

(** part_001, [scheduleTokenRefresh()]; [now] is its reading of
    [Date.now()]. *)
Definition scheduleTokenRefresh (now : Z) : M.t unit :=
  c <- M.read;;
  match tokenRefreshTimeout c with
  | Some h => clearTimeout h
  | None => M.ret tt
  end;;
  let refreshTime :=
    number_of (tokenExpiry c) - now - refreshBuffer (auth (config c)) * 1000 in
  if 0 <? refreshTime then setTimeout now refreshTime
  else M.ret tt.

(** The error that the log lines of [connect] throw, if any.  They read
    [connectionResult.ip], [.country], [.countryCode] and [.city], which
    throws on [null], and put the values into template literals (for
    [city] unless it is falsy), which throws on a value that cannot be
    converted. *)
Definition log_error (connectionResult : Json) : option JsError :=
  match JS.get connectionResult "ip", JS.get connectionResult "country",
        JS.get connectionResult "countryCode", JS.get connectionResult "city" with
  | Some ip, Some country, Some countryCode, Some city =>
      if existsb JS.throws_on_conversion [ip; country; countryCode; city]
      then Some JS.cannot_convert
      else None
  | _, _, _, _ =>
      Some (TypeError "Cannot read properties of null (reading 'ip')")
  end.

(** part_001, [connect(country)] *)
Definition connect `{Platform} (env : ConnectEnv) (country : string) : M.t Json :=
  M.emit [Connecting country];;
  M.try_catch
    (worker <- getBestWorker (probeReply env) country;;
     c <- M.read;;
     sessionInfo <-
       M.lift (Token.generateSessionToken (config c) (mint env) country (url worker));;
     M.update (set_sessionToken (Some (token sessionInfo)));;
     M.update (set_tokenExpiry (Some (expires (payload sessionInfo))));;
     connectionResult <-
       establishConnection (handshakeReply env) (url worker) sessionInfo;;
     M.update (set_currentSession
                 (Some {| Session.country := country;
                          Session.worker := worker;
                          Session.sessionId := sessionId (payload sessionInfo);
                          Session.connectedAt := connectedNow env |}));;
     match log_error connectionResult with
     | Some error => M.throw error
     | None => M.ret tt
     end;;
     scheduleTokenRefresh (scheduleNow env);;
     M.ret connectionResult)
    (fun error => M.emit [ConsoleError error];; M.throw error).

(** part_001, [refreshToken()] *)
Definition refreshToken `{Platform} (m : Mint) (now : Z) : M.t unit :=
  c <- M.read;;
  match currentSession c with
  | None => M.ret tt
  | Some session =>
      sessionInfo <-
        M.lift (Token.generateSessionToken (config c) m
                  (Session.country session) (url (Session.worker session)));;
      M.update (set_sessionToken (Some (token sessionInfo)));;
      M.update (set_tokenExpiry (Some (expires (payload sessionInfo))));;
      scheduleTokenRefresh now
  end.

(** The callback that [scheduleTokenRefresh] hands to [setTimeout]. *)
Definition refreshCallback `{Platform} (env : RefreshEnv) : M.t unit :=
  M.try_catch
    (refreshToken (refreshMint env) (refreshScheduleNow env))
    (fun error =>
       M.emit [ConsoleError error];;
       c <- M.read;;
       match currentSession c with
       | Some session =>
           _ <- connect (reconnectEnv env) (Session.country session);;
           M.ret tt
       | None => M.ret tt
       end).

(** The event loop runs the callback of timer [h] when it is due: the
    timer leaves the pending set and the callback runs. *)
Definition fireTimer `{Platform} (h : nat) (env : RefreshEnv) : M.t unit :=
  fun w =>
    if existsb (fun t => Nat.eqb (handle t) h) (timers w) then
      refreshCallback env
        {| this := this w;
           timers := without h (timers w);
           nextHandle := nextHandle w;
           trace := trace w |}
    else (Returned tt, w).

(** part_001, [disconnect()] *)
Definition disconnect : M.t unit :=
  c <- M.read;;
  match tokenRefreshTimeout c with
  | Some h => clearTimeout h
  | None => M.ret tt
  end;;
  match currentSession c with
  | Some _ =>
      M.update (set_currentSession None);;
      M.update (set_sessionToken None);;
      M.update (set_tokenExpiry None)
  | None => M.ret tt
  end.

(** [new PseudoVPNClient()] after [init()] has loaded [cfg] *)
Definition new (cfg : Config) : World :=
  {| this := {| config := cfg; currentSession := None; sessionToken := None;
                tokenExpiry := None; tokenRefreshTimeout := None |};
     timers := []; nextHandle := 0%nat; trace := [] |}.

(** The configuration that [loadConfig] falls back to. *)
Definition default_config : Config :=
  {| regions :=
       {[ "US" := {| name := "United States";
                     workers := ["https://pseudovpn-us-east.hakzeemirror.workers.dev";
                                 "https://pseudovpn-us-backup.deno.dev"] |};
          "EU" := {| name := "Europe";
                     workers := ["https://pseudovpn-eu-west.hakzeemirror.workers.dev";
                                 "https://pseudovpn-eu-backup.deno.dev"] |};
          "AP" := {| name := "Asia Pacific";
                     workers := ["https://pseudovpn-ap-southeast.hakzeemirror.workers.dev";
                                 "https://pseudovpn-ap-backup.deno.dev"] |} ]}%string;
     auth := {| tokenDuration := 300; refreshBuffer := 60 |};
     health := {| checkInterval := 30000; timeout := 5000 |} |}.

End PseudoVPNClient.

(** ** A platform to run examples on

    [JSON.parse] for the texts without fractions, exponents and [\u]
    escapes, which is all the examples contain. *)

Module ExampleJSON.

Fixpoint skip_ws (cs : list ascii) : list ascii :=
  match cs with
  | c :: rest =>
      let n := N_of_ascii c in
      if (n =? 32)%N || (n =? 9)%N || (n =? 10)%N || (n =? 13)%N then skip_ws rest
      else cs
  | [] => []
  end.

Definition digit (c : ascii) : option Z :=
  let n := N_of_ascii c in
  if (48 <=? n)%N && (n <=? 57)%N then Some (Z.of_N n - 48) else None.

Fixpoint digits (acc : Z) (cs : list ascii) : Z * list ascii :=
  match cs with
  | c :: rest =>
      match digit c with
      | Some d => digits (acc * 10 + d) rest
      | None => (acc, cs)
      end
  | [] => (acc, [])
  end.

(** An integer without sign: a lone [0], or digits not starting with 0. *)
Definition natural (cs : list ascii) : option (Z * list ascii) :=
  match cs with
  | c :: rest =>
      match digit c with
      | Some 0 => Some (0, rest)
      | Some d => Some (digits d rest)
      | None => None
      end
  | [] => None
  end.

(** The characters of a string after its opening quote. *)
Fixpoint string_body (cs : list ascii) : option (string * list ascii) :=
  match cs with
  | [] => None
  | c :: rest =>
      let n := N_of_ascii c in
      if (n =? 34)%N then Some (EmptyString, rest)
      else if (n <? 32)%N then None
      else if (n =? 92)%N then
        match rest with
        | e :: rest' =>
            let unescaped :=
              match N_of_ascii e with
              | 34%N => Some Str.quote_char
              | 92%N => Some Str.backslash
              | 47%N => Some "/"%char
              | 98%N => Some (ascii_of_N 8)
              | 102%N => Some (ascii_of_N 12)
              | 110%N => Some (ascii_of_N 10)
              | 114%N => Some (ascii_of_N 13)
              | 116%N => Some (ascii_of_N 9)
              | _ => None
              end in
            match unescaped, string_body rest' with
            | Some u, Some (s, r) => Some (String u s, r)
            | _, _ => None
            end
        | [] => None
        end
      else
        match string_body rest with
        | Some (s, r) => Some (String c s, r)
        | None => None
        end
  end.

(** A later member replaces an earlier one of the same name. *)
Fixpoint define (k : string) (v : Json) (fields : list (string * Json))
    : list (string * Json) :=
  match fields with
  | [] => [(k, v)]
  | (k', v') :: rest =>
      if String.eqb k k' then (k, v) :: rest else (k', v') :: define k v rest
  end.

Fixpoint value (fuel : nat) (cs : list ascii) : option (Json * list ascii) :=
  match fuel with
  | O => None
  | S fuel =>
      match skip_ws cs with
      | "n"%char :: "u"%char :: "l"%char :: "l"%char :: r => Some (JNull, r)
      | "t"%char :: "r"%char :: "u"%char :: "e"%char :: r => Some (JBool true, r)
      | "f"%char :: "a"%char :: "l"%char :: "s"%char :: "e"%char :: r =>
          Some (JBool false, r)
      | "-"%char :: r =>
          match natural r with
          | Some (n, r') => Some (JNum (- n), r')
          | None => None
          end
      | "["%char :: r =>
          match skip_ws r with
          | "]"%char :: r' => Some (JArr [], r')
          | _ =>
              match elements fuel r with
              | Some (items, r') => Some (JArr items, r')
              | None => None
              end
          end
      | "{"%char :: r =>
          match skip_ws r with
          | "}"%char :: r' => Some (JObj [], r')
          | _ =>
              match members fuel [] r with
              | Some (fields, r') => Some (JObj fields, r')
              | None => None
              end
          end
      | c :: r =>
          if (N_of_ascii c =? 34)%N then
            match string_body r with
            | Some (s, r') => Some (JStr s, r')
            | None => None
            end
          else
            match natural (c :: r) with
            | Some (n, r') => Some (JNum n, r')
            | None => None
            end
      | [] => None
      end
  end
with elements (fuel : nat) (cs : list ascii) : option (list Json * list ascii) :=
  match fuel with
  | O => None
  | S fuel =>
      match value fuel cs with
      | Some (v, r) =>
          match skip_ws r with
          | ","%char :: r' =>
              match elements fuel r' with
              | Some (vs, r'') => Some (v :: vs, r'')
              | None => None
              end
          | "]"%char :: r' => Some ([v], r')
          | _ => None
          end
      | None => None
      end
  end
with members (fuel : nat) (seen : list (string * Json)) (cs : list ascii)
    : option (list (string * Json) * list ascii) :=
  match fuel with
  | O => None
  | S fuel =>
      match skip_ws cs with
      | q :: r =>
          if (N_of_ascii q =? 34)%N then
            match string_body r with
            | Some (k, r1) =>
                match skip_ws r1 with
                | ":"%char :: r2 =>
                    match value fuel r2 with
                    | Some (v, r3) =>
                        match skip_ws r3 with
                        | ","%char :: r4 => members fuel (define k v seen) r4
                        | "}"%char :: r4 => Some (define k v seen, r4)
                        | _ => None
                        end
                    | None => None
                    end
                | _ => None
                end
            | None => None
            end
          else None
      | [] => None
      end
  end.

Definition parse (text : string) : option Json :=
  let cs := list_ascii_of_string text in
  match value (S (List.length cs)) cs with
  | Some (v, r) => match skip_ws r with [] => Some v | _ => None end
  | None => None
  end.

End ExampleJSON.

(** Node's base64 decoder reads both alphabets; on well-formed input it
    yields the bytes that the forgiving decoder finds once [-] and [_] are
    written [+] and [/]. *)
Definition example_Buffer_base64_utf8 (s : string) : string :=
  let standard (c : ascii) : ascii :=
    if Ascii.eqb c "-" then "+"%char else if Ascii.eqb c "_" then "/"%char else c in
  match Base64.forgiving_decode
          (string_of_list_ascii (List.map standard (list_ascii_of_string s))) with
  | Some bytes => string_of_list_ascii bytes
  | None => EmptyString
  end.

(** The examples compare [expires] with numbers only, and never look into
    a signature: the digest is a fixed block of 32 bytes. *)
Definition example_platform : Platform :=
  {| JSON_parse := ExampleJSON.parse;
     ToNumber_other := fun _ => None;
     hmac_sha256 := fun _ _ => "0123456789abcdef0123456789abcdef"%string;
     Buffer_base64_utf8 := example_Buffer_base64_utf8 |}.

(** ** Vocabulary of the properties *)

Module Spec.

(** [best] is the healthy result of lowest latency in [checks], and the
    earliest of those: it stands at index [i], no healthy result has a
    lower latency, and none of equal latency stands before [i]. *)
Definition is_best (checks : list ProbeResult) (i : nat) (best : ProbeResult) : Prop :=
  checks !! i = Some best /\
  status best = StHealthy /\
  forall (j : nat) (other : ProbeResult),
    checks !! j = Some other -> status other = StHealthy ->
    latency best <= latency other /\
    (latency other = latency best -> (i <= j)%nat).

(** The earliest healthy result of lowest latency, computed directly. *)
Fixpoint first_best (checks : list ProbeResult) : option ProbeResult :=
  match checks with
  | [] => None
  | check :: rest =>
      if Probe.is_healthy check then
        match first_best rest with
        | None => Some check
        | Some m => if latency check - latency m <=? 0 then Some check else Some m
        end
      else first_best rest
  end.

(** The payload that a token carries on the wire: the token is not
    empty, it has three segments separated by dots, and the middle one
    decodes to a JSON text. *)
Definition wire_payload `{Platform} (decode : string -> option string)
    (token : string) : option Json :=
  if Str.truthy token then
    match Str.split Str.dot token with
    | [_; segment; _] =>
        match decode segment with
        | Some text => JSON_parse text
        | None => None
        end
    | _ => None
    end
  else None.

(** The strings whose bytes are all below 128. *)
Definition is_ascii (s : string) : bool :=
  forallb (fun c => (N_of_ascii c <? 128)%N) (list_ascii_of_string s).

(** [p.k] for a payload that is not [null]. *)
Definition field (p : Json) (k : string) : option Json :=
  match JS.get p k with Some v => v | None => None end.

(** [now > payload.expires] *)
Definition is_expired `{Platform} (now : Z) (p : Json) : bool :=
  JS.gt now (field p "expires").

(** The comparison of the clock with [payload.expires] throws. *)
Definition expiry_throws (p : Json) : bool :=
  JS.throws_on_conversion (field p "expires").

(** [payload.sessionId !== sessionId] *)
Definition session_differs (p : Json) (sessionId : string) : bool :=
  JS.strict_ne_string (field p "sessionId") sessionId.

(** What a relay's [validateToken] may answer: the payload on the wire
    when it is a non-null payload of the expected session whose expiry
    can be compared with the clock and has not passed, and otherwise the
    one value [false], whatever the reason. *)
Definition answers `{Platform} (decode : string -> option string)
    (now : Z) (token sessionId : string) (answer : option Json) : Prop :=
  match answer with
  | Some p =>
      wire_payload decode token = Some p /\ p <> JNull /\
      expiry_throws p = false /\
      is_expired now p = false /\ session_differs p sessionId = false
  | None =>
      wire_payload decode token = None \/
      wire_payload decode token = Some JNull \/
      exists p, wire_payload decode token = Some p /\
                (expiry_throws p = true \/ is_expired now p = true \/
                 session_differs p sessionId = true)
  end.

(** The session that a successful handshake commits. *)
Definition committed (env : ConnectEnv) (country : string) (worker : ProbeResult)
    (info : SessionInfo) : Session.t :=
  {| Session.country := country;
     Session.worker := worker;
     Session.sessionId := sessionId (payload info);
     Session.connectedAt := connectedNow env |}.

(** The world once the token is minted, stored and sent. *)
Definition handshaking (worker : ProbeResult) (info : SessionInfo) (w : World) : World :=
  M.logged [ConnectRequest (url worker) (token info) (sessionId (payload info))]
    (M.updated (set_tokenExpiry (Some (expires (payload info))))
       (M.updated (set_sessionToken (Some (token info))) w)).

Definition null_result : JsError :=
  TypeError "Cannot read properties of null (reading 'ip')".

(** How the timer callback ends when it falls back on [connect]. *)
Definition discard_result (o : Outcome Json) : Outcome unit :=
  match o with
  | Returned _ => Returned tt
  | Threw e => Threw e
  | Pending => Pending
  end.

(** The events of [evs] that start a [connect]. *)
Definition connect_attempts (evs : list Event) : nat :=
  List.length
    (List.filter (fun e => match e with Connecting _ => true | _ => false end) evs).

Definition is_SetTimeout (e : Event) : bool :=
  match e with SetTimeout _ => true | _ => false end.

Definition is_ConnectRequest (e : Event) : bool :=
  match e with ConnectRequest _ _ _ => true | _ => false end.

End Spec.

(** ** Example inputs *)

Module Examples.

Import PseudoVPNClient.

Definition uuid1 : string := "123e4567-e89b-42d3-a456-426614174000".

(** A mint at clock reading [now]. *)
Definition mint_at (now : Z) : Mint :=
  {| entropy := EntropyGives uuid1 "00"; issuedNow := now; expiresNow := now |}.

Definition failing_mint : Mint :=
  {| entropy := EntropyFails (SystemError "ERR_CRYPTO_OPERATION_FAILED");
     issuedNow := 0; expiresNow := 0 |}.

(** Region [US] with the endpoints [w1], [w2], [w3]. *)
Definition three_workers (duration buffer : Z) : Config :=
  {| regions :=
       {[ "US" := {| name := "United States";
                     workers := ["https://w1.example"; "https://w2.example";
                                 "https://w3.example"] |} ]}%string;
     auth := {| tokenDuration := duration; refreshBuffer := buffer |};
     health := {| checkInterval := 30000; timeout := 5000 |} |}.

(** [w1] does not answer, [w2] is healthy in 40 ms, [w3] in 120 ms. *)
Definition w1_times_out (i : nat) : Reply :=
  match i with
  | O => NoReply
  | 1%nat => ResponseHead 40 200 (BodyEnds "{}")
  | _ => ResponseHead 120 200 (BodyEnds "{}")
  end.

Definition nobody_answers (i : nat) : Reply := NoReply.

(** [w1] sends the head of a 200 response after 10 ms and never ends
    the body; [w2] is healthy in 40 ms, [w3] in 120 ms. *)
Definition w1_stalls (i : nat) : Reply :=
  match i with
  | O => ResponseHead 10 200 BodyStalls
  | 1%nat => ResponseHead 40 200 (BodyEnds "{}")
  | _ => ResponseHead 120 200 (BodyEnds "{}")
  end.

(** Every endpoint sends the head of a 200 response after 10 ms and
    never ends the body. *)
Definition everybody_stalls (i : nat) : Reply := ResponseHead 10 200 BodyStalls.

(** A connect whose clock reads [now] throughout. *)
Definition connect_at (now : Z) (net : nat -> Reply) (hs : HandshakeReply)
    : ConnectEnv :=
  {| probeReply := net; mint := mint_at now; handshakeReply := hs;
     connectedNow := now; scheduleNow := now |}.

Definition accepted : HandshakeReply := HandshakeResponse 200 (BodyEnds "{}").
Definition refused : HandshakeReply := HandshakeResponse 500 (BodyEnds "busy").

(** The token minted at clock reading [now] for region [US] and the
    endpoint [workerId], under the default configuration. *)
Definition session_info (now : Z) (workerId : string) : Outcome SessionInfo :=
  Token.generateSessionToken (H := example_platform) default_config (mint_at now)
    "US" workerId.

Definition token_of (now : Z) (workerId : string) : string :=
  match session_info now workerId with
  | Returned info => token info
  | _ => EmptyString
  end.

Definition w2_result : ProbeResult :=
  {| url := "https://w2.example"; status := StHealthy; latency := 40;
     data := Some (JObj []) |}.

(** The world after a successful [connect("US")] at time 0. *)
Definition connected : World :=
  snd (connect (H := example_platform) (connect_at 0 w1_times_out accepted) "US"
         (new (three_workers 300 60))).

(** The world in which a token that expires at 60 s has just been
    stored, under a refresh buffer of 60 s. *)
Definition no_window : World :=
  M.updated (set_tokenExpiry (Some 60000)) (new (three_workers 60 60)).

End Examples.

(** ** The rest of the client's life cycle *)

(** What one round of [benchmark] reads from its environment: the four
    clock readings around the connect, and the connect's own environment. *)
Record Round : Type := {
  startNow : Z;
  attempt : ConnectEnv;
  connectedAtNow : Z;
  requestStartNow : Z;
  requestEndNow : Z
}.

(** An entry of [results]; a failure keeps the error whose message the
    source records. *)
Inductive Result : Type :=
| Success (iteration : nat) (connectionTime requestTime : Z)
| Failure (iteration : nat) (error : JsError).

(** What [benchmark] prints at its end: nothing when no round succeeded,
    and otherwise the number of successes with the two sums whose
    quotients by that number are the printed averages. *)
Record Report : Type := {
  results : list Result;
  statistics : option (nat * Z * Z)
}.

Module Lifecycle.

Import PseudoVPNClient.
Local Open Scope js_scope.

(** part_001, [switchCountry(newCountry)] *)
Definition switchCountry `{Platform} (env : ConnectEnv) (newCountry : string)
    : M.t Json :=
  disconnect;;
  connect env newCountry.

Definition is_success (r : Result) : bool :=
  match r with Success _ _ _ => true | Failure _ _ => false end.

Definition connectionTime_of (r : Result) : Z :=
  match r with Success _ t _ => t | Failure _ _ => 0 end.

Definition requestTime_of (r : Result) : Z :=
  match r with Success _ _ t => t | Failure _ _ => 0 end.

(** The body of the [for] loop of [benchmark], for round [i]: the success
    is pushed before [disconnect] is awaited, and whatever is thrown
    inside the [try] pushes a failure. *)
Definition round `{Platform} (country : string) (i : nat) (r : Round)
    (results : list Result) : M.t (list Result) :=
  M.try_catch
    (_ <- connect (attempt r) country;;
     let connectionTime := connectedAtNow r - startNow r in
     let requestTime := requestEndNow r - requestStartNow r in
     let pushed := results ++ [Success i connectionTime requestTime] in
     M.try_catch
       (disconnect;; M.ret pushed)
       (fun error => M.ret (pushed ++ [Failure i error])))
    (fun error => M.ret (results ++ [Failure i error])).

Fixpoint rounds `{Platform} (country : string) (i : nat) (rs : list Round)
    (results : list Result) : M.t (list Result) :=
  match rs with
  | [] => M.ret results
  | r :: rest =>
      results' <- round country i r results;;
      rounds country (S i) rest results'
  end.

Definition sum (l : list Z) : Z := foldr Z.add 0 l.

(** part_001, [benchmark(country, iterations)]; [iterations] is the
    number of rounds that the environment describes. *)
Definition benchmark `{Platform} (rs : list Round) (country : string) : M.t Report :=
  results <- rounds country 1 rs [];;
  let successful := List.filter is_success results in
  M.ret {| results := results;
           statistics :=
             if (0 <? List.length successful)%nat then
               Some (List.length successful,
                     sum (List.map connectionTime_of successful),
                     sum (List.map requestTime_of successful))
             else None |}.

(** At most one refresh timer is pending, and the client holds its
    handle. *)
Definition one_timer (w : World) : Prop :=
  match timers w with
  | [] => True
  | [t] => tokenRefreshTimeout (this w) = Some (handle t)
  | _ => False
  end.

Definition iteration_of (r : Result) : nat :=
  match r with Success i _ _ => i | Failure i _ => i end.

(** What [benchmark] has to record for the rounds [rs], numbered from
    [i], when it starts them in the world [w] and leaves them in [w']:
    for a round whose [connect] returns, a success with the two
    durations that the round has measured, after which [disconnect]
    runs; for a round whose [connect] throws, a failure with the error
    thrown. *)
Inductive recorded `{Platform} (country : string)
    : nat -> list Round -> World -> list Result -> World -> Prop :=
| recorded_nil (i : nat) (w : World) : recorded country i [] w [] w
| recorded_success (i : nat) (r : Round) (rest : list Round) (w w1 w' : World)
    (result : Json) (results : list Result) :
    connect (attempt r) country w = (Returned result, w1) ->
    recorded country (S i) rest (snd (disconnect w1)) results w' ->
    recorded country i (r :: rest) w
      (Success i (connectedAtNow r - startNow r) (requestEndNow r - requestStartNow r)
         :: results) w'
| recorded_failure (i : nat) (r : Round) (rest : list Round) (w w1 w' : World)
    (e : JsError) (results : list Result) :
    connect (attempt r) country w = (Threw e, w1) ->
    recorded country (S i) rest w1 results w' ->
    recorded country i (r :: rest) w (Failure i e :: results) w'.

(** The events that send something to an endpoint. *)
Definition is_request (e : Event) : bool :=
  match e with
  | HealthRequest _ | ConnectRequest _ _ _ => true
  | _ => false
  end.

End Lifecycle.

(** ** The relay (worker-deno.js) *)

(** What the relay takes from the platform besides [Platform]: the time
    value of [new Date(v)] for a string, an array or an object [v];
    [None] for an invalid date. *)
Class DateRuntime : Type := {
  Date_of_other : Json -> option Z
}.

Module JSValue.

(** Truthiness of a property value. *)
Definition truthy (v : option Json) : bool :=
  match v with
  | None => false
  | Some JNull => false
  | Some (JBool b) => b
  | Some (JNum n) => negb (n =? 0)
  | Some (JStr s) => Str.truthy s
  | Some (JArr _) => true
  | Some (JObj _) => true
  end.

(** [a === b] for two values that come from different parses: an array
    or an object is never the other's. *)
Definition same (a b : Json) : bool :=
  match a, b with
  | JNull, JNull => true
  | JBool x, JBool y => Bool.eqb x y
  | JNum x, JNum y => x =? y
  | JStr x, JStr y => String.eqb x y
  | _, _ => false
  end.

Definition strict_eq (a : option Json) (b : Json) : bool :=
  match a with
  | Some a => same a b
  | None => false
  end.

(** The time value of [new Date(v)]; [None] for an invalid date, on
    which [toISOString] throws [RangeError]. *)
Definition time_value `{DateRuntime} (v : option Json) : option Z :=
  let clip (t : Z) := if Z.abs t <=? 8640000000000000 then Some t else None in
  match v with
  | None => None
  | Some JNull => Some 0
  | Some (JBool b) => Some (if b then 1 else 0)
  | Some (JNum n) => clip n
  | Some other =>
      match Date_of_other other with
      | Some t => clip t
      | None => None
      end
  end.

(** [s.replace(pattern, '')] for a pattern that is a non-empty string:
    its first occurrence is removed. *)
Fixpoint remove_first (pattern s : string) : string :=
  if String.prefix pattern s then
    String.substring (String.length pattern)
      (String.length s - String.length pattern) s
  else
    match s with
    | EmptyString => EmptyString
    | String c rest => String c (remove_first pattern rest)
    end.

End JSValue.

(** The client information that [getEnhancedClientInfo] hands back; the
    relay uses its [ip] and [country]. *)
Record ClientInfo : Type := {
  ip : string;
  clientCountry : string;
  details : Json
}.

Module Stored.
(** A value of [activeSessions]. *)
Record t : Type := {
  sessionId : Json;
  created : Z;
  expires : option Json;
  country : option Json;
  clientInfo : ClientInfo;
  lastActivity : Z
}.
End Stored.

(** [activeSessions]: a [Map] in insertion order.  Its keys are the
    [sessionId]s of request bodies. *)
Module Sessions.

Definition t : Type := list (Json * Stored.t).

Fixpoint get (k : Json) (m : t) : option Stored.t :=
  match m with
  | [] => None
  | (k', v) :: rest => if JSValue.same k k' then Some v else get k rest
  end.

(** [set] keeps the place of a key that is present. *)
Fixpoint set (k : Json) (v : Stored.t) (m : t) : t :=
  match m with
  | [] => [(k, v)]
  | (k', v') :: rest =>
      if JSValue.same k k' then (k', v) :: rest else (k', v') :: set k v rest
  end.

Definition delete (k : Json) (m : t) : t :=
  List.filter (fun kv => negb (JSValue.same k (fst kv))) m.

Definition size (m : t) : nat := List.length m.

End Sessions.

(** An incoming request: the method, the path of its URL, its headers by
    lower-case name, what [request.json()] gives (the message of the
    error where it rejects), and the [url] parameter of the query. *)
Record Request : Type := {
  method : string;
  path : string;
  headers : gmap string string;
  json : string + Json;
  target : option string
}.

(** The request that [handleProxy] builds for the target. *)
Record ProxyRequest : Type := {
  proxyTarget : string;
  proxyMethod : string;
  proxyHeaders : gmap string string;
  proxyBody : bool
}.

(** What happens once [handleProxy] has accepted a request, each error
    with its message: [Headers.set] or [new Request] throws while the
    proxied request is built; [fetch] rejects; [new Response] throws on
    the reply (a status outside 200..599, say); or the reply is relayed. *)
Inductive Upstream : Type :=
| BuildThrows (message : string)
| FetchThrows (message : string)
| ReplyThrows (message : string)
| UpstreamReplies (status : Z) (statusText : string) (headers : gmap string string)
    (body : string).

Inductive ResponseBody : Type :=
| NoBody
| ErrorBody (error : string)
| InternalErrorBody (message : string)
| TextBody (text : string)
| ConnectedBody (sessionId : Json) (info : ClientInfo) (sessionExpires : Z)
| HealthBody (activeSessions : nat)
| InfoBody (info : ClientInfo)
| ServiceBody
| RelayedBody (statusText : string) (headers : gmap string string) (body : string).

Module Response.
Record t : Type := { status : Z; body : ResponseBody }.
End Response.

(** What the handlers of one request read from their environment: the
    readings of [Date.now()], the client information, and the target's
    behaviour. *)
Record Call : Type := {
  cleanupNow : Z;
  validateNow : Z;
  createdNow : Z;
  activityNow : Z;
  sessionNow : Z;
  info : ClientInfo;
  upstream : Upstream
}.

Module DenoWorker.

(** worker-deno.js, [cleanupExpiredSessions()].  The expiries in the
    store are those of payloads that [validateToken] has accepted, so
    that their comparison with the clock completes, here and in
    [handleProxy]. *)
Definition cleanupExpiredSessions `{Platform} (now : Z) (sessions : Sessions.t)
    : Sessions.t :=
  List.filter (fun kv => negb (JS.gt now (Stored.expires (snd kv)))) sessions.

(** worker-deno.js, [validateToken(token, sessionId)] on the values of a
    request body.  A token that is not a string is falsy or has no
    [split], and the [catch] answers [false]. *)
Definition validateToken `{Platform} (now : Z) (token sessionId : Json) : option Json :=
  match token with
  | JStr token =>
      if negb (Str.truthy token) then None
      else
        let parts := Str.split Str.dot token in
        if negb (List.length parts =? 3)%nat then None
        else
          match Base64.atob (nth 1 parts EmptyString) with
          | None => None
          | Some text =>
              match JSON_parse text with
              | None => None
              | Some payload =>
                  match JS.get payload "expires", JS.get payload "sessionId" with
                  | Some expires, Some sid =>
                      if JS.throws_on_conversion expires then None
                      else if JS.gt now expires then None
                      else if negb (JSValue.strict_eq sid sessionId) then None
                      else Some payload
                  | _, _ => None
                  end
              end
          end
  | _ => None
  end.

Definition respond (status : Z) (body : ResponseBody) : Response.t :=
  {| Response.status := status; Response.body := body |}.

(** worker-deno.js, [handleHealthCheck(request)] *)
Definition handleHealthCheck `{Platform} (call : Call) (sessions : Sessions.t)
    : Response.t * Sessions.t :=
  let sessions := cleanupExpiredSessions (cleanupNow call) sessions in
  (respond 200 (HealthBody (Sessions.size sessions)), sessions).

(** worker-deno.js, [handleConnect(request)] *)
Definition handleConnect `{Platform} `{DateRuntime} (request : Request) (call : Call)
    (sessions : Sessions.t) : Response.t * Sessions.t :=
  let internal_error (message : string) := respond 500 (InternalErrorBody message) in
  match json request with
  | inl message => (internal_error message, sessions)
  | inr body =>
      match JS.get body "token", JS.get body "sessionId", JS.get body "action" with
      | Some token, Some sessionId, Some action =>
          if JS.strict_ne_string action "connect"
             || negb (JSValue.truthy token) || negb (JSValue.truthy sessionId)
          then (respond 400 (ErrorBody "Invalid request parameters"), sessions)
          else
            match token, sessionId with
            | Some token, Some sessionId =>
                match validateToken (validateNow call) token sessionId with
                | None => (respond 401 (ErrorBody "Invalid or expired token"), sessions)
                | Some tokenPayload =>
                    let session :=
                      {| Stored.sessionId := sessionId;
                         Stored.created := createdNow call;
                         Stored.expires := Spec.field tokenPayload "expires";
                         Stored.country := Spec.field tokenPayload "country";
                         Stored.clientInfo := info call;
                         Stored.lastActivity := activityNow call |} in
                    let sessions := Sessions.set sessionId session sessions in
                    match JSValue.time_value (Spec.field tokenPayload "expires") with
                    | Some sessionExpires =>
                        (respond 200 (ConnectedBody sessionId (info call) sessionExpires),
                         sessions)
                    | None => (internal_error "Invalid time value", sessions)
                    end
                end
            | _, _ => (respond 400 (ErrorBody "Invalid request parameters"), sessions)
            end
      | _, _, _ =>
          (internal_error
             "Cannot destructure property 'token' of 'body' as it is null.",
           sessions)
      end
  end.

(** The names that [handleProxy] does not copy to the proxied request. *)
Definition internal_headers : list string :=
  ["host"; "x-session-id"; "authorization"]%string.

(** worker-deno.js, [handleProxy(request)]: the response, the sessions
    afterwards, and the request handed to [fetch], if one was. *)
Definition handleProxy `{Platform} (request : Request) (call : Call)
    (sessions : Sessions.t) : Response.t * Sessions.t * option ProxyRequest :=
  let sessionId := headers request !! "x-session-id"%string in
  let token :=
    JSValue.remove_first "Bearer " <$> (headers request !! "authorization"%string) in
  match sessionId, token with
  | Some sessionId, Some token =>
      if negb (Str.truthy sessionId) || negb (Str.truthy token) then
        (respond 401 (TextBody "Unauthorized"), sessions, None)
      else
        let expired :=
          (respond 401 (TextBody "Session expired"),
           Sessions.delete (JStr sessionId) sessions, None) in
        match Sessions.get (JStr sessionId) sessions with
        | None => expired
        | Some session =>
            if JS.gt (sessionNow call) (Stored.expires session) then expired
            else
              match validateToken (validateNow call) (JStr token) (JStr sessionId) with
              | None => (respond 401 (TextBody "Invalid token"), sessions, None)
              | Some _ =>
                  match target request with
                  | Some targetUrl =>
                      if negb (Str.truthy targetUrl) then
                        (respond 400 (TextBody "Target URL required"), sessions, None)
                      else
                        let session :=
                          {| Stored.sessionId := Stored.sessionId session;
                             Stored.created := Stored.created session;
                             Stored.expires := Stored.expires session;
                             Stored.country := Stored.country session;
                             Stored.clientInfo := Stored.clientInfo session;
                             Stored.lastActivity := activityNow call |} in
                        let sessions := Sessions.set (JStr sessionId) session sessions in
                        let copied :=
                          filter (fun kv => fst kv ∉ internal_headers) (headers request) in
                        let proxyRequest :=
                          {| proxyTarget := targetUrl;
                             proxyMethod := method request;
                             proxyHeaders :=
                               <["x-original-country"%string :=
                                   clientCountry (Stored.clientInfo session)]>
                                 (<["x-forwarded-for"%string :=
                                      ip (Stored.clientInfo session)]>
                                    (<["user-agent"%string := "PseudoVPN-Deno/1.0"%string]>
                                       copied));
                             proxyBody :=
                               negb (String.eqb (method request) "GET")
                               && negb (String.eqb (method request) "HEAD") |} in
                        match upstream call with
                        | BuildThrows message =>
                            (respond 500 (TextBody ("Proxy error: " +:+ message)),
                             sessions, None)
                        | FetchThrows message | ReplyThrows message =>
                            (respond 500 (TextBody ("Proxy error: " +:+ message)),
                             sessions, Some proxyRequest)
                        | UpstreamReplies status statusText responseHeaders body =>
                            (respond status
                               (RelayedBody statusText
                                  (<["x-proxy-platform"%string := "Deno Deploy"%string]>
                                     (<["x-proxy-country"%string :=
                                          clientCountry (Stored.clientInfo session)]>
                                        (<["access-control-allow-origin"%string :=
                                             "*"%string]> responseHeaders)))
                                  body),
                             sessions, Some proxyRequest)
                        end
                  | None =>
                      (respond 400 (TextBody "Target URL required"), sessions, None)
                  end
              end
        end
  | _, _ => (respond 401 (TextBody "Unauthorized"), sessions, None)
  end.

(** worker-deno.js, [handleRequest(request)] *)
Definition handleRequest `{Platform} `{DateRuntime} (request : Request) (call : Call)
    (sessions : Sessions.t) : Response.t * Sessions.t :=
  if String.eqb (method request) "OPTIONS" then (respond 204 NoBody, sessions)
  else if String.eqb (path request) "/health" then handleHealthCheck call sessions
  else if String.eqb (path request) "/connect" then
    if String.eqb (method request) "POST" then handleConnect request call sessions
    else (respond 405 (TextBody "Method Not Allowed"), sessions)
  else if String.eqb (path request) "/proxy" then (handleProxy request call sessions).1
  else if String.eqb (path request) "/ip" || String.eqb (path request) "/info" then
    (respond 200 (InfoBody (info call)), sessions)
  else if String.eqb (path request) "/" then (respond 200 ServiceBody, sessions)
  else (respond 404 (TextBody "Not Found"), sessions).

End DenoWorker.

(** worker-deno.js, [Deno.serve(handleRequest)] and the [setInterval] of
    [cleanupExpiredSessions].  Every handler reads and writes
    [activeSessions] in one synchronous stretch, so that the store sees
    the requests and the cleanups one after the other. *)
Module Server.

Inductive Step : Type :=
| Serve (request : Request) (call : Call)
| Cleanup (now : Z).

Definition step `{Platform} `{DateRuntime} (sessions : Sessions.t) (s : Step)
    : Sessions.t :=
  match s with
  | Serve request call => (DenoWorker.handleRequest request call sessions).2
  | Cleanup now => DenoWorker.cleanupExpiredSessions now sessions
  end.

(** The store after [steps], starting empty. *)
Definition run `{Platform} `{DateRuntime} (steps : list Step) : Sessions.t :=
  foldl step [] steps.

End Server.

(** Words for the properties of the relay. *)
Module Relay.

(** The body that the client posts to [/connect]
    (part_001, [establishConnection]). *)
Definition handshake_body (token sessionId : string) : Json :=
  JObj [("action", JStr "connect"); ("token", JStr token);
        ("sessionId", JStr sessionId)]%string.

(** Two stored sessions that differ at most in [lastActivity]. *)
Definition same_but_activity (a b : Stored.t) : Prop :=
  Stored.sessionId a = Stored.sessionId b /\
  Stored.created a = Stored.created b /\
  Stored.expires a = Stored.expires b /\
  Stored.country a = Stored.country b /\
  Stored.clientInfo a = Stored.clientInfo b.

(** Every session is filed under its own identifier, which is a truthy
    string, number or boolean, and no identifier is filed twice. *)
Definition filed (m : Sessions.t) : Prop :=
  Forall (fun kv => Stored.sessionId (snd kv) = fst kv /\
                    JSValue.truthy (Some (fst kv)) = true /\
                    JSValue.same (fst kv) (fst kv) = true) m /\
  NoDup (List.map fst m).

(** The session that [handleConnect] stores for a validated payload. *)
Definition session_of (call : Call) (sessionId payload : Json) : Stored.t :=
  {| Stored.sessionId := sessionId;
     Stored.created := createdNow call;
     Stored.expires := Spec.field payload "expires";
     Stored.country := Spec.field payload "country";
     Stored.clientInfo := info call;
     Stored.lastActivity := activityNow call |}.

End Relay.

(** A runtime for examples whose expiries are numbers: it reads no date
    out of anything else. *)
Definition example_dates : DateRuntime := {| Date_of_other := fun _ => None |}.

Module RelayExamples.

Definition client_info : ClientInfo :=
  {| ip := "203.0.113.7"; clientCountry := "Unknown"; details := JNull |}.

(** A call whose clock reads [now] throughout and whose target answers
    200. *)
Definition call_at (now : Z) : Call :=
  {| cleanupNow := now; validateNow := now; createdNow := now; activityNow := now;
     sessionNow := now; info := client_info;
     upstream := UpstreamReplies 200 "OK" ∅ "hello" |}.

Definition default_worker : string := "https://pseudovpn-us-backup.deno.dev".

(** The handshake of a client that minted its token at [now]. *)
Definition handshake (now : Z) : Request :=
  {| method := "POST"; path := "/connect";
     headers := {[ "content-type" := "application/json";
                   "authorization" := "Bearer " +:+ Examples.token_of now default_worker;
                   "user-agent" := "PseudoVPN-Client/1.0" ]}%string;
     json := inr (Relay.handshake_body (Examples.token_of now default_worker)
                    Examples.uuid1);
     target := None |}.

(** A request for [https://example.org/] through the relay, presenting
    the token minted at [now]. *)
Definition proxied (now : Z) : Request :=
  {| method := "GET"; path := "/proxy";
     headers := {[ "authorization" := "Bearer " +:+ Examples.token_of now default_worker;
                   "x-session-id" := Examples.uuid1;
                   "accept" := "text/html";
                   "user-agent" := "curl/8" ]}%string;
     json := inl "Unexpected end of JSON input"%string;
     target := Some "https://example.org/"%string |}.

(** A token whose payload names a session and no expiry. *)
Definition token_without_expiry : string :=
  "e30." +:+ Base64.base64url (JS.JSON_stringify (JObj [("sessionId", JStr "s1")]%string))
    +:+ ".c2ln".

End RelayExamples.

(** * Properties *)

(** ** The string functions on examples *)

Example split_three : Str.split Str.dot "a.b.c" = ["a"; "b"; "c"]%string.
Proof. reflexivity. Qed.

Example split_trailing : Str.split Str.dot "a." = ["a"; EmptyString]%string.
Proof. reflexivity. Qed.

Example base64url_hello : Base64.base64url "hello?>" = "aGVsbG8_Pg"%string.
Proof. reflexivity. Qed.

Example atob_hello : Base64.atob "aGVsbG8/Pg" = Some "hello?>"%string.
Proof. reflexivity. Qed.

Example atob_rejects_url_symbols : Base64.atob "aGVsbG8_Pg" = None.
Proof. reflexivity. Qed.

Example of_Z_neg : Str.of_Z (-120) = "-120"%string.
Proof. reflexivity. Qed.

(** ** Strings and base64 *)

Lemma string_ind3 (P : string -> Prop) :
  P EmptyString ->
  (forall a, P (String a EmptyString)) ->
  (forall a b, P (String a (String b EmptyString))) ->
  (forall a b c s, P s -> P (String a (String b (String c s)))) ->
  forall s, P s.
Proof.
  intros H0 H1 H2 H3.
  fix IH 1.
  intros [|a [|b [|c s]]].
  - exact H0.
  - apply H1.
  - apply H2.
  - apply H3, IH.
Qed.

Lemma ascii_of_N_ne (n m : N) :
  (n < 256)%N -> (m < 256)%N -> n <> m -> ascii_of_N n <> ascii_of_N m.
Proof.
  intros Hn Hm Hne E. apply Hne.
  rewrite <- (N_ascii_embedding n Hn), <- (N_ascii_embedding m Hm).
  now rewrite E.
Qed.

Lemma url_symbol_not_dot (i : N) : Ascii.eqb (Base64.url_symbol i) Str.dot = false.
Proof.
  apply Ascii.eqb_neq.
  unfold Base64.url_symbol, Base64.symbol, Str.dot.
  repeat case_match; try discriminate;
    repeat match goal with
           | H : (_ <? _)%N = true |- _ => apply N.ltb_lt in H
           | H : (_ <? _)%N = false |- _ => apply N.ltb_ge in H
           end;
    apply ascii_of_N_ne; lia.
Qed.

Lemma base64url_no_dot (s : string) : Str.mem Str.dot (Base64.base64url s) = false.
Proof.
  unfold Base64.base64url.
  induction s as [| a | a b | a b c s IH] using string_ind3;
    cbn [Base64.encode Str.mem]; rewrite ?url_symbol_not_dot; auto.
Qed.

Lemma split_no_dot (a : string) :
  Str.mem Str.dot a = false -> Str.split Str.dot a = [a].
Proof.
  induction a as [|c a IH]; cbn [Str.mem Str.split]; [reflexivity|].
  intros [Hc Ha]%orb_false_iff. rewrite Hc, (IH Ha). reflexivity.
Qed.

Lemma split_app_dot (a rest : string) :
  Str.mem Str.dot a = false ->
  Str.split Str.dot (a +:+ String Str.dot rest) = a :: Str.split Str.dot rest.
Proof.
  induction a as [|c a IH]; simpl.
  - intros _. reflexivity.
  - intros [Hc Ha]%orb_false_iff. rewrite Hc, (IH Ha). reflexivity.
Qed.

Lemma std_value_symbol (i : N) :
  (i < 64)%N -> Base64.std_value (Base64.std_symbol i) = Some i.
Proof.
  intros Hi. rewrite <- (N2Nat.id i) in *.
  assert (Hn : (N.to_nat i < 64)%nat) by lia.
  generalize dependent (N.to_nat i). clear i. intros n _ Hn.
  do 64 (destruct n as [|n]; [reflexivity|]). lia.
Qed.

Lemma whitespace_is_no_symbol (c : ascii) :
  Base64.is_ascii_whitespace c = true -> Base64.std_value c = None.
Proof. destruct c as [[] [] [] [] [] [] [] []]; vm_compute; congruence. Qed.

Lemma padding_is_no_symbol : Base64.std_value "="%char = None.
Proof. reflexivity. Qed.

Lemma values_Forall (cs : list ascii) (vs : list N) :
  Base64.values cs = Some vs ->
  Forall (fun c => is_Some (Base64.std_value c)) cs /\ List.length cs = List.length vs.
Proof.
  revert vs. induction cs as [|c cs IH]; intros vs; cbn.
  - intros [= <-]. split; [constructor|reflexivity].
  - destruct (Base64.std_value c) as [v|] eqn:Hc; [|discriminate].
    destruct (Base64.values cs) as [vs'|]; [|discriminate].
    intros [= <-]. destruct (IH vs' eq_refl) as [Hall Hlen].
    split; [constructor; [by eexists|exact Hall]|]. cbn. by rewrite Hlen.
Qed.

Lemma strip_whitespace_symbols (cs : list ascii) :
  Forall (fun c => is_Some (Base64.std_value c)) cs ->
  Base64.strip_whitespace cs = cs.
Proof.
  unfold Base64.strip_whitespace.
  induction 1 as [|c cs [v Hc] _ IH]; cbn; [reflexivity|].
  destruct (Base64.is_ascii_whitespace c) eqn:Hw.
  - apply whitespace_is_no_symbol in Hw. congruence.
  - cbn. by rewrite IH.
Qed.

Lemma strip_padding_symbols (cs : list ascii) :
  Forall (fun c => is_Some (Base64.std_value c)) cs ->
  Base64.strip_padding cs = cs.
Proof.
  intros Hall. unfold Base64.strip_padding.
  destruct (_ =? _)%N; [|reflexivity].
  destruct (List.rev cs) as [|c r] eqn:Hrev; [reflexivity|].
  destruct (Ascii.eqb c "=") eqn:Hc; [|reflexivity].
  apply Ascii.eqb_eq in Hc as ->.
  rewrite Forall_forall in Hall.
  destruct (Hall "="%char) as [v Hv]; [|discriminate].
  apply list_elem_of_In, in_rev. rewrite Hrev. by left.
Qed.

Lemma decode_group_N (x y z : N) :
  (x < 256 -> y < 256 -> z < 256 ->
   x / 4 * 4 + (x mod 4 * 16 + y / 16) / 16 = x /\
   (x mod 4 * 16 + y / 16) mod 16 * 16 + (y mod 16 * 4 + z / 64) / 4 = y /\
   (y mod 16 * 4 + z / 64) mod 4 * 64 + z mod 64 = z)%N.
Proof.
  intros. repeat split; zify; Z.to_euclidean_division_equations; lia.
Qed.

Lemma index_bounds (x y z : N) :
  (x < 256 -> y < 256 -> z < 256 ->
   x / 4 < 64 /\ x mod 4 * 16 + y / 16 < 64 /\ y mod 16 * 4 + z / 64 < 64 /\
   z mod 64 < 64 /\ x mod 4 * 16 < 64 /\ y mod 16 * 4 < 64)%N.
Proof.
  intros. repeat split; zify; Z.to_euclidean_division_equations; lia.
Qed.

Lemma tail_groups (x y : N) :
  (x < 256 -> y < 256 ->
   x / 4 * 4 + (x mod 4 * 16) / 16 = x /\
   x / 4 * 4 + (x mod 4 * 16 + y / 16) / 16 = x /\
   (x mod 4 * 16 + y / 16) mod 16 * 16 + (y mod 16 * 4) / 4 = y)%N.
Proof.
  intros. repeat split; zify; Z.to_euclidean_division_equations; lia.
Qed.

(** The symbols of an encoding are the values of the bytes that it
    encodes, and never leave one symbol over. *)
Lemma values_encode (s : string) :
  exists vs,
    Base64.values (list_ascii_of_string (Base64.encode Base64.std_symbol s)) = Some vs /\
    Base64.bytes_of_values vs = list_ascii_of_string s /\
    (N.of_nat (List.length vs) mod 4 <> 1)%N.
Proof.
  induction s as [| a | a b | a b c s (vs & Hvs & Hbytes & Hlen)] using string_ind3.
  - exists []. repeat split. discriminate.
  - pose proof (N_ascii_bounded a) as Ha.
    destruct (index_bounds _ 0 0 Ha) as (H1 & _ & _ & _ & H2 & _); [lia..|].
    destruct (tail_groups _ 0 Ha) as (E & _); [lia|].
    eexists. cbn [Base64.encode list_ascii_of_string Base64.values].
    rewrite !std_value_symbol by assumption. split; [reflexivity|].
    cbn [Base64.bytes_of_values]. rewrite E, ascii_N_embedding.
    split; [reflexivity|discriminate].
  - pose proof (N_ascii_bounded a) as Ha. pose proof (N_ascii_bounded b) as Hb.
    destruct (index_bounds _ _ 0 Ha Hb) as (H1 & H2 & _ & _ & _ & H3); [lia|].
    destruct (tail_groups _ _ Ha Hb) as (_ & E1 & E2).
    eexists. cbn [Base64.encode list_ascii_of_string Base64.values].
    rewrite !std_value_symbol by assumption. split; [reflexivity|].
    cbn [Base64.bytes_of_values]. rewrite E1, E2, !ascii_N_embedding.
    split; [reflexivity|discriminate].
  - pose proof (N_ascii_bounded a) as Ha. pose proof (N_ascii_bounded b) as Hb.
    pose proof (N_ascii_bounded c) as Hc.
    destruct (index_bounds _ _ _ Ha Hb Hc) as (H1 & H2 & H3 & H4 & _ & _).
    destruct (decode_group_N _ _ _ Ha Hb Hc) as (E1 & E2 & E3).
    eexists. cbn [Base64.encode list_ascii_of_string Base64.values].
    rewrite !std_value_symbol by assumption. rewrite Hvs. split; [reflexivity|].
    cbn [Base64.bytes_of_values]. rewrite E1, E2, E3, !ascii_N_embedding, Hbytes.
    split; [reflexivity|].
    cbn [List.length]. intros E. apply Hlen. rewrite <- E.
    replace (N.of_nat (S (S (S (S (List.length vs))))))
      with (N.of_nat (List.length vs) + 1 * 4)%N by lia.
    by rewrite N.Div0.mod_add.
Qed.

(** Decoding an unpadded encoding in the standard alphabet gives the
    bytes back. *)
Lemma forgiving_decode_encode (s : string) :
  Base64.forgiving_decode (Base64.encode Base64.std_symbol s) =
    Some (list_ascii_of_string s).
Proof.
  destruct (values_encode s) as (vs & Hvs & Hbytes & Hlen).
  destruct (values_Forall _ _ Hvs) as [Hall Hl].
  unfold Base64.forgiving_decode.
  rewrite (strip_whitespace_symbols _ Hall), (strip_padding_symbols _ Hall).
  rewrite Hl, (proj2 (N.eqb_neq _ _) Hlen), Hvs, Hbytes. reflexivity.
Qed.

Lemma url_symbol_cases (i : N) :
  Base64.url_symbol i = Base64.std_symbol i \/
  Base64.url_symbol i = "-"%char \/ Base64.url_symbol i = "_"%char.
Proof.
  unfold Base64.url_symbol, Base64.std_symbol, Base64.symbol.
  repeat case_match; auto.
Qed.

Lemma url_symbol_std (i : N) (rest : string) :
  Str.mem "-" (String (Base64.url_symbol i) rest) = false ->
  Str.mem "_" (String (Base64.url_symbol i) rest) = false ->
  Base64.url_symbol i = Base64.std_symbol i /\
  Str.mem "-" rest = false /\ Str.mem "_" rest = false.
Proof.
  cbn [Str.mem]. intros [H1 H1']%orb_false_iff [H2 H2']%orb_false_iff.
  apply Ascii.eqb_neq in H1, H2.
  destruct (url_symbol_cases i) as [E|[E|E]]; [auto|contradiction..].
Qed.

(** An encoding in the URL-safe alphabet that uses neither [-] nor [_]
    is the encoding in the standard alphabet. *)
Lemma base64url_standard (s : string) :
  Str.mem "-" (Base64.base64url s) = false ->
  Str.mem "_" (Base64.base64url s) = false ->
  Base64.base64url s = Base64.encode Base64.std_symbol s.
Proof.
  unfold Base64.base64url.
  induction s as [| a | a b | a b c s IH] using string_ind3;
    cbn [Base64.encode]; [reflexivity|..]; intros H1 H2;
    repeat match goal with
           | H1 : Str.mem "-" (String (Base64.url_symbol ?i) ?r) = false,
             H2 : Str.mem "_" (String (Base64.url_symbol ?i) ?r) = false |- _ =>
               destruct (url_symbol_std i r H1 H2) as (-> & ? & ?); clear H1 H2
           end;
    rewrite ?IH by assumption; reflexivity.
Qed.

Lemma utf8_of_latin1_ascii (s : string) :
  Spec.is_ascii s = true ->
  string_of_list_ascii (flat_map Base64.utf8_of_latin1 (list_ascii_of_string s)) = s.
Proof.
  unfold Spec.is_ascii. induction s as [|c s IH]; cbn; [reflexivity|].
  intros [Hc Hs]%andb_true_iff. unfold Base64.utf8_of_latin1 at 1.
  rewrite Hc. cbn. by rewrite IH.
Qed.

(** [atob] undoes [base64url] on ASCII text whose encoding uses neither
    [-] nor [_]. *)
Lemma atob_base64url (s : string) :
  Spec.is_ascii s = true ->
  Str.mem "-" (Base64.base64url s) = false ->
  Str.mem "_" (Base64.base64url s) = false ->
  Base64.atob (Base64.base64url s) = Some s.
Proof.
  intros Ha H1 H2. unfold Base64.atob.
  rewrite (base64url_standard s H1 H2), forgiving_decode_encode.
  by rewrite utf8_of_latin1_ascii.
Qed.

Lemma mem_In (c : ascii) (s : string) :
  Str.mem c s = true <-> In c (list_ascii_of_string s).
Proof.
  induction s as [|d s IH]; cbn; [split; [discriminate|tauto]|].
  rewrite orb_true_iff, Ascii.eqb_eq, IH. tauto.
Qed.

Lemma values_None (c : ascii) (cs : list ascii) :
  In c cs -> Base64.std_value c = None -> Base64.values cs = None.
Proof.
  induction cs as [|d cs IH]; cbn; [tauto|].
  intros [->|Hin] Hc; [by rewrite Hc|].
  rewrite (IH Hin Hc). by destruct (Base64.std_value d).
Qed.

Lemma strip_padding_keeps (c : ascii) (cs : list ascii) :
  In c cs -> c <> "="%char -> In c (Base64.strip_padding cs).
Proof.
  intros Hin Hc. unfold Base64.strip_padding.
  destruct (_ =? _)%N; [|exact Hin].
  pose proof Hin as Hrev. apply in_rev in Hrev.
  destruct (List.rev cs) as [|c1 r1]; [destruct Hrev|].
  destruct (Ascii.eqb c1 "=") eqn:H1; [|exact Hin].
  apply Ascii.eqb_eq in H1 as ->.
  destruct Hrev as [E|Hrev]; [congruence|].
  destruct r1 as [|c2 r2]; [destruct Hrev|].
  destruct (Ascii.eqb c2 "=") eqn:H2; [|by apply in_rev in Hrev].
  apply Ascii.eqb_eq in H2 as ->.
  destruct Hrev as [E|Hrev]; [congruence|]. by apply in_rev in Hrev.
Qed.

(** [atob] throws on every string that contains [-] or [_]. *)
Lemma atob_rejects_url_safe (c : ascii) (s : string) :
  c = "-"%char \/ c = "_"%char -> Str.mem c s = true -> Base64.atob s = None.
Proof.
  intros Hc Hmem. apply mem_In in Hmem.
  unfold Base64.atob, Base64.forgiving_decode.
  set (cs := Base64.strip_padding _).
  assert (Hin : In c cs).
  { apply strip_padding_keeps; [|destruct Hc as [->| ->]; discriminate].
    unfold Base64.strip_whitespace. apply filter_In. split; [exact Hmem|].
    destruct Hc as [->| ->]; reflexivity. }
  rewrite (values_None c cs Hin) by (destruct Hc as [->| ->]; reflexivity).
  by destruct (_ =? _)%N.
Qed.

(** Every token that [generateSessionToken] returns has exactly three
    segments: the header, the base64url payload and the signature. *)
Lemma generated_token_segments `{Platform} (cfg : Config) (m : Mint)
    (country workerId : string) (info : SessionInfo) :
  Token.generateSessionToken cfg m country workerId = Returned info ->
  exists signature,
    Str.split Str.dot (token info) =
      [Token.header;
       Base64.base64url (JS.JSON_stringify (Token.json_of_payload (payload info)));
       signature].
Proof.
  unfold Token.generateSessionToken.
  destruct (entropy m) as [e|uuid secretHex]; [discriminate|].
  intros [= <-]. cbn [token payload].
  eexists.
  assert (E : forall x, ("." +:+ x)%string = String Str.dot x) by reflexivity.
  rewrite !E.
  rewrite split_app_dot by apply base64url_no_dot.
  rewrite split_app_dot by apply base64url_no_dot.
  rewrite split_no_dot by apply base64url_no_dot.
  reflexivity.
Qed.

Lemma generated_token_truthy `{Platform} (cfg : Config) (m : Mint)
    (country workerId : string) (info : SessionInfo) :
  Token.generateSessionToken cfg m country workerId = Returned info ->
  Str.truthy (token info) = true.
Proof.
  unfold Token.generateSessionToken.
  destruct (entropy m); [discriminate|]. intros [= <-]. reflexivity.
Qed.

(** ** Session tokens *)

Lemma length_three {A : Type} (l : list A) :
  (List.length l =? 3)%nat = true -> exists a b c, l = [a; b; c].
Proof.
  destruct l as [|a [|b [|c [|d l]]]]; try discriminate. eauto.
Qed.

Lemma length_not_three {A : Type} (l : list A) :
  (List.length l =? 3)%nat = false ->
  match l with [_; _; _] => False | _ => True end.
Proof.
  destruct l as [|a [|b [|c [|d l]]]]; try discriminate; auto.
Qed.

(** The shared body of the relays' [validateToken] answers as
    [Spec.answers] says, whatever the base64 decoder. *)
Lemma validate_with_answers `{Platform} (decode : string -> option string)
    (now : Z) (token sessionId : string) :
  Spec.answers decode now token sessionId
    (Token.validate_with decode now token sessionId).
Proof.
  unfold Token.validate_with, Spec.answers, Spec.wire_payload.
  destruct (Str.truthy token); cbn [negb]; [|by left].
  destruct (List.length (Str.split Str.dot token) =? 3)%nat eqn:Hlen; cbn [negb].
  2:{ left. apply length_not_three in Hlen.
      destruct (Str.split Str.dot token) as [|a [|b [|c [|d l]]]]; done. }
  apply length_three in Hlen as (a & b & c & ->). cbn [nth].
  destruct (decode b) as [text|]; [|by left].
  destruct (JSON_parse text) as [p|]; [|by left].
  unfold Spec.is_expired, Spec.session_differs, Spec.field.
  destruct p; cbn [JS.get]; try (by right; left);
    repeat case_match; simplify_eq;
    lazymatch goal with
    | |- _ /\ _ => repeat split; cbn [JS.get] in *; by simplify_eq
    | |- _ \/ _ =>
        right; right; eexists; (split; [reflexivity|]); cbn [JS.get]; auto
    end.
Qed.

(** C7 (as amended).  Both relay variants of [validateToken] answer
    with the one value [false] (here [None]) whenever the token is empty,
    does not have three dot-separated segments, carries a payload that does
    not decode or decodes to [null], has an expiry whose comparison with
    the clock throws (an object or array that cannot be converted to a
    primitive value), has [now > payload.expires], or has
    [payload.sessionId !== sessionId]; no error kind tells these cases
    apart.  Otherwise they return the decoded payload. *)
Theorem validateToken_answers_false_or_the_payload `{Platform}
    (now : Z) (token sessionId : string) :
  Spec.answers Base64.atob now token sessionId
    (Token.validateToken now token sessionId) /\
  Spec.answers (fun segment => Some (Buffer_base64_utf8 segment)) now token sessionId
    (Token.validateToken_express now token sessionId).
Proof.
  split; apply validate_with_answers.
Qed.

(** C7, counterexample.  A token of three segments whose payload decodes
    and whose expiry has passed gets the very answer that a token without
    any dot gets: [false].  Nothing in the answer says [Expired] rather
    than [MalformedToken]. *)
Lemma expired_token_answers_like_malformed :
  let expired := Examples.token_of 1000 "https://pseudovpn-us-backup.deno.dev" in
  (exists p, Spec.wire_payload (H := example_platform) Base64.atob expired = Some p /\
             Spec.is_expired (H := example_platform) 2000000 p = true) /\
  Spec.wire_payload (H := example_platform) Base64.atob "malformed" = None /\
  Token.validateToken (H := example_platform) 2000000 expired Examples.uuid1 = None /\
  Token.validateToken (H := example_platform) 2000000 "malformed" Examples.uuid1 = None.
Proof.
  cbv zeta. split; [eexists; split; vm_compute; reflexivity|].
  repeat split; vm_compute; reflexivity.
Qed.

(** Whenever the payload segment of a minted token contains [-] or [_],
    the Deno relay answers [false], at any time and for any session
    identifier. *)
Lemma validateToken_rejects_url_safe_payload `{Platform} (cfg : Config) (m : Mint)
    (country workerId : string) (info : SessionInfo) (now : Z) (sid : string) :
  Token.generateSessionToken cfg m country workerId = Returned info ->
  (let segment :=
     Base64.base64url (JS.JSON_stringify (Token.json_of_payload (payload info))) in
   Str.mem "-" segment || Str.mem "_" segment = true) ->
  Token.validateToken now (token info) sid = None.
Proof.
  intros Hmint Hseg.
  destruct (generated_token_segments _ _ _ _ _ Hmint) as [signature Hsplit].
  unfold Token.validateToken, Token.validate_with.
  rewrite (generated_token_truthy _ _ _ _ _ Hmint), Hsplit.
  cbn [negb List.length Nat.eqb nth].
  apply orb_true_iff in Hseg as [Hseg|Hseg].
  - by rewrite (atob_rejects_url_safe "-" _ (or_introl eq_refl) Hseg).
  - by rewrite (atob_rejects_url_safe "_" _ (or_intror eq_refl) Hseg).
Qed.

(** When the payload text is ASCII and its segment uses neither [-] nor
    [_], the Deno relay returns the payload of a minted token up to its
    expiry, provided [JSON.parse] reads back what [JSON.stringify] wrote. *)
Lemma validateToken_accepts_standard_payload `{Platform} (cfg : Config) (m : Mint)
    (country workerId : string) (info : SessionInfo) (now : Z) :
  Token.generateSessionToken cfg m country workerId = Returned info ->
  let text := JS.JSON_stringify (Token.json_of_payload (payload info)) in
  Spec.is_ascii text = true ->
  Str.mem "-" (Base64.base64url text) = false ->
  Str.mem "_" (Base64.base64url text) = false ->
  JSON_parse text = Some (Token.json_of_payload (payload info)) ->
  now <= expires (payload info) ->
  Token.validateToken now (token info) (sessionId (payload info))
  = Some (Token.json_of_payload (payload info)).
Proof.
  intros Hmint text Hascii H1 H2 Hparse Hnow.
  destruct (generated_token_segments _ _ _ _ _ Hmint) as [signature Hsplit].
  unfold Token.validateToken, Token.validate_with.
  rewrite (generated_token_truthy _ _ _ _ _ Hmint), Hsplit.
  cbn [negb List.length Nat.eqb nth]. fold text.
  rewrite (atob_base64url text Hascii H1 H2), Hparse.
  unfold Token.json_of_payload, JS.gt, JS.strict_ne_string. cbn.
  rewrite (proj2 (Z.ltb_ge _ _) Hnow), String.eqb_refl. reflexivity.
Qed.

(** C6, at the failing input.  The token that the client mints for region
    [US] and the endpoint [https://w2.example/~vpn] is rejected by the
    Deno relay's [validateToken] at every time and whatever [JSON.parse]
    and the HMAC are: the [~] makes the base64url payload contain [-],
    on which [atob] throws. *)
Theorem generated_token_with_tilde_is_rejected (P : Platform) (now : Z) :
  exists info,
    Token.generateSessionToken PseudoVPNClient.default_config (Examples.mint_at 1000)
      "US" "https://w2.example/~vpn" = Returned info /\
    sessionId (payload info) = Examples.uuid1 /\
    Token.validateToken now (token info) (sessionId (payload info)) = None.
Proof.
  eexists. split; [reflexivity|]. split; [reflexivity|].
  match goal with
  | |- Token.validateToken _ (token ?i) _ = _ =>
      destruct (generated_token_segments PseudoVPNClient.default_config
                  (Examples.mint_at 1000) "US" "https://w2.example/~vpn" i eq_refl)
        as [signature Hsplit]
  end.
  unfold Token.validateToken, Token.validate_with.
  rewrite Hsplit. cbn [token payload List.length Nat.eqb negb nth].
  replace (Base64.atob _) with (@None string) by (vm_compute; reflexivity).
  reflexivity.
Qed.

(** The Express relay decodes the same token: its decoder reads the
    URL-safe alphabet. *)
Lemma express_accepts_token_with_tilde :
  Token.validateToken_express (H := example_platform) 2000
    (Examples.token_of 1000 "https://w2.example/~vpn") Examples.uuid1
  = Some (Token.json_of_payload
            {| country := "US"; workerId := "https://w2.example/~vpn";
               sessionId := Examples.uuid1; issued := 1000; expires := 301000 |}).
Proof. vm_compute. reflexivity. Qed.

(** Without [~], [?] or [>] in the wrong place the round trip succeeds. *)
Lemma deno_accepts_token_of_default_worker :
  Token.validateToken (H := example_platform) 2000
    (Examples.token_of 1000 "https://pseudovpn-us-backup.deno.dev") Examples.uuid1
  = Some (Token.json_of_payload
            {| country := "US"; workerId := "https://pseudovpn-us-backup.deno.dev";
               sessionId := Examples.uuid1; issued := 1000; expires := 301000 |}).
Proof. vm_compute. reflexivity. Qed.

(** ** Health probes *)

(** The promise of [healthCheck] stays pending exactly when the head of
    a response arrives within the timeout and the body never ends. *)
Lemma healthCheck_resolves_unless_body_stalls `{Platform}
    (workerUrl : string) (timeout : Z) (net : Reply) :
  Probe.healthCheck workerUrl timeout net = Pending <->
  exists elapsed statusCode,
    net = ResponseHead elapsed statusCode BodyStalls /\ elapsed < timeout.
Proof.
  unfold Probe.healthCheck. split.
  - destruct net as [|elapsed|elapsed statusCode [data|]|e];
      repeat case_match; try discriminate.
    intros _. exists elapsed, statusCode. split; [reflexivity|lia].
  - intros (elapsed & statusCode & -> & Hlt).
    apply Z.ltb_lt in Hlt. rewrite Hlt. reflexivity.
Qed.

(** It is rejected exactly when [https.get] throws. *)
Lemma healthCheck_rejected `{Platform} (workerUrl : string) (timeout : Z) (net : Reply)
    (e : JsError) :
  Probe.healthCheck workerUrl timeout net = Threw e <-> net = RequestThrows e.
Proof.
  unfold Probe.healthCheck. split.
  - destruct net as [|elapsed|elapsed statusCode [data|]|e'];
      repeat case_match; try discriminate. by intros [= ->].
  - by intros ->.
Qed.

(** The statuses of the results that [healthCheck] resolves to. *)
Lemma healthCheck_status `{Platform} (workerUrl : string) (timeout : Z) (net : Reply) :
  match net with
  | NoReply =>
      Probe.healthCheck workerUrl timeout net =
        Returned {| url := workerUrl; status := StTimeout; latency := timeout; data := None |}
  | ConnectionError elapsed =>
      elapsed < timeout ->
      Probe.healthCheck workerUrl timeout net =
        Returned {| url := workerUrl; status := StError; latency := elapsed; data := None |}
  | ResponseHead elapsed statusCode (BodyEnds text) =>
      elapsed < timeout ->
      match JSON_parse text with
      | Some result =>
          Probe.healthCheck workerUrl timeout net =
            Returned {| url := workerUrl;
                    status := if decide (statusCode = 200) then StHealthy else StError;
                    latency := elapsed; data := Some result |}
      | None =>
          Probe.healthCheck workerUrl timeout net =
            Returned {| url := workerUrl; status := StInvalid; latency := elapsed;
                    data := None |}
      end
  | ResponseHead elapsed statusCode BodyStalls => True
  | RequestThrows e => Probe.healthCheck workerUrl timeout net = Threw e
  end.
Proof.
  unfold Probe.healthCheck.
  destruct net as [|elapsed|elapsed statusCode [text|]|e]; auto;
    intros Hlt%Z.ltb_lt; rewrite Hlt; auto.
  destruct (JSON_parse text); auto.
  case_decide as Hs.
  - rewrite Hs. reflexivity.
  - apply Z.eqb_neq in Hs. rewrite Hs. reflexivity.
Qed.

(** Whatever arrives once the timeout has passed finds the promise
    resolved by the timer, with the timeout as latency. *)
Lemma healthCheck_timeout `{Platform} (workerUrl : string) (timeout : Z) (net : Reply) :
  match net with
  | NoReply => True
  | ConnectionError elapsed => timeout <= elapsed
  | ResponseHead elapsed _ _ => timeout <= elapsed
  | RequestThrows _ => False
  end ->
  Probe.healthCheck workerUrl timeout net =
    Returned {| url := workerUrl; status := StTimeout; latency := timeout; data := None |}.
Proof.
  unfold Probe.healthCheck.
  destruct net as [|elapsed|elapsed statusCode body|e]; [reflexivity| | |done];
    intros Hle%Z.ltb_ge; by rewrite Hle.
Qed.

(** C8, at the failing input.  An endpoint sends the head of a 200
    response after 10 ms and then nothing more: the response callback has
    cancelled the timer, ['end'] never fires, and the promise of
    [healthCheck] is never settled. *)
Theorem healthCheck_never_settles_when_body_stalls (P : Platform) (workerUrl : string) :
  Probe.healthCheck workerUrl 5000 (ResponseHead 10 200 BodyStalls) = Pending.
Proof. reflexivity. Qed.

(** ** Endpoint selection *)

(** [sort_by_latency] is a stable sort: it permutes its argument, orders
    it by latency, and keeps results of equal latency in their order. *)
Lemma insert_by_latency_Permutation (a : ProbeResult) (sorted : list ProbeResult) :
  Probe.insert_by_latency a sorted ≡ₚ a :: sorted.
Proof.
  induction sorted as [|b rest IH]; cbn; [reflexivity|].
  destruct (latency a - latency b <=? 0); [reflexivity|].
  rewrite IH. apply Permutation_swap.
Qed.

Lemma sort_by_latency_Permutation (checks : list ProbeResult) :
  Probe.sort_by_latency checks ≡ₚ checks.
Proof.
  induction checks as [|a rest IH]; cbn; [reflexivity|].
  rewrite insert_by_latency_Permutation. by f_equiv.
Qed.

Lemma insert_by_latency_Sorted (a : ProbeResult) (sorted : list ProbeResult) :
  Sorted (fun x y => latency x <= latency y) sorted ->
  Sorted (fun x y => latency x <= latency y) (Probe.insert_by_latency a sorted).
Proof.
  induction 1 as [|b rest Hrest IH Hhd]; cbn; [by repeat constructor|].
  destruct (latency a - latency b <=? 0) eqn:Hle.
  - apply Z.leb_le in Hle. repeat constructor; [exact Hrest|exact Hhd|lia].
  - apply Z.leb_gt in Hle. constructor; [exact IH|].
    destruct Hhd as [|c rest' Hbc]; cbn; [constructor; lia|].
    destruct (latency a - latency c <=? 0); constructor; lia.
Qed.

Lemma sort_by_latency_Sorted (checks : list ProbeResult) :
  Sorted (fun x y => latency x <= latency y) (Probe.sort_by_latency checks).
Proof.
  induction checks as [|a rest IH]; cbn; [constructor|].
  by apply insert_by_latency_Sorted.
Qed.

Lemma insert_by_latency_stable (k : Z) (a : ProbeResult) (sorted : list ProbeResult) :
  List.filter (fun x => latency x =? k) (Probe.insert_by_latency a sorted) =
    List.filter (fun x => latency x =? k) (a :: sorted).
Proof.
  induction sorted as [|b rest IH]; [reflexivity|].
  cbn [Probe.insert_by_latency].
  destruct (latency a - latency b <=? 0) eqn:Hle; [reflexivity|].
  apply Z.leb_gt in Hle. cbn [List.filter] in *. rewrite IH.
  destruct (latency a =? k) eqn:Ha; [|reflexivity].
  apply Z.eqb_eq in Ha. by rewrite (proj2 (Z.eqb_neq (latency b) k)) by lia.
Qed.

Lemma sort_by_latency_stable (k : Z) (checks : list ProbeResult) :
  List.filter (fun x => latency x =? k) (Probe.sort_by_latency checks) =
    List.filter (fun x => latency x =? k) checks.
Proof.
  induction checks as [|a rest IH]; [reflexivity|].
  cbn [Probe.sort_by_latency foldr]. rewrite insert_by_latency_stable.
  cbn [List.filter]. unfold Probe.sort_by_latency in IH. by rewrite IH.
Qed.

Lemma head_insert_by_latency (a : ProbeResult) (sorted : list ProbeResult) :
  head (Probe.insert_by_latency a sorted) =
    match head sorted with
    | None => Some a
    | Some b => if latency a - latency b <=? 0 then Some a else Some b
    end.
Proof.
  destruct sorted as [|b rest]; cbn; [reflexivity|].
  destruct (latency a - latency b <=? 0); reflexivity.
Qed.

(** The head of the sorted healthy results is the earliest healthy result
    of lowest latency. *)
Lemma head_sorted_healthy (checks : list ProbeResult) :
  head (Probe.sort_by_latency (List.filter Probe.is_healthy checks)) =
    Spec.first_best checks.
Proof.
  induction checks as [|check rest IH]; cbn [List.filter Spec.first_best]; [reflexivity|].
  destruct (Probe.is_healthy check); [|exact IH].
  unfold Probe.sort_by_latency in *. cbn [foldr].
  rewrite head_insert_by_latency, IH. reflexivity.
Qed.

Lemma is_healthy_status (check : ProbeResult) :
  Probe.is_healthy check = true <-> status check = StHealthy.
Proof. unfold Probe.is_healthy. destruct (status check); split; congruence. Qed.

Lemma first_best_None (checks : list ProbeResult) :
  Spec.first_best checks = None <->
  Forall (fun check => status check <> StHealthy) checks.
Proof.
  induction checks as [|check rest IH]; cbn [Spec.first_best].
  - split; [constructor|reflexivity].
  - destruct (Probe.is_healthy check) eqn:Hh.
    + split.
      * repeat case_match; discriminate.
      * intros Hall. apply Forall_cons in Hall as [Hc _].
        apply is_healthy_status in Hh. contradiction.
    + rewrite IH, Forall_cons. split; [|tauto].
      intros Hall. split; [|exact Hall].
      intros Hs%is_healthy_status. congruence.
Qed.

Lemma first_best_is_best (checks : list ProbeResult) (best : ProbeResult) :
  Spec.first_best checks = Some best -> exists i, Spec.is_best checks i best.
Proof.
  revert best. induction checks as [|check rest IH]; intros best; cbn [Spec.first_best];
    [discriminate|].
  destruct (Probe.is_healthy check) eqn:Hh.
  - destruct (Spec.first_best rest) as [m|] eqn:Hrest.
    + destruct (IH m eq_refl) as (i & Hi & Hm & Hmin).
      destruct (latency check - latency m <=? 0) eqn:Hle; intros [= <-].
      * apply Z.leb_le in Hle. exists 0%nat.
        split; [reflexivity|]. split; [by apply is_healthy_status|].
        intros [|j] other Hj Ho; [injection Hj as <-; split; [lia|intros; lia]|].
        destruct (Hmin j other Hj Ho) as [Hlow _]. split; [lia|intros; lia].
      * apply Z.leb_gt in Hle. exists (S i).
        split; [exact Hi|]. split; [exact Hm|].
        intros [|j] other Hj Ho; [injection Hj as <-; split; lia|].
        destruct (Hmin j other Hj Ho) as [Hlow Htie]. split; [lia|].
        intros E. specialize (Htie E). lia.
    + intros [= <-]. exists 0%nat.
      split; [reflexivity|]. split; [by apply is_healthy_status|].
      intros [|j] other Hj Ho; [injection Hj as <-; split; [lia|intros; lia]|].
      apply first_best_None in Hrest.
      rewrite Forall_lookup in Hrest. cbn in Hj.
      destruct (Hrest j other Hj Ho).
  - intros Hbest. destruct (IH best Hbest) as (i & Hi & Hm & Hmin).
    exists (S i). split; [exact Hi|]. split; [exact Hm|].
    intros [|j] other Hj Ho.
    + injection Hj as <-. apply is_healthy_status in Ho. congruence.
    + destruct (Hmin j other Hj Ho) as [Hlow Htie]. split; [lia|].
      intros E. specialize (Htie E). lia.
Qed.

Lemma fulfilled_lookup {A : Type} (promises : list (Outcome A)) (results : list A) :
  Probe.fulfilled promises = Some results ->
  forall i, promises !! i = Returned <$> (results !! i).
Proof.
  revert results. induction promises as [|p rest IH]; intros results; cbn.
  - intros [= <-] i. reflexivity.
  - destruct p as [a|e|]; [|discriminate..].
    destruct (Probe.fulfilled rest) as [l|]; [|discriminate].
    intros [= <-] [|i]; [reflexivity|]. cbn. apply IH. reflexivity.
Qed.

Lemma Promise_all_fulfilled {A : Type} (promises : list (Outcome A)) (results : list A) :
  Probe.Promise_all promises = Returned results ->
  Probe.fulfilled promises = Some results.
Proof.
  unfold Probe.Promise_all. destruct (Probe.first_rejection promises); [discriminate|].
  destruct (Probe.fulfilled promises); [|discriminate]. by intros [= ->].
Qed.

Lemma Promise_all_lookup {A : Type} (promises : list (Outcome A)) (results : list A) :
  Probe.Promise_all promises = Returned results ->
  forall i, promises !! i = Returned <$> (results !! i).
Proof. intros Hall. by apply fulfilled_lookup, Promise_all_fulfilled. Qed.

Lemma healthCheck_url `{Platform} (workerUrl : string) (timeout : Z) (net : Reply)
    (check : ProbeResult) :
  Probe.healthCheck workerUrl timeout net = Returned check -> url check = workerUrl.
Proof.
  unfold Probe.healthCheck. repeat case_match; try discriminate; by intros [= <-].
Qed.

(** The results of [Promise.all] stand in the order of the configured
    endpoints. *)
Lemma probeAll_lookup `{Platform} (net : nat -> Reply) (workers : list string)
    (checks : list ProbeResult) (i : nat) (check : ProbeResult) :
  Probe.Promise_all (PseudoVPNClient.probeAll net workers) = Returned checks ->
  checks !! i = Some check ->
  workers !! i = Some (url check) /\
  Probe.healthCheck (url check) PseudoVPNClient.default_timeout (net i) = Returned check.
Proof.
  intros Hall Hi. apply Promise_all_lookup with (i := i) in Hall.
  rewrite Hi in Hall. unfold PseudoVPNClient.probeAll in Hall.
  rewrite list_lookup_imap in Hall.
  destruct (workers !! i) as [worker|]; [|discriminate].
  injection Hall as Hcheck.
  pose proof (healthCheck_url _ _ _ _ Hcheck) as <-. auto.
Qed.

Lemma Promise_all_settles {A : Type} (promises : list (Outcome A)) :
  Forall (fun p => exists a, p = Returned a) promises ->
  exists results, Probe.Promise_all promises = Returned results.
Proof.
  unfold Probe.Promise_all.
  induction 1 as [|p rest [a ->] _ [results IH]]; cbn; [by eexists|].
  destruct (Probe.first_rejection rest); [discriminate|].
  destruct (Probe.fulfilled rest); [|discriminate]. by eexists.
Qed.

(** [Promise.all] over the probes of a region is fulfilled unless
    [https.get] refuses an address or some endpoint sends the head of a
    response in time and then stalls. *)
Lemma probeAll_settles `{Platform} (net : nat -> Reply) (workers : list string) :
  (forall i e, net i <> RequestThrows e) ->
  (forall i elapsed statusCode,
      net i = ResponseHead elapsed statusCode BodyStalls ->
      PseudoVPNClient.default_timeout <= elapsed) ->
  exists checks,
    Probe.Promise_all (PseudoVPNClient.probeAll net workers) = Returned checks.
Proof.
  intros Hsent Hnet. apply Promise_all_settles, Forall_lookup.
  intros i p Hi. unfold PseudoVPNClient.probeAll in Hi.
  rewrite list_lookup_imap in Hi.
  destruct (workers !! i) as [worker|]; [|discriminate]. injection Hi as <-.
  destruct (Probe.healthCheck worker _ (net i)) as [check|e|] eqn:Hcheck; [by eexists|..].
  - apply healthCheck_rejected in Hcheck. by destruct (Hsent i e).
  - apply healthCheck_resolves_unless_body_stalls in Hcheck
      as (elapsed & statusCode & Hi & Hlt).
    specialize (Hnet _ _ _ Hi). lia.
Qed.

(** A health request goes out to every endpoint unless [https.get]
    refuses an address. *)
Lemma requested_all `{Platform} (net : nat -> Reply) (workers : list string) :
  Probe.first_rejection (PseudoVPNClient.probeAll net workers) = None ->
  PseudoVPNClient.requested net workers = workers.
Proof.
  revert net. induction workers as [|worker rest IH]; intros net; [reflexivity|].
  unfold PseudoVPNClient.probeAll. cbn [imap Probe.first_rejection PseudoVPNClient.requested].
  destruct (net 0%nat) as [|elapsed|elapsed statusCode body|e] eqn:Hnet;
    [| | |by intros].
  - cbn. intros Hrest. f_equal. by apply IH.
  - unfold Probe.healthCheck at 1.
    destruct (elapsed <? _); intros Hrest; f_equal; by apply IH.
  - unfold Probe.healthCheck at 1.
    destruct (elapsed <? _); [destruct body as [text|]; [destruct (JSON_parse text)|]|];
      intros Hrest; f_equal; by apply IH.
Qed.

Lemma requested_fulfilled `{Platform} (net : nat -> Reply) (workers : list string)
    (checks : list ProbeResult) :
  Probe.Promise_all (PseudoVPNClient.probeAll net workers) = Returned checks ->
  PseudoVPNClient.requested net workers = workers.
Proof.
  intros Hall. apply requested_all. revert Hall. unfold Probe.Promise_all.
  by destruct (Probe.first_rejection _).
Qed.

(** What [getBestWorker] does for a configured region. *)
Lemma getBestWorker_configured `{Platform} (net : nat -> Reply) (country : string)
    (w : World) (region : Region) :
  regions (config (this w)) !! country = Some region ->
  PseudoVPNClient.getBestWorker net country w =
    (match Probe.Promise_all (PseudoVPNClient.probeAll net (workers region)) with
     | Pending => Pending
     | Threw e => Threw e
     | Returned checks =>
         match Spec.first_best checks with
         | None => Threw (PseudoVPNClient.no_healthy_workers country)
         | Some best => Returned best
         end
     end,
     M.logged (List.map HealthRequest (PseudoVPNClient.requested net (workers region))) w).
Proof.
  intros Hregion.
  unfold PseudoVPNClient.getBestWorker, PseudoVPNClient.regions_get, M.bind, M.read,
    M.emit, M.lift.
  rewrite Hregion.
  destruct (Probe.Promise_all _) as [checks|e|]; [|reflexivity..].
  unfold M.ret. rewrite <- head_sorted_healthy.
  destruct (Probe.sort_by_latency _); reflexivity.
Qed.

(** For a configured region whose probes have all resolved, at least one
    of them healthy, [getBestWorker] returns the healthy result of lowest
    latency; among healthy results of equal latency it returns the one
    whose endpoint comes first in the region's list. *)
Lemma getBestWorker_returns_lowest_latency_healthy `{Platform}
    (w : World) (net : nat -> Reply) (country : string) (region : Region)
    (checks : list ProbeResult) :
  regions (config (this w)) !! country = Some region ->
  Probe.Promise_all (PseudoVPNClient.probeAll net (workers region)) = Returned checks ->
  (exists check, check ∈ checks /\ status check = StHealthy) ->
  exists (i : nat) (best : ProbeResult),
    (PseudoVPNClient.getBestWorker net country w).1 = Returned best /\
    workers region !! i = Some (url best) /\
    Spec.is_best checks i best.
Proof.
  intros Hregion Hall (check & Hin & Hcheck).
  rewrite (getBestWorker_configured _ _ _ _ Hregion), Hall. cbn [fst].
  destruct (Spec.first_best checks) as [best|] eqn:Hbest.
  - destruct (first_best_is_best _ _ Hbest) as (i & Hi).
    exists i, best. split; [reflexivity|]. split; [|exact Hi].
    destruct Hi as (Hi & _). by destruct (probeAll_lookup _ _ _ _ _ Hall Hi).
  - apply first_best_None in Hbest. rewrite Forall_forall in Hbest.
    destruct (Hbest check Hin Hcheck).
Qed.

(** On the scenario of the specification, where [w1] gives no sign of
    life, [w2] is healthy in 40 ms and [w3] in 120 ms, [w2] is selected. *)
Lemma getBestWorker_selects_w2 :
  (exists (i : nat) (best : ProbeResult),
      (PseudoVPNClient.getBestWorker (H := example_platform) Examples.w1_times_out "US"
         (PseudoVPNClient.new (Examples.three_workers 300 60))).1 = Returned best /\
      workers {| name := "United States";
                 workers := ["https://w1.example"; "https://w2.example";
                             "https://w3.example"] |} !! i = Some (url best) /\
      Spec.is_best
        [ {| url := "https://w1.example"; status := StTimeout; latency := 5000;
             data := None |};
          Examples.w2_result;
          {| url := "https://w3.example"; status := StHealthy; latency := 120;
             data := Some (JObj []) |} ] i best) /\
  (PseudoVPNClient.getBestWorker (H := example_platform) Examples.w1_times_out "US"
     (PseudoVPNClient.new (Examples.three_workers 300 60))).1
  = Returned Examples.w2_result.
Proof.
  split.
  - apply (getBestWorker_returns_lowest_latency_healthy (H := example_platform)).
    + reflexivity.
    + reflexivity.
    + exists Examples.w2_result. split; [|reflexivity].
      apply list_elem_of_lookup. exists 1%nat. reflexivity.
  - reflexivity.
Defined.

(** An address that [https.get] refuses makes [getBestWorker] throw
    what [https.get] has thrown, whatever the other endpoints do. *)
Lemma getBestWorker_rejected `{Platform} (net : nat -> Reply) (country : string)
    (w : World) (region : Region) (e : JsError) :
  regions (config (this w)) !! country = Some region ->
  Probe.first_rejection (PseudoVPNClient.probeAll net (workers region)) = Some e ->
  (PseudoVPNClient.getBestWorker net country w).1 = Threw e.
Proof.
  intros Hregion Hrejected.
  rewrite (getBestWorker_configured _ _ _ _ Hregion).
  unfold Probe.Promise_all. by rewrite Hrejected.
Qed.

(** C1, at the failing input.  Region [US] has the endpoints [w1], [w2]
    and [w3]; [w1] sends the head of a 200 response after 10 ms and never
    ends the body, [w2] is healthy in 40 ms and [w3] in 120 ms.  The
    probe of [w2] resolves to a healthy result with latency 40, the
    lowest, and yet [getBestWorker] does not return it: [Promise.all]
    waits for the probe of [w1], whose promise is never settled, and the
    call never returns. *)
Theorem getBestWorker_waits_for_a_stalled_endpoint :
  let w := PseudoVPNClient.new (Examples.three_workers 300 60) in
  Probe.healthCheck (H := example_platform) "https://w1.example"
    PseudoVPNClient.default_timeout (Examples.w1_stalls 0) = Pending /\
  Probe.healthCheck (H := example_platform) "https://w2.example"
    PseudoVPNClient.default_timeout (Examples.w1_stalls 1) = Returned Examples.w2_result /\
  status Examples.w2_result = StHealthy /\
  PseudoVPNClient.getBestWorker (H := example_platform) Examples.w1_stalls "US" w
  = (Pending,
     M.logged (List.map HealthRequest
                 ["https://w1.example"; "https://w2.example"; "https://w3.example"]) w).
Proof. cbv zeta. repeat split. Qed.

(** ** The client, step by step *)

Import PseudoVPNClient.
Import Spec.

(** The world in which [scheduleTokenRefresh] leaves the refresh timer. *)
Lemma scheduleTokenRefresh_run (now : Z) (w : World) :
  scheduleTokenRefresh now w =
    (Returned tt,
     let w1 := match tokenRefreshTimeout (this w) with
               | Some h => cancelled h w
               | None => w
               end in
     let refreshTime :=
       number_of (tokenExpiry (this w)) - now
       - refreshBuffer (auth (config (this w))) * 1000 in
     if 0 <? refreshTime then armed now refreshTime w1 else w1).
Proof.
  unfold scheduleTokenRefresh, M.bind, M.read, clearTimeout, setTimeout, M.ret.
  destruct (tokenRefreshTimeout (this w)); cbn; case_match; reflexivity.
Qed.

(** What [getBestWorker] leaves behind: health requests and nothing else. *)
Lemma getBestWorker_effect `{Platform} (net : nat -> Reply) (country : string)
    (w w' : World) (o : Outcome ProbeResult) :
  getBestWorker net country w = (o, w') ->
  exists endpoints, w' = M.logged (List.map HealthRequest endpoints) w.
Proof.
  unfold getBestWorker, M.bind, M.read, M.emit, M.lift, M.throw, M.ret, M.pending.
  repeat case_match; intros; simplify_eq; try (by eexists);
    exists [];
    match goal with |- ?x = _ => destruct x end;
    unfold M.logged; cbn; by rewrite app_nil_r.
Qed.

(** [connect], stage by stage. *)
Lemma connect_unfold `{Platform} (env : ConnectEnv) (country : string) (w : World) :
  connect env country w =
    match getBestWorker (probeReply env) country (M.logged [Connecting country] w) with
    | (Pending, w1) => (Pending, w1)
    | (Threw e, w1) => (Threw e, M.logged [ConsoleError e] w1)
    | (Returned worker, w1) =>
        match Token.generateSessionToken (config (this w1)) (mint env) country
                (url worker) with
        | Pending => (Pending, w1)
        | Threw e => (Threw e, M.logged [ConsoleError e] w1)
        | Returned info =>
            let w2 := handshaking worker info w1 in
            match handshakeOutcome (handshakeReply env) with
            | Pending => (Pending, w2)
            | Threw e => (Threw e, M.logged [ConsoleError e] w2)
            | Returned result =>
                let w3 :=
                  M.updated (set_currentSession (Some (committed env country worker info)))
                    w2 in
                match log_error result with
                | Some e => (Threw e, M.logged [ConsoleError e] w3)
                | None =>
                    (Returned result, (scheduleTokenRefresh (scheduleNow env) w3).2)
                end
            end
        end
    end.
Proof.
  unfold connect, establishConnection, M.bind, M.try_catch, M.emit, M.read, M.lift,
    M.update, M.throw, M.ret.
  destruct (getBestWorker _ _ _) as [[worker|e|] w1]; try reflexivity.
  destruct (Token.generateSessionToken _ _ _ _) as [info|e|]; try reflexivity.
  cbv beta iota zeta. fold (handshaking worker info w1).
  destruct (handshakeOutcome _) as [result|e|]; try reflexivity.
  destruct (log_error result); try reflexivity.
  cbv beta iota. unfold committed. rewrite !scheduleTokenRefresh_run. reflexivity.
Qed.

Lemma connect_attempts_app (a b : list Event) :
  connect_attempts (a ++ b) = (connect_attempts a + connect_attempts b)%nat.
Proof. unfold connect_attempts. by rewrite List.filter_app, length_app. Qed.

Lemma connect_attempts_health (endpoints : list string) :
  connect_attempts (List.map HealthRequest endpoints) = 0%nat.
Proof. induction endpoints; auto. Qed.

Lemma no_SetTimeout_health (endpoints : list string) (evs : list Event) :
  existsb is_SetTimeout (List.map HealthRequest endpoints ++ evs) =
    existsb is_SetTimeout evs.
Proof. induction endpoints; auto. Qed.

Lemma last_health (endpoints : list string) (evs : list Event) (e : Event) :
  last (List.map HealthRequest endpoints ++ evs ++ [e]) = Some e.
Proof. by rewrite app_assoc, last_snoc. Qed.

(** Whatever its outcome, [connect] announces itself once; when it
    throws, it has armed or cancelled no timer, it has not cleared the
    current session, and the last thing it did was to log the error. *)
Lemma connect_effect `{Platform} (env : ConnectEnv) (country : string)
    (w w' : World) (o : Outcome Json) :
  connect env country w = (o, w') ->
  exists evs,
    trace w' = trace w ++ Connecting country :: evs /\
    connect_attempts evs = 0%nat /\
    forall e, o = Threw e ->
      timers w' = timers w /\
      existsb is_SetTimeout evs = false /\
      (is_Some (currentSession (this w)) -> is_Some (currentSession (this w'))) /\
      last evs = Some (ConsoleError e).
Proof.
  rewrite connect_unfold.
  destruct (getBestWorker _ _ _) as [o1 w1] eqn:Hbest.
  apply getBestWorker_effect in Hbest as [endpoints ->].
  pose proof (connect_attempts_health endpoints) as Hh.
  pose proof (no_SetTimeout_health endpoints) as Hs.
  pose proof (last_health endpoints) as Hl.
  destruct o1 as [worker|e1|]; cbn [M.logged this config trace].
  2:{ intros [= <- <-]. eexists. cbn. rewrite <- !app_assoc. split; [reflexivity|].
      rewrite connect_attempts_app, Hh. split; [reflexivity|].
      intros e [= <-]. rewrite Hs. repeat split; auto; apply (Hl []). }
  2:{ intros [= <- <-]. eexists. cbn. rewrite <- !app_assoc. split; [reflexivity|].
      split; [exact Hh|]. discriminate. }
  destruct (Token.generateSessionToken _ _ _ _) as [info|e1|].
  2:{ intros [= <- <-]. eexists. cbn. rewrite <- !app_assoc. split; [reflexivity|].
      rewrite connect_attempts_app, Hh. split; [reflexivity|].
      intros e [= <-]. rewrite Hs. repeat split; auto; apply (Hl []). }
  2:{ intros [= <- <-]. eexists. cbn. rewrite <- !app_assoc. split; [reflexivity|].
      split; [exact Hh|]. discriminate. }
  cbv zeta. destruct (handshakeOutcome _) as [result|e1|].
  2:{ intros [= <- <-]. eexists. cbn. rewrite <- !app_assoc. split; [reflexivity|].
      rewrite connect_attempts_app, Hh. split; [reflexivity|].
      intros e [= <-]. rewrite Hs. repeat split; auto; apply (Hl [_]). }
  2:{ intros [= <- <-]. eexists. cbn. rewrite <- !app_assoc. split; [reflexivity|].
      rewrite connect_attempts_app, Hh. split; [reflexivity|]. discriminate. }
  destruct (log_error result) as [e1|].
  { intros [= <- <-]. eexists. cbn. rewrite <- !app_assoc. split; [reflexivity|].
    rewrite connect_attempts_app, Hh. split; [reflexivity|].
    intros e [= <-]. rewrite Hs. repeat split; auto; apply (Hl [_]). }
  rewrite scheduleTokenRefresh_run. cbn [snd].
  intros [= <- <-].
  cbn [M.updated handshaking M.logged this trace set_currentSession set_tokenExpiry
         set_sessionToken tokenRefreshTimeout tokenExpiry config].
  destruct (tokenRefreshTimeout (this w)); cbv zeta; case_match;
    cbn; rewrite <- !app_assoc;
    (eexists; split; [reflexivity|]);
    rewrite connect_attempts_app, Hh; (split; [reflexivity|discriminate]).
Qed.

(** ** Failures of [connect] *)

Lemma no_ConnectRequest_health (endpoints : list string) (evs : list Event) :
  existsb is_ConnectRequest (List.map HealthRequest endpoints ++ evs) =
    existsb is_ConnectRequest evs.
Proof. induction endpoints; auto. Qed.

(** For a configured region whose probes have all resolved, none of them
    healthy, [getBestWorker] throws the no-healthy-worker error; the only
    other error it throws for that region is one that [https.get] has
    thrown on an address; [connect] then throws the same error, having
    sent the health requests and no connect request, and leaves the
    client object and the timers as they were. *)
Lemma connect_fails_when_no_worker_is_healthy `{Platform}
    (env : ConnectEnv) (country : string) (w : World) (region : Region)
    (checks : list ProbeResult) :
  regions (config (this w)) !! country = Some region ->
  Probe.Promise_all (probeAll (probeReply env) (workers region)) = Returned checks ->
  Forall (fun check => status check <> StHealthy) checks ->
  (getBestWorker (probeReply env) country w).1 = Threw (no_healthy_workers country) /\
  (forall net e w', getBestWorker net country w = (Threw e, w') ->
                    e = no_healthy_workers country \/
                    Probe.first_rejection (probeAll net (workers region)) = Some e) /\
  exists w' evs,
    connect env country w = (Threw (no_healthy_workers country), w') /\
    this w' = this w /\
    timers w' = timers w /\
    trace w' = trace w ++ evs /\
    evs = Connecting country :: List.map HealthRequest (workers region)
            ++ [ConsoleError (no_healthy_workers country)] /\
    existsb is_ConnectRequest evs = false.
Proof.
  intros Hregion Hall Hnone. apply first_best_None in Hnone.
  split; [|split].
  - rewrite (getBestWorker_configured _ _ _ _ Hregion), Hall, Hnone. reflexivity.
  - intros net e w'. rewrite (getBestWorker_configured _ _ _ _ Hregion).
    unfold Probe.Promise_all.
    destruct (Probe.first_rejection _) as [e'|]; [intros [= <- _]; by right|].
    repeat case_match; intros [= <- _]; try discriminate; by left.
  - rewrite connect_unfold.
    rewrite (getBestWorker_configured _ _ _ region) by exact Hregion.
    rewrite (requested_fulfilled _ _ _ Hall), Hall, Hnone.
    eexists _, _. split; [reflexivity|].
    cbn. rewrite <- !app_assoc. repeat split.
    apply no_ConnectRequest_health.
Qed.

(** On an example: nobody answers in region [US]. *)
Lemma connect_fails_when_nobody_answers :
  (getBestWorker (H := example_platform) Examples.nobody_answers "US"
     (new default_config)).1 = Threw (no_healthy_workers "US") /\
  (forall net e w',
      getBestWorker (H := example_platform) net "US" (new default_config) = (Threw e, w') ->
      e = no_healthy_workers "US" \/
      Probe.first_rejection
        (probeAll (H := example_platform) net
           ["https://pseudovpn-us-east.hakzeemirror.workers.dev";
            "https://pseudovpn-us-backup.deno.dev"]) = Some e) /\
  exists w' evs,
    connect (H := example_platform)
      (Examples.connect_at 0 Examples.nobody_answers Examples.accepted) "US"
      (new default_config) = (Threw (no_healthy_workers "US"), w') /\
    this w' = this (new default_config) /\
    timers w' = timers (new default_config) /\
    trace w' = trace (new default_config) ++ evs /\
    evs = Connecting "US"
            :: List.map HealthRequest
                 ["https://pseudovpn-us-east.hakzeemirror.workers.dev";
                  "https://pseudovpn-us-backup.deno.dev"]%string
            ++ [ConsoleError (no_healthy_workers "US")] /\
    existsb is_ConnectRequest evs = false.
Proof.
  apply (connect_fails_when_no_worker_is_healthy (H := example_platform)
           (Examples.connect_at 0 Examples.nobody_answers Examples.accepted) "US"
           (new default_config)
           {| name := "United States";
              workers := ["https://pseudovpn-us-east.hakzeemirror.workers.dev";
                          "https://pseudovpn-us-backup.deno.dev"] |}
           [ {| url := "https://pseudovpn-us-east.hakzeemirror.workers.dev";
                status := StTimeout; latency := 5000; data := None |};
             {| url := "https://pseudovpn-us-backup.deno.dev";
                status := StTimeout; latency := 5000; data := None |} ]).
  - reflexivity.
  - reflexivity.
  - repeat constructor; discriminate.
Defined.

(** C2, at the failing input.  Every endpoint of region [US] sends the
    head of a 200 response after 10 ms and never ends the body.  No probe
    returns a healthy result, none returns at all, and [connect] does
    not fail with the no-healthy-worker error nor with any other:
    [getBestWorker] and with it [connect] never settle.  The call has
    sent the health requests and nothing else, and the client object is
    as it was. *)
Theorem connect_hangs_when_every_endpoint_stalls :
  let env := Examples.connect_at 0 Examples.everybody_stalls Examples.accepted in
  let w := new (Examples.three_workers 300 60) in
  (forall (i : nat) (workerUrl : string),
      Probe.healthCheck (H := example_platform) workerUrl default_timeout
        (Examples.everybody_stalls i) = Pending) /\
  (getBestWorker (H := example_platform) Examples.everybody_stalls "US" w).1 = Pending /\
  connect (H := example_platform) env "US" w
  = (Pending,
     M.logged (Connecting "US"
                 :: List.map HealthRequest
                      ["https://w1.example"; "https://w2.example"; "https://w3.example"])
       w).
Proof. cbv zeta. repeat split. Qed.

(** A refused handshake leaves behind the token minted for it. *)
Lemma connect_handshake_failure `{Platform} (env : ConnectEnv) (country : string)
    (w w1 : World) (worker : ProbeResult) (info : SessionInfo) (e : JsError) :
  getBestWorker (probeReply env) country (M.logged [Connecting country] w)
    = (Returned worker, w1) ->
  Token.generateSessionToken (config (this w1)) (mint env) country (url worker)
    = Returned info ->
  handshakeOutcome (handshakeReply env) = Threw e ->
  exists w',
    connect env country w = (Threw e, w') /\
    currentSession (this w') = currentSession (this w) /\
    sessionToken (this w') = Some (token info) /\
    tokenExpiry (this w') = Some (expires (payload info)).
Proof.
  intros Hbest Hmint Hhs. rewrite connect_unfold, Hbest, Hmint. cbv zeta. rewrite Hhs.
  eexists. split; [reflexivity|].
  apply getBestWorker_effect in Hbest as [endpoints ->]. auto.
Qed.

(** C3, at the failing input.  A fresh client connects to [US]; [w2] is
    selected and answers the handshake with status 500.  [connect] throws
    the HTTP error, and the client is left without a session but with the
    token and the expiry minted during the attempt. *)
Theorem connect_refused_handshake_keeps_token :
  let w := new (Examples.three_workers 300 60) in
  exists w',
    connect (H := example_platform)
      (Examples.connect_at 0 Examples.w1_times_out Examples.refused) "US" w
    = (Threw (Error "HTTP 500: busy"), w') /\
    (currentSession (this w), sessionToken (this w), tokenExpiry (this w))
    = (None, None, None) /\
    currentSession (this w') = None /\
    sessionToken (this w') = Some (Examples.token_of 0 "https://w2.example") /\
    tokenExpiry (this w') = Some 300000.
Proof.
  cbv zeta. eexists. split; [vm_compute; reflexivity|].
  repeat split; vm_compute; reflexivity.
Qed.

(** A region code that is neither configured nor the name of a property
    of [Object.prototype] is refused before any request, and nothing
    changes but the log. *)
Lemma connect_unsupported `{Platform} (env : ConnectEnv) (country : string) (w : World) :
  regions (config (this w)) !! country = None ->
  country ∉ object_prototype_keys ->
  connect env country w =
    (Threw (not_supported country),
     M.logged [Connecting country; ConsoleError (not_supported country)] w).
Proof.
  intros Hnone Hkey. rewrite connect_unfold.
  unfold getBestWorker, regions_get, M.bind, M.read, M.throw. cbn.
  rewrite Hnone, bool_decide_eq_false_2 by exact Hkey.
  unfold M.logged; cbn. by rewrite <- app_assoc.
Qed.

(** A region code that is not configured but names a property of
    [Object.prototype] passes the guard of [getBestWorker]; [connect] then
    throws a [TypeError], before any request. *)
Lemma connect_inherited_key `{Platform} (env : ConnectEnv) (country : string) (w : World) :
  regions (config (this w)) !! country = None ->
  country ∈ object_prototype_keys ->
  let e := TypeError "Cannot read properties of undefined (reading 'map')" in
  connect env country w = (Threw e, M.logged [Connecting country; ConsoleError e] w).
Proof.
  intros Hnone Hkey. cbv zeta. rewrite connect_unfold.
  unfold getBestWorker, regions_get, M.bind, M.read, M.throw. cbn.
  rewrite Hnone, bool_decide_eq_true_2 by exact Hkey.
  unfold M.logged; cbn. by rewrite <- app_assoc.
Qed.

(** C10, at the failing input.  [constructor] is not a configured region,
    yet [this.config.regions["constructor"]] is the inherited
    [Object.prototype.constructor]: the guard lets it pass, and [connect]
    throws a [TypeError] (worded as V8 words it at present) instead of
    [Country constructor not supported].  No request is sent and the
    client object is unchanged. *)
Theorem connect_constructor_throws_TypeError (P : Platform) (env : ConnectEnv) :
  let w := new default_config in
  let e := TypeError "Cannot read properties of undefined (reading 'map')" in
  regions (config (this w)) !! "constructor"%string = None /\
  connect env "constructor" w
  = (Threw e, M.logged [Connecting "constructor"; ConsoleError e] w) /\
  e <> not_supported "constructor".
Proof.
  cbv zeta. split; [reflexivity|]. split; [|discriminate].
  rewrite connect_unfold. reflexivity.
Qed.

(** ** The refresh timer *)

(** C5 (as amended).  When the refresh delay
    [tokenExpiry - now - refreshBuffer * 1000] is not positive,
    [scheduleTokenRefresh] returns without an error and arms no timer: it
    only cancels the timer that was armed before, if any. *)
Theorem scheduleTokenRefresh_skips_silently (now : Z) (w : World) :
  number_of (tokenExpiry (this w)) - now
    - refreshBuffer (auth (config (this w))) * 1000 <= 0 ->
  exists w',
    scheduleTokenRefresh now w = (Returned tt, w') /\
    this w' = this w /\
    nextHandle w' = nextHandle w /\
    timers w' = match tokenRefreshTimeout (this w) with
                | Some h => without h (timers w)
                | None => timers w
                end /\
    trace w' = trace w ++ match tokenRefreshTimeout (this w) with
                          | Some h => [ClearTimeout h]
                          | None => []
                          end.
Proof.
  intros Hle. rewrite scheduleTokenRefresh_run. eexists. split; [reflexivity|].
  cbv zeta. rewrite (proj2 (Z.ltb_ge _ _)) by lia.
  destruct (tokenRefreshTimeout (this w)); cbn; rewrite ?app_nil_r; auto.
Qed.

(** C5 (as amended), on an example: token duration and refresh buffer are
    both 60 s. *)
Lemma scheduleTokenRefresh_skips_on_equal_buffer :
  exists w',
    scheduleTokenRefresh 0 Examples.no_window = (Returned tt, w') /\
    this w' = this Examples.no_window /\
    nextHandle w' = nextHandle Examples.no_window /\
    timers w' = timers Examples.no_window /\
    trace w' = trace Examples.no_window ++ [].
Proof.
  apply (scheduleTokenRefresh_skips_silently 0 Examples.no_window). vm_compute. discriminate.
Defined.

(** C5, counterexample.  With the refresh buffer equal to the token
    duration the delay is 0; [scheduleTokenRefresh] does not fail with
    [InvalidScheduleWindow] or with anything else: it returns, and the
    world is exactly as before. *)
Lemma scheduleTokenRefresh_does_not_fail_fast :
  refreshBuffer (auth (config (this Examples.no_window)))
    >= tokenDuration (auth (config (this Examples.no_window))) /\
  number_of (tokenExpiry (this Examples.no_window)) - 0
    - refreshBuffer (auth (config (this Examples.no_window))) * 1000 = 0 /\
  scheduleTokenRefresh 0 Examples.no_window = (Returned tt, Examples.no_window).
Proof. repeat split; vm_compute; congruence. Qed.

(** What a [connect] that returns has gone through. *)
Lemma connect_returns `{Platform} (env : ConnectEnv) (country : string)
    (w w' : World) (result : Json) :
  connect env country w = (Returned result, w') ->
  exists worker endpoints info,
    Token.generateSessionToken (config (this w)) (mint env) country (url worker)
      = Returned info /\
    handshakeOutcome (handshakeReply env) = Returned result /\
    w' = (scheduleTokenRefresh (scheduleNow env)
            (M.updated (set_currentSession (Some (committed env country worker info)))
               (handshaking worker info
                  (M.logged (List.map HealthRequest endpoints)
                     (M.logged [Connecting country] w))))).2.
Proof.
  rewrite connect_unfold.
  destruct (getBestWorker _ _ _) as [o1 w1] eqn:Hbest.
  apply getBestWorker_effect in Hbest as [endpoints ->].
  destruct o1 as [worker|e1|]; [|discriminate..].
  cbn [M.logged this config].
  destruct (Token.generateSessionToken _ _ _ _) as [info|e1|] eqn:Hmint; [|discriminate..].
  cbv zeta. destruct (handshakeOutcome _) as [r|e1|]; [|discriminate..].
  destruct (log_error r); [discriminate|].
  intros [= -> <-]. by exists worker, endpoints, info.
Qed.

(** The expiry that [generateSessionToken] gives a token. *)
Lemma generated_expiry `{Platform} (cfg : Config) (m : Mint) (country workerId : string)
    (info : SessionInfo) :
  Token.generateSessionToken cfg m country workerId = Returned info ->
  expires (payload info) = expiresNow m + tokenDuration (auth cfg) * 1000.
Proof.
  unfold Token.generateSessionToken. destruct (entropy m); [discriminate|].
  by intros [= <-].
Qed.

(** The timer that a returning [connect] arms when the expiry of its
    token, less the refresh buffer, is still ahead of the clock. *)
Lemma connect_arms `{Platform} (env : ConnectEnv) (country : string) (w w' : World)
    (result : Json) :
  connect env country w = (Returned result, w') ->
  let expiry := expiresNow (mint env) + tokenDuration (auth (config (this w))) * 1000 in
  let buffer := refreshBuffer (auth (config (this w))) * 1000 in
  0 < expiry - scheduleNow env - buffer ->
  tokenExpiry (this w') = Some expiry /\
  exists t,
    t ∈ timers w' /\
    tokenRefreshTimeout (this w') = Some (handle t) /\
    setAt t = scheduleNow env /\
    delay t = expiry - scheduleNow env - buffer.
Proof.
  intros Hconnect expiry buffer Hpos.
  apply connect_returns in Hconnect as (worker & endpoints & info & Hmint & _ & ->).
  apply generated_expiry in Hmint. fold expiry in Hmint.
  rewrite scheduleTokenRefresh_run. cbn [snd]. cbv zeta.
  cbn [M.updated handshaking M.logged this set_currentSession set_tokenExpiry
         set_sessionToken tokenRefreshTimeout tokenExpiry config number_of].
  rewrite Hmint. fold buffer. rewrite (proj2 (Z.ltb_lt _ _)) by lia.
  destruct (tokenRefreshTimeout (this w)) as [h|]; cbn; rewrite ?Hmint;
    (split; [reflexivity|]); eexists;
    (split; [apply elem_of_app; right; apply list_elem_of_singleton; reflexivity|]);
    repeat split.
Qed.

Lemma effective_delay_in_range (delay : Z) :
  0 < delay <= TIMEOUT_MAX -> effective_delay delay = delay.
Proof.
  intros [Hpos Hmax]. unfold effective_delay.
  rewrite (proj2 (Z.leb_le 1 delay)) by lia.
  by rewrite (proj2 (Z.leb_le _ _) Hmax).
Qed.

Lemma effective_delay_overflow (delay : Z) :
  TIMEOUT_MAX < delay -> effective_delay delay = 1.
Proof.
  intros Hmax. unfold effective_delay.
  rewrite (proj2 (Z.leb_gt delay TIMEOUT_MAX)) by lia.
  by rewrite andb_false_r.
Qed.

(** C9 (as amended).  After a [connect] that returns, the token expires
    [tokenDuration] seconds after the clock reading taken for it.  If
    that expiry, less the refresh buffer, is ahead of the clock when the
    refresh is scheduled, by no more than the 2147483647 ms that
    [setTimeout] honours, then the refresh timer is pending, the client
    holds its handle, and it fires at the expiry less the refresh
    buffer. *)
Theorem connect_arms_refresh_before_expiry `{Platform}
    (env : ConnectEnv) (country : string) (w w' : World) (result : Json) :
  connect env country w = (Returned result, w') ->
  let expiry := expiresNow (mint env) + tokenDuration (auth (config (this w))) * 1000 in
  let buffer := refreshBuffer (auth (config (this w))) * 1000 in
  0 < expiry - scheduleNow env - buffer <= TIMEOUT_MAX ->
  tokenExpiry (this w') = Some expiry /\
  exists t,
    t ∈ timers w' /\
    tokenRefreshTimeout (this w') = Some (handle t) /\
    setAt t = scheduleNow env /\
    fireAt t = expiry - buffer.
Proof.
  intros Hconnect expiry buffer Hrange.
  destruct (connect_arms env country w w' result Hconnect)
    as (Hexpiry & t & Hin & Hhandle & Hset & Hdelay); [apply Hrange|].
  split; [exact Hexpiry|]. exists t. repeat split; try done.
  unfold fireAt. rewrite Hset, Hdelay.
  fold expiry buffer. rewrite effective_delay_in_range by exact Hrange. lia.
Qed.

(** C9 (as amended), on the scenario of the specification: token duration
    300 s, refresh buffer 60 s, [connect] at time 0.  The timer is due at
    240 s. *)
Lemma connect_at_0_arms_refresh_at_240s :
  let env := Examples.connect_at 0 Examples.w1_times_out Examples.accepted in
  let w := new (Examples.three_workers 300 60) in
  exists result w',
    connect (H := example_platform) env "US" w = (Returned result, w') /\
    tokenExpiry (this w') = Some 300000 /\
    exists t,
      t ∈ timers w' /\
      tokenRefreshTimeout (this w') = Some (handle t) /\
      setAt t = 0 /\
      fireAt t = 240000.
Proof.
  cbv zeta.
  destruct (connect (H := example_platform)
              (Examples.connect_at 0 Examples.w1_times_out Examples.accepted) "US"
              (new (Examples.three_workers 300 60))) as [o w'] eqn:Hconnect.
  assert (Ho : o = Returned (JObj []))
    by (apply (f_equal fst) in Hconnect; vm_compute in Hconnect; congruence).
  subst o. exists (JObj []), w'. split; [reflexivity|].
  apply (connect_arms_refresh_before_expiry (H := example_platform) _ _ _ _ _ Hconnect).
  vm_compute. split; [reflexivity|discriminate].
Defined.

(** C9, counterexamples.  With token duration and refresh buffer both
    60 s, [connect] at time 0 returns, and no refresh timer has been
    armed.  With a token duration of 30 days and a refresh buffer of
    60 s, [connect] at time 0 returns and arms a timer with a delay of
    2591940000 ms, which is more than [setTimeout] honours: the timer
    fires 1 ms after the connect, not at the expiry less the buffer. *)
Lemma connect_does_not_always_refresh_before_expiry :
  (exists result w',
     connect (H := example_platform)
       (Examples.connect_at 0 Examples.w1_times_out Examples.accepted) "US"
       (new (Examples.three_workers 60 60)) = (Returned result, w') /\
     is_Some (currentSession (this w')) /\
     timers w' = [] /\
     tokenRefreshTimeout (this w') = None /\
     existsb is_SetTimeout (trace w') = false) /\
  (exists result w' t,
     connect (H := example_platform)
       (Examples.connect_at 0 Examples.w1_times_out Examples.accepted) "US"
       (new (Examples.three_workers 2592000 60)) = (Returned result, w') /\
     tokenExpiry (this w') = Some 2592000000 /\
     timers w' = [t] /\
     delay t = 2591940000 /\
     fireAt t = 1 /\
     fireAt t <> 2592000000 - 60000).
Proof.
  split.
  - eexists _, _. split; [vm_compute; reflexivity|].
    split; [by eexists|]. repeat split.
  - eexists _, _, _. split; [vm_compute; reflexivity|]. by repeat split.
Qed.

(** ** Recovery from a failed refresh *)

(** [refreshToken] throws only when minting throws, and then nothing has
    changed. *)
Lemma refreshToken_throws `{Platform} (m : Mint) (now : Z) (w w1 : World) (e : JsError) :
  refreshToken m now w = (Threw e, w1) ->
  w1 = w /\
  exists session,
    currentSession (this w) = Some session /\
    Token.generateSessionToken (config (this w)) m (Session.country session)
      (url (Session.worker session)) = Threw e.
Proof.
  unfold refreshToken, M.bind, M.read, M.lift, M.update, M.ret.
  destruct (currentSession (this w)) as [session|]; [|discriminate].
  destruct (Token.generateSessionToken _ _ _ _) as [info|e'|] eqn:Hmint;
    try discriminate.
  - rewrite scheduleTokenRefresh_run. discriminate.
  - intros [= <- <-]. eauto.
Qed.

(** C4 (as amended).  When the refresh that the timer callback starts
    throws, the callback logs the error and calls [connect] once, for the
    region of the current session; the new events show that one attempt
    and no other.  When that [connect] throws in turn, its error leaves
    the callback, the last event being its console message; the session
    is still set, no timer has been armed, and the pending timers are
    those of before. *)
Theorem refresh_failure_reconnects_once `{Platform}
    (env : RefreshEnv) (w w1 : World) (e : JsError) :
  refreshToken (refreshMint env) (refreshScheduleNow env) w = (Threw e, w1) ->
  exists session o w2 evs,
    currentSession (this w) = Some session /\
    connect (reconnectEnv env) (Session.country session) (M.logged [ConsoleError e] w)
      = (o, w2) /\
    refreshCallback env w = (discard_result o, w2) /\
    trace w2 = trace w ++ ConsoleError e :: Connecting (Session.country session) :: evs /\
    connect_attempts evs = 0%nat /\
    forall e', o = Threw e' ->
      is_Some (currentSession (this w2)) /\
      timers w2 = timers w /\
      existsb is_SetTimeout evs = false /\
      last evs = Some (ConsoleError e').
Proof.
  intros Hrefresh.
  destruct (refreshToken_throws _ _ _ _ _ Hrefresh) as (-> & session & Hsession & _).
  destruct (connect (reconnectEnv env) (Session.country session)
              (M.logged [ConsoleError e] w)) as [o w2] eqn:Hconnect.
  destruct (connect_effect _ _ _ _ _ Hconnect) as (evs & Htrace & Hattempts & Hthrow).
  exists session, o, w2, evs.
  split; [exact Hsession|]. split; [exact Hconnect|]. split; [|split; [|split]].
  - unfold refreshCallback, M.try_catch, M.bind, M.emit, M.read, M.ret.
    rewrite Hrefresh. cbn [M.logged this]. rewrite Hsession.
    fold (M.logged [ConsoleError e] w). rewrite Hconnect. by destruct o.
  - rewrite Htrace. cbn. by rewrite <- app_assoc.
  - exact Hattempts.
  - intros e' He'. destruct (Hthrow e' He') as (Ht & Hs & Hc & Hl).
    repeat split; auto; apply Hc; cbn; rewrite Hsession; by eexists.
Qed.

(** C4 (as amended), on an example: the client is connected to [US], the
    refresh finds no entropy, and nobody answers the probes of the
    reconnect. *)
Lemma refresh_failure_reconnects_once_example :
  let env := {| refreshMint := Examples.failing_mint;
                refreshScheduleNow := 240000;
                reconnectEnv := Examples.connect_at 240000 Examples.nobody_answers
                                  Examples.accepted |} in
  exists session o w2 evs,
    currentSession (this Examples.connected) = Some session /\
    connect (H := example_platform) (reconnectEnv env) (Session.country session)
      (M.logged [ConsoleError (SystemError "ERR_CRYPTO_OPERATION_FAILED")]
         Examples.connected) = (o, w2) /\
    refreshCallback (H := example_platform) env Examples.connected
      = (discard_result o, w2) /\
    trace w2 =
      trace Examples.connected
        ++ ConsoleError (SystemError "ERR_CRYPTO_OPERATION_FAILED")
             :: Connecting (Session.country session) :: evs /\
    connect_attempts evs = 0%nat /\
    forall e', o = Threw e' ->
      is_Some (currentSession (this w2)) /\
      timers w2 = timers Examples.connected /\
      existsb is_SetTimeout evs = false /\
      last evs = Some (ConsoleError e').
Proof.
  cbv zeta.
  apply (refresh_failure_reconnects_once (H := example_platform)
           {| refreshMint := Examples.failing_mint;
              refreshScheduleNow := 240000;
              reconnectEnv := Examples.connect_at 240000 Examples.nobody_answers
                                Examples.accepted |}
           Examples.connected Examples.connected
           (SystemError "ERR_CRYPTO_OPERATION_FAILED")).
  vm_compute. reflexivity.
Defined.

(** C4, counterexample.  The client is connected to [US] and its refresh
    timer fires; the refresh throws and so does the reconnect, nobody
    answering the probes.  The error leaves the callback, and the session
    is still in place: it has not been torn down, and the only trace of
    the failure is on the console. *)
Lemma failed_reconnect_keeps_the_session :
  let env := {| refreshMint := Examples.failing_mint;
                refreshScheduleNow := 240000;
                reconnectEnv := Examples.connect_at 240000 Examples.nobody_answers
                                  Examples.accepted |} in
  exists w',
    fireTimer (H := example_platform) 0 env Examples.connected
    = (Threw (no_healthy_workers "US"), w') /\
    is_Some (currentSession (this Examples.connected)) /\
    currentSession (this w') = currentSession (this Examples.connected) /\
    sessionToken (this w') = sessionToken (this Examples.connected) /\
    tokenExpiry (this w') = Some 300000 /\
    timers w' = [] /\
    last (trace w') = Some (ConsoleError (no_healthy_workers "US")).
Proof.
  cbv zeta. eexists. split; [vm_compute; reflexivity|].
  split; [by eexists|]. repeat split.
Qed.

(** ** Disconnecting *)

Lemma disconnect_run (w : World) :
  disconnect w =
    (Returned tt,
     let w1 := match tokenRefreshTimeout (this w) with
               | Some h => cancelled h w
               | None => w
               end in
     match currentSession (this w) with
     | Some _ =>
         M.updated (set_tokenExpiry None)
           (M.updated (set_sessionToken None) (M.updated (set_currentSession None) w1))
     | None => w1
     end).
Proof.
  unfold disconnect, M.bind, M.read, M.update, M.ret, clearTimeout.
  destruct (tokenRefreshTimeout (this w)), (currentSession (this w)); reflexivity.
Qed.

(** [disconnect] clears session, token and expiry together, and only when
    a session is set. *)
Lemma disconnect_clears_together (w : World) :
  let w' := (disconnect w).2 in
  match currentSession (this w) with
  | Some _ =>
      (currentSession (this w'), sessionToken (this w'), tokenExpiry (this w'))
      = (None, None, None)
  | None => this w' = this w
  end.
Proof.
  rewrite disconnect_run.
  destruct (tokenRefreshTimeout (this w)), (currentSession (this w)); reflexivity.
Qed.

Lemma without_twice (h : nat) (pending : list Timer) :
  without h (without h pending) = without h pending.
Proof.
  unfold without. induction pending as [|t rest IH]; cbn; [reflexivity|].
  destruct (negb (handle t =? h)%nat) eqn:E; cbn; rewrite ?E, IH; reflexivity.
Qed.

(** A second [disconnect] returns as well, and changes neither the client
    object nor the pending timers. *)
Lemma disconnect_twice (w : World) :
  let w1 := (disconnect w).2 in
  let w2 := (disconnect w1).2 in
  (disconnect w1).1 = Returned tt /\ this w2 = this w1 /\ timers w2 = timers w1.
Proof.
  cbv zeta. rewrite (disconnect_run w). cbn [snd].
  set (w1 := match currentSession (this w) with Some _ => _ | None => _ end).
  rewrite (disconnect_run w1). cbn [fst snd]. split; [reflexivity|].
  subst w1.
  destruct (tokenRefreshTimeout (this w)) as [h|] eqn:Hh,
    (currentSession (this w)) eqn:Hc; cbn; rewrite ?Hh, ?Hc; cbn;
    (split; [reflexivity|]); try reflexivity; apply (without_twice h).
Qed.

(** * Further properties of the client *)

Import Lifecycle.

(** ** At most one refresh timer *)

Lemma one_timer_same (w w' : World) :
  timers w' = timers w ->
  tokenRefreshTimeout (this w') = tokenRefreshTimeout (this w) ->
  one_timer w -> one_timer w'.
Proof. unfold one_timer. by intros -> ->. Qed.

Lemma one_timer_cleared (w : World) :
  one_timer w ->
  timers match tokenRefreshTimeout (this w) with
         | Some h => cancelled h w
         | None => w
         end = [].
Proof.
  unfold one_timer.
  destruct (timers w) as [|t [|t' rest]] eqn:Ht; [| |done].
  - intros _. destruct (tokenRefreshTimeout (this w)); cbn; by rewrite ?Ht.
  - intros ->. cbn. rewrite Ht. cbn. by rewrite Nat.eqb_refl.
Qed.

Lemma scheduleTokenRefresh_one_timer (now : Z) (w : World) :
  one_timer w -> one_timer (scheduleTokenRefresh now w).2.
Proof.
  intros Hw. rewrite scheduleTokenRefresh_run. cbn [snd]. cbv zeta.
  pose proof (one_timer_cleared w Hw) as Hclear.
  destruct (_ <? _).
  - unfold one_timer, armed. cbn [timers this tokenRefreshTimeout set_tokenRefreshTimeout].
    rewrite Hclear. cbn. by destruct (tokenRefreshTimeout (this w)).
  - unfold one_timer. by rewrite Hclear.
Qed.

Lemma connect_one_timer `{Platform} (env : ConnectEnv) (country : string) (w : World) :
  one_timer w -> one_timer (connect env country w).2.
Proof.
  intros Hw. rewrite connect_unfold.
  destruct (getBestWorker _ _ _) as [o1 w1] eqn:Hbest.
  apply getBestWorker_effect in Hbest as [endpoints ->].
  destruct o1 as [worker|e1|]; cbn [M.logged this config]; try done.
  destruct (Token.generateSessionToken _ _ _ _) as [info|e1|]; try done.
  cbv zeta. destruct (handshakeOutcome _) as [result|e1|]; try done.
  destruct (log_error result); [done|].
  cbn [snd]. apply scheduleTokenRefresh_one_timer. exact Hw.
Qed.

Lemma disconnect_one_timer (w : World) :
  one_timer w -> one_timer (disconnect w).2 /\ timers (disconnect w).2 = [].
Proof.
  intros Hw. rewrite disconnect_run. cbn [snd]. cbv zeta.
  pose proof (one_timer_cleared w Hw) as Hclear.
  assert (Ht : timers match currentSession (this w) with
                      | Some _ =>
                          M.updated (set_tokenExpiry None)
                            (M.updated (set_sessionToken None)
                               (M.updated (set_currentSession None)
                                  match tokenRefreshTimeout (this w) with
                                  | Some h => cancelled h w
                                  | None => w
                                  end))
                      | None =>
                          match tokenRefreshTimeout (this w) with
                          | Some h => cancelled h w
                          | None => w
                          end
                      end = [])
    by (destruct (currentSession (this w)); exact Hclear).
  split; [|exact Ht]. unfold one_timer. by rewrite Ht.
Qed.

Lemma refreshToken_one_timer `{Platform} (m : Mint) (now : Z) (w : World) :
  one_timer w -> one_timer (refreshToken m now w).2.
Proof.
  intros Hw. unfold refreshToken, M.bind, M.read, M.lift, M.update, M.ret.
  destruct (currentSession (this w)); [|exact Hw].
  destruct (Token.generateSessionToken _ _ _ _); try exact Hw.
  apply scheduleTokenRefresh_one_timer. exact Hw.
Qed.

Lemma refreshCallback_one_timer `{Platform} (env : RefreshEnv) (w : World) :
  one_timer w -> one_timer (refreshCallback env w).2.
Proof.
  intros Hw. unfold refreshCallback, M.try_catch.
  pose proof (refreshToken_one_timer (refreshMint env) (refreshScheduleNow env) w Hw) as Hr.
  destruct (refreshToken _ _ w) as [[[]|e|] w1]; cbn [snd] in *; try exact Hr.
  unfold M.bind, M.emit, M.read, M.ret. cbn [M.logged this].
  destruct (currentSession (this w1)) as [session|]; [|exact Hr].
  pose proof (connect_one_timer (reconnectEnv env) (Session.country session)
                (M.logged [ConsoleError e] w1) Hr) as Hc.
  by destruct (connect _ _ _) as [[?|?|] w2].
Qed.

Lemma fireTimer_one_timer `{Platform} (h : nat) (env : RefreshEnv) (w : World) :
  one_timer w -> one_timer (fireTimer h env w).2.
Proof.
  intros Hw. unfold fireTimer.
  destruct (existsb _ _) eqn:Hex; [|exact Hw].
  apply refreshCallback_one_timer.
  unfold one_timer in *. cbn [timers this].
  destruct (timers w) as [|t [|t' rest]]; try done.
  cbn in Hex. rewrite orb_false_r in Hex. unfold without. cbn. by rewrite Hex.
Qed.

Lemma switchCountry_one_timer `{Platform} (env : ConnectEnv) (country : string) (w : World) :
  one_timer w -> one_timer (switchCountry env country w).2.
Proof.
  intros Hw. unfold switchCountry, M.bind.
  destruct (disconnect_one_timer w Hw) as [Hd _].
  rewrite disconnect_run in *. cbn [snd] in Hd.
  by apply connect_one_timer.
Qed.



Lemma round_run `{Platform} (country : string) (i : nat) (r : Round)
    (results : list Result) (w : World) :
  round country i r results w =
    match connect (attempt r) country w with
    | (Returned _, w1) =>
        (Returned (results ++ [Success i (connectedAtNow r - startNow r)
                                 (requestEndNow r - requestStartNow r)]),
         (disconnect w1).2)
    | (Threw e, w1) => (Returned (results ++ [Failure i e]), w1)
    | (Pending, w1) => (Pending, w1)
    end.
Proof.
  unfold round, M.try_catch, M.bind, M.ret.
  destruct (connect _ _ _) as [[result|e|] w1]; try reflexivity.
  by rewrite disconnect_run.
Qed.

Lemma round_one_timer `{Platform} (country : string) (i : nat) (r : Round)
    (results : list Result) (w : World) :
  one_timer w -> one_timer (round country i r results w).2.
Proof.
  intros Hw. rewrite round_run.
  pose proof (connect_one_timer (attempt r) country w Hw) as Hc.
  destruct (connect _ _ _) as [[result|e|] w1]; cbn [snd] in *; try exact Hc.
  by apply disconnect_one_timer.
Qed.

Lemma rounds_one_timer `{Platform} (country : string) (rs : list Round) (i : nat)
    (results : list Result) (w : World) :
  one_timer w -> one_timer (rounds country i rs results w).2.
Proof.
  revert i results w. induction rs as [|r rest IH]; intros i results w Hw; [exact Hw|].
  cbn [rounds]. unfold M.bind.
  pose proof (round_one_timer country i r results w Hw) as Hr.
  destruct (round _ _ _ _ _) as [[results'|e|] w1]; cbn [snd] in *; try exact Hr.
  by apply IH.
Qed.

Lemma benchmark_one_timer `{Platform} (rs : list Round) (country : string) (w : World) :
  one_timer w -> one_timer (benchmark rs country w).2.
Proof.
  intros Hw. unfold benchmark, M.bind, M.ret.
  pose proof (rounds_one_timer country rs 1 [] w Hw) as Hr.
  by destruct (rounds _ _ _ _ _) as [[results'|e|] w1].
Qed.

(** X1.  The client never has two refresh timers pending.  If at most
    one timer is pending and the client holds its handle, then the same
    is true after [connect], [refreshToken], the firing of any timer,
    [disconnect], [switchCountry] and [benchmark], however each of them
    ends. *)
Theorem refresh_timer_stays_unique `{Platform} (env : ConnectEnv) (renv : RefreshEnv)
    (m : Mint) (now : Z) (h : nat) (rs : list Round) (country : string) (w : World) :
  one_timer w ->
  one_timer (connect env country w).2 /\
  one_timer (refreshToken m now w).2 /\
  one_timer (fireTimer h renv w).2 /\
  one_timer (disconnect w).2 /\
  one_timer (switchCountry env country w).2 /\
  one_timer (benchmark rs country w).2.
Proof.
  intros Hw. repeat split.
  - by apply connect_one_timer.
  - by apply refreshToken_one_timer.
  - by apply fireTimer_one_timer.
  - by apply disconnect_one_timer.
  - by apply switchCountry_one_timer.
  - by apply benchmark_one_timer.
Qed.

Lemma refresh_timer_stays_unique_example :
  let env := Examples.connect_at 200000 Examples.w1_times_out Examples.accepted in
  let renv := {| refreshMint := Examples.mint_at 200000;
                 refreshScheduleNow := 200000;
                 reconnectEnv := env |} in
  let w := Examples.connected in
  one_timer w /\
  (one_timer (connect (H := example_platform) env "US" w).2 /\
   one_timer (refreshToken (H := example_platform) (Examples.mint_at 200000) 200000 w).2 /\
   one_timer (fireTimer (H := example_platform) 0 renv w).2 /\
   one_timer (disconnect w).2 /\
   one_timer (switchCountry (H := example_platform) env "US" w).2 /\
   one_timer (benchmark (H := example_platform) [] "US" w).2).
Proof.
  cbv zeta. split; [vm_compute; reflexivity|].
  apply (refresh_timer_stays_unique (H := example_platform)).
  vm_compute. reflexivity.
Defined.


(** ** Probes and the choice of an endpoint *)

Lemma healthCheck_healthy `{Platform} (workerUrl : string) (timeout : Z) (net : Reply)
    (check : ProbeResult) :
  Probe.healthCheck workerUrl timeout net = Returned check ->
  status check = StHealthy ->
  exists elapsed body result,
    net = ResponseHead elapsed 200 (BodyEnds body) /\ elapsed < timeout /\
    JSON_parse body = Some result /\
    check = {| url := workerUrl; status := StHealthy; latency := elapsed;
               data := Some result |}.
Proof.
  unfold Probe.healthCheck.
  destruct net as [|elapsed|elapsed statusCode [body|]|e];
    repeat case_match; try discriminate; intros [= <-]; try discriminate.
  intros _. eexists elapsed, body, _.
  assert (statusCode = 200) as -> by lia.
  repeat split; [lia|done].
Qed.



Lemma getBestWorker_member `{Platform} (net : nat -> Reply) (country : string)
    (w w' : World) (best : ProbeResult) :
  getBestWorker net country w = (Returned best, w') ->
  exists region,
    regions (config (this w)) !! country = Some region /\
    url best ∈ workers region /\
    status best = StHealthy /\
    w' = M.logged (List.map HealthRequest (workers region)) w.
Proof.
  intros Hbest.
  destruct (regions (config (this w)) !! country) as [region|] eqn:Hregion.
  2:{ revert Hbest.
      unfold getBestWorker, regions_get, M.bind, M.read, M.throw.
      rewrite Hregion. by case_bool_decide. }
  rewrite (getBestWorker_configured net country w region Hregion) in Hbest.
  destruct (Probe.Promise_all _) as [checks|e|] eqn:Hall; [|discriminate..].
  rewrite (requested_fulfilled _ _ _ Hall) in Hbest.
  destruct (Spec.first_best checks) as [b|] eqn:Hfirst; [|discriminate].
  injection Hbest as -> <-.
  destruct (first_best_is_best _ _ Hfirst) as (i & Hi & Hs & _).
  destruct (probeAll_lookup _ _ _ _ _ Hall Hi) as [Hworker _].
  exists region. repeat split; try done. by eapply list_elem_of_lookup_2.
Qed.

(** X3.  A worker that [getBestWorker] returns was probed in this very
    call: the region is configured, the worker's URL stands in the
    region's list, and the worker is the result of the probe of that
    place, which answered 200 with a JSON body within the default
    timeout of 5000 ms.  The call has sent one health request to each
    endpoint of the region, in order, and has changed neither the client
    object nor the timers. *)
Theorem getBestWorker_returns_a_probed_endpoint `{Platform} (net : nat -> Reply)
    (country : string) (w w' : World) (best : ProbeResult) :
  getBestWorker net country w = (Returned best, w') ->
  exists region i elapsed body,
    regions (config (this w)) !! country = Some region /\
    workers region !! i = Some (url best) /\
    net i = ResponseHead elapsed 200 (BodyEnds body) /\
    elapsed < default_timeout /\
    latency best = elapsed /\ status best = StHealthy /\
    data best = JSON_parse body /\
    w' = M.logged (List.map HealthRequest (workers region)) w.
Proof.
  intros Hbest.
  destruct (regions (config (this w)) !! country) as [region|] eqn:Hregion.
  2:{ revert Hbest.
      unfold getBestWorker, regions_get, M.bind, M.read, M.throw.
      rewrite Hregion. by case_bool_decide. }
  rewrite (getBestWorker_configured net country w region Hregion) in Hbest.
  destruct (Probe.Promise_all _) as [checks|e|] eqn:Hall; [|discriminate..].
  rewrite (requested_fulfilled _ _ _ Hall) in Hbest.
  destruct (Spec.first_best checks) as [b|] eqn:Hfirst; [|discriminate].
  injection Hbest as -> <-.
  destruct (first_best_is_best _ _ Hfirst) as (i & Hi & Hs & _).
  destruct (probeAll_lookup _ _ _ _ _ Hall Hi) as [Hworker Hcheck].
  destruct (healthCheck_healthy _ _ _ _ Hcheck Hs)
    as (elapsed & body & result & Hnet & Hlt & Hparse & Hbest).
  exists region, i, elapsed, body.
  rewrite Hbest in *. cbn in *. by rewrite Hparse.
Qed.

Lemma getBestWorker_returns_a_probed_endpoint_example :
  let w := new (Examples.three_workers 300 60) in
  getBestWorker (H := example_platform) Examples.w1_times_out "US" w
  = (Returned Examples.w2_result,
     M.logged (List.map HealthRequest
                 ["https://w1.example"; "https://w2.example"; "https://w3.example"]) w) /\
  exists region i elapsed body,
    regions (config (this w)) !! "US" = Some region /\
    workers region !! i = Some (url Examples.w2_result) /\
    Examples.w1_times_out i = ResponseHead elapsed 200 (BodyEnds body) /\
    elapsed < default_timeout /\
    latency Examples.w2_result = elapsed /\ status Examples.w2_result = StHealthy /\
    data Examples.w2_result = JSON_parse (Platform := example_platform) body /\
    M.logged (List.map HealthRequest
                ["https://w1.example"; "https://w2.example"; "https://w3.example"]) w
    = M.logged (List.map HealthRequest (workers region)) w.
Proof.
  cbv zeta. split; [vm_compute; reflexivity|].
  apply (getBestWorker_returns_a_probed_endpoint (H := example_platform)
           Examples.w1_times_out "US" (new (Examples.three_workers 300 60))).
  vm_compute. reflexivity.
Defined.

(** ** Sessions of the client *)

Lemma scheduleTokenRefresh_effect (now : Z) (w : World) :
  let w' := (scheduleTokenRefresh now w).2 in
  config (this w') = config (this w) /\
  currentSession (this w') = currentSession (this w) /\
  sessionToken (this w') = sessionToken (this w) /\
  tokenExpiry (this w') = tokenExpiry (this w) /\
  exists evs, trace w' = trace w ++ evs /\ existsb is_request evs = false.
Proof.
  cbv zeta. rewrite scheduleTokenRefresh_run. cbn [snd]. cbv zeta.
  destruct (tokenRefreshTimeout (this w)); case_match; cbn;
    repeat split; try (by eexists []; rewrite app_nil_r);
    rewrite <- ?app_assoc; by eexists.
Qed.

(** X4.  A [connect] that returns has committed what it probed and
    sent.  The session names the requested country, the clock reading
    taken for it, and a worker that [getBestWorker] found healthy among
    the region's endpoints; the stored token is the one minted for that
    worker, its session identifier is the session's, and the stored
    expiry is the token's.  On the wire the call has announced itself,
    probed every endpoint of the region, and sent exactly one connect
    request: to the committed worker, with the stored token and the
    session's identifier. *)
Theorem connect_commits_what_it_sent `{Platform} (env : ConnectEnv) (country : string)
    (w w' : World) (result : Json) :
  connect env country w = (Returned result, w') ->
  exists region session info evs,
    regions (config (this w)) !! country = Some region /\
    currentSession (this w') = Some session /\
    Session.country session = country /\
    Session.connectedAt session = connectedNow env /\
    url (Session.worker session) ∈ workers region /\
    status (Session.worker session) = StHealthy /\
    Token.generateSessionToken (config (this w)) (mint env) country
      (url (Session.worker session)) = Returned info /\
    sessionToken (this w') = Some (token info) /\
    tokenExpiry (this w') = Some (expires (payload info)) /\
    Session.sessionId session = sessionId (payload info) /\
    handshakeOutcome (handshakeReply env) = Returned result /\
    trace w' =
      trace w ++ Connecting country :: List.map HealthRequest (workers region)
        ++ ConnectRequest (url (Session.worker session)) (token info)
             (Session.sessionId session) :: evs /\
    existsb is_request evs = false.
Proof.
  rewrite connect_unfold.
  destruct (getBestWorker _ _ _) as [o1 w1] eqn:Hbest.
  destruct o1 as [worker|e1|]; [|discriminate..].
  apply getBestWorker_member in Hbest as (region & Hregion & Hworker & Hs & ->).
  cbn [M.logged this config] in *.
  destruct (Token.generateSessionToken _ _ _ _) as [info|e1|] eqn:Hmint; [|discriminate..].
  cbv zeta. destruct (handshakeOutcome _) as [r|e1|]; [|discriminate..].
  destruct (log_error r); [discriminate|].
  intros [= -> <-].
  match goal with
  | |- context [scheduleTokenRefresh ?now ?w3] =>
      destruct (scheduleTokenRefresh_effect now w3)
        as (_ & Hsession & Htoken & Hexpiry & evs & Htrace & Hevs)
  end.
  cbv zeta in *.
  exists region, (Spec.committed env country worker info), info, evs.
  rewrite Hsession, Htoken, Hexpiry, Htrace. cbn.
  repeat split; try done. by rewrite <- !app_assoc.
Qed.

Lemma connect_commits_what_it_sent_example :
  exists result w',
    connect (H := example_platform)
      (Examples.connect_at 0 Examples.w1_times_out Examples.accepted) "US"
      (new (Examples.three_workers 300 60)) = (Returned result, w') /\
    exists session,
      currentSession (this w') = Some session /\
      Session.worker session = Examples.w2_result /\
      tokenExpiry (this w') = Some 300000.
Proof.
  eexists _, _. split; [vm_compute; reflexivity|].
  destruct (connect_commits_what_it_sent (H := example_platform)
              (Examples.connect_at 0 Examples.w1_times_out Examples.accepted) "US"
              (new (Examples.three_workers 300 60)) _ _ eq_refl)
    as (region & session & info & evs & _ & Hsession & _).
  eexists. split; [exact Hsession|]. vm_compute in Hsession.
  injection Hsession as <-. split; reflexivity.
Defined.

(** X5.  A handshake that is answered with the JSON text [null] makes
    [connect] throw after it has committed the session: the call throws
    the [TypeError] of reading [ip] of [null], and yet the session, the
    token and the expiry of the attempt are stored; no refresh timer is
    armed for them, and the timers are as before the call. *)
Theorem connect_null_answer_leaves_a_session `{Platform} (env : ConnectEnv)
    (country : string) (w w1 : World) (worker : ProbeResult) (info : SessionInfo) :
  getBestWorker (probeReply env) country (M.logged [Connecting country] w)
    = (Returned worker, w1) ->
  Token.generateSessionToken (config (this w)) (mint env) country (url worker)
    = Returned info ->
  handshakeOutcome (handshakeReply env) = Returned JNull ->
  exists w',
    connect env country w = (Threw Spec.null_result, w') /\
    currentSession (this w') = Some (Spec.committed env country worker info) /\
    sessionToken (this w') = Some (token info) /\
    tokenExpiry (this w') = Some (expires (payload info)) /\
    timers w' = timers w /\
    tokenRefreshTimeout (this w') = tokenRefreshTimeout (this w).
Proof.
  intros Hbest Hmint Hhs. rewrite connect_unfold, Hbest.
  apply getBestWorker_effect in Hbest as [endpoints ->].
  cbn [M.logged this config]. rewrite Hmint. cbv zeta. rewrite Hhs.
  cbn [log_error JS.get].
  eexists. split; [reflexivity|]. by cbn.
Qed.

Lemma connect_null_answer_leaves_a_session_example :
  let env := Examples.connect_at 0 Examples.w1_times_out
               (HandshakeResponse 200 (BodyEnds "null")) in
  let w := new (Examples.three_workers 300 60) in
  exists w',
    connect (H := example_platform) env "US" w = (Threw Spec.null_result, w') /\
    is_Some (currentSession (this w')) /\ timers w' = [].
Proof.
  cbv zeta.
  destruct (connect_null_answer_leaves_a_session (H := example_platform)
              (Examples.connect_at 0 Examples.w1_times_out
                 (HandshakeResponse 200 (BodyEnds "null"))) "US"
              (new (Examples.three_workers 300 60)) _ Examples.w2_result _
              eq_refl eq_refl eq_refl)
    as (w' & Hconnect & Hsession & _ & _ & Htimers & _).
  exists w'. split; [exact Hconnect|]. split; [by rewrite Hsession|exact Htimers].
Defined.

Lemma refreshToken_returns `{Platform} (m : Mint) (now : Z) (w : World)
    (session : Session.t) (info : SessionInfo) :
  currentSession (this w) = Some session ->
  Token.generateSessionToken (config (this w)) m (Session.country session)
    (url (Session.worker session)) = Returned info ->
  exists w' evs,
    refreshToken m now w = (Returned tt, w') /\
    currentSession (this w') = Some session /\
    sessionToken (this w') = Some (token info) /\
    tokenExpiry (this w') = Some (expires (payload info)) /\
    config (this w') = config (this w) /\
    trace w' = trace w ++ evs /\ existsb is_request evs = false.
Proof.
  intros Hsession Hmint.
  unfold refreshToken, M.bind, M.read, M.lift, M.update, M.ret.
  rewrite Hsession, Hmint.
  match goal with
  | |- context [scheduleTokenRefresh ?now ?w3] =>
      destruct (scheduleTokenRefresh_effect now w3)
        as (Hconfig & Hs & Htoken & Hexpiry & evs & Htrace & Hevs);
      pose proof (scheduleTokenRefresh_run now w3) as Hrun;
      destruct (scheduleTokenRefresh now w3) as [o w'] eqn:Hsched
  end.
  cbv zeta in *. cbn [snd] in *. injection Hrun as -> _.
  exists w', evs. rewrite Hconfig, Hs, Htoken, Hexpiry, Htrace. cbn.
  rewrite Hsession. done.
Qed.

(** X6.  [refreshToken] replaces the token and nothing else.  Without a
    session it returns and leaves the world as it is.  With a session it
    mints a token for the session's country and worker; if minting
    throws, the error leaves the call with the world unchanged;
    otherwise the new token and its expiry are stored, the session stays
    exactly as it was, identifier included, and nothing is sent to any
    endpoint: the relay is not told of the new token. *)
Theorem refreshToken_replaces_the_token_only `{Platform} (m : Mint) (now : Z) (w : World) :
  match currentSession (this w) with
  | None => refreshToken m now w = (Returned tt, w)
  | Some session =>
      match Token.generateSessionToken (config (this w)) m (Session.country session)
              (url (Session.worker session)) with
      | Returned info =>
          exists w' evs,
            refreshToken m now w = (Returned tt, w') /\
            currentSession (this w') = Some session /\
            sessionToken (this w') = Some (token info) /\
            tokenExpiry (this w') = Some (expires (payload info)) /\
            config (this w') = config (this w) /\
            trace w' = trace w ++ evs /\ existsb is_request evs = false
      | Threw e => refreshToken m now w = (Threw e, w)
      | Pending => refreshToken m now w = (Pending, w)
      end
  end.
Proof.
  destruct (currentSession (this w)) as [session|] eqn:Hsession.
  2:{ unfold refreshToken, M.bind, M.read, M.ret. by rewrite Hsession. }
  destruct (Token.generateSessionToken _ _ _ _) as [info|e|] eqn:Hmint.
  - by apply refreshToken_returns.
  - unfold refreshToken, M.bind, M.read, M.lift. by rewrite Hsession, Hmint.
  - unfold refreshToken, M.bind, M.read, M.lift. by rewrite Hsession, Hmint.
Qed.

Lemma connect_keeps_the_rest `{Platform} (env : ConnectEnv) (country : string)
    (w : World) :
  match connect env country w with
  | (Returned result, w') => True
  | (o, w') =>
      timers w' = timers w /\
      (currentSession (this w') = currentSession (this w) \/
       exists result e worker info,
         o = Threw e /\
         handshakeOutcome (handshakeReply env) = Returned result /\
         log_error result = Some e /\
         currentSession (this w') = Some (committed env country worker info))
  end.
Proof.
  rewrite connect_unfold.
  destruct (getBestWorker _ _ _) as [o1 w1] eqn:Hbest.
  apply getBestWorker_effect in Hbest as [endpoints ->].
  destruct o1 as [worker|e1|]; cbn [M.logged this config]; try by auto.
  destruct (Token.generateSessionToken _ _ _ _) as [info|e1|]; try by auto.
  cbv zeta. destruct (handshakeOutcome _) as [result|e1|] eqn:Hhs; try by auto.
  destruct (log_error result) as [e|] eqn:Hlog; [|done].
  split; [reflexivity|]. right. by exists result, e, worker, info.
Qed.

(** X7.  [switchCountry] ends with a session for the new country or
    with none; the session held before the switch is gone in every
    case.  Let at most one refresh timer be pending.  If the call
    returns, the current session is one for the new country, connected
    at this call's clock reading.  If it does not return, no timer is
    pending.  If it never settles, or throws for an unsupported country,
    for want of a healthy endpoint or for a refused handshake, the
    client is left without a session.  The one other way in which it
    throws is that the handshake was answered and the log lines of
    [connect] threw on the answer ([null], or a value that cannot be
    converted to a string): then the session for the new country is set,
    with no refresh timer. *)
Theorem switchCountry_ends_with_the_new_session_or_none `{Platform} (env : ConnectEnv)
    (newCountry : string) (w : World) :
  one_timer w ->
  match switchCountry env newCountry w with
  | (Returned result, w') =>
      exists session,
        currentSession (this w') = Some session /\
        Session.country session = newCountry /\
        Session.connectedAt session = connectedNow env
  | (Threw e, w') =>
      timers w' = [] /\
      (currentSession (this w') = None \/
       exists result session,
         handshakeOutcome (handshakeReply env) = Returned result /\
         log_error result = Some e /\
         currentSession (this w') = Some session /\
         Session.country session = newCountry /\
         Session.connectedAt session = connectedNow env)
  | (Pending, w') => timers w' = [] /\ currentSession (this w') = None
  end.
Proof.
  intros Hw. unfold switchCountry, M.bind.
  destruct (disconnect_one_timer w Hw) as [_ Htimers].
  rewrite disconnect_run in *. cbn [snd] in *. cbv zeta in *.
  match goal with
  | |- context [connect env newCountry ?w1] =>
      assert (Hnone : currentSession (this w1) = None);
      [|pose proof (connect_keeps_the_rest env newCountry w1) as Hkeep;
        destruct (connect env newCountry w1) as [[result|e|] w'] eqn:Hconnect]
  end.
  - destruct (currentSession (this w)) eqn:Hs,
      (tokenRefreshTimeout (this w)); cbn; done.
  - apply connect_returns in Hconnect as (worker & endpoints & info & _ & _ & ->).
    match goal with
    | |- context [scheduleTokenRefresh ?now ?w3] =>
        destruct (scheduleTokenRefresh_effect now w3) as (_ & Hsession & _)
    end.
    cbv zeta in Hsession. rewrite Hsession. by eexists.
  - destruct Hkeep as [-> Hsession]. split; [exact Htimers|].
    destruct Hsession as [->|(result & e' & worker & info & [= <-] & Hhs & Hlog & ->)];
      [by left|].
    right. by exists result, (committed env newCountry worker info).
  - destruct Hkeep as [-> Hsession]. split; [exact Htimers|].
    destruct Hsession as [->|(result & e' & worker & info & Ho & _)];
      [exact Hnone|discriminate].
Qed.

Lemma switchCountry_ends_with_the_new_session_or_none_example :
  let env := Examples.connect_at 1000 Examples.w1_times_out Examples.accepted in
  one_timer Examples.connected /\
  exists w',
    switchCountry (H := example_platform) env "EU" Examples.connected
    = (Threw (not_supported "EU"), w') /\
    timers w' = [] /\ currentSession (this w') = None.
Proof.
  cbv zeta. split; [vm_compute; reflexivity|].
  pose proof (switchCountry_ends_with_the_new_session_or_none (H := example_platform)
                (Examples.connect_at 1000 Examples.w1_times_out Examples.accepted) "EU"
                Examples.connected) as Hswitch.
  destruct (switchCountry _ _ _) as [o w'] eqn:Hrun.
  assert (Ho : o = Threw (not_supported "EU"))
    by (change o with (fst (o, w')); rewrite <- Hrun; vm_compute; reflexivity).
  subst o. exists w'. split; [reflexivity|].
  destruct Hswitch as [Htimers Hsession]; [vm_compute; reflexivity|].
  split; [exact Htimers|].
  destruct Hsession as [Hnone|(result & session & Hhs & Hlog & _)]; [exact Hnone|].
  vm_compute in Hhs. injection Hhs as <-. discriminate.
Defined.

(** X8.  [disconnect] returns and ends the session.  If at most one
    refresh timer is pending, then afterwards there is no current
    session and no pending timer, so that the firing of any timer
    handle runs no refresh; the configuration is untouched.  The token
    and its expiry are cleared when a session was set, and only then:
    a token left by a failed [connect] without a session stays. *)
Theorem disconnect_ends_the_session `{Platform} (w : World) :
  one_timer w ->
  exists w',
    disconnect w = (Returned tt, w') /\
    currentSession (this w') = None /\
    timers w' = [] /\
    config (this w') = config (this w) /\
    (forall h renv, fireTimer h renv w' = (Returned tt, w')) /\
    match currentSession (this w) with
    | Some _ => sessionToken (this w') = None /\ tokenExpiry (this w') = None
    | None =>
        sessionToken (this w') = sessionToken (this w) /\
        tokenExpiry (this w') = tokenExpiry (this w)
    end.
Proof.
  intros Hw. destruct (disconnect_one_timer w Hw) as [_ Htimers].
  rewrite disconnect_run in *. cbn [snd] in *. cbv zeta in *.
  eexists. split; [reflexivity|].
  split; [|split; [exact Htimers|split; [|split]]].
  - destruct (currentSession (this w)) eqn:Hs,
      (tokenRefreshTimeout (this w)); cbn; done.
  - destruct (currentSession (this w)), (tokenRefreshTimeout (this w)); reflexivity.
  - intros h renv. unfold fireTimer. by rewrite Htimers.
  - destruct (currentSession (this w)), (tokenRefreshTimeout (this w)); cbn; done.
Qed.

Lemma disconnect_ends_the_session_example :
  one_timer Examples.connected /\
  exists w',
    disconnect Examples.connected = (Returned tt, w') /\
    currentSession (this w') = None /\ timers w' = [].
Proof.
  split; [vm_compute; reflexivity|].
  destruct (disconnect_ends_the_session (H := example_platform) Examples.connected)
    as (w' & Hrun & Hsession & Htimers & _); [vm_compute; reflexivity|].
  by exists w'.
Defined.

(** ** The benchmark *)

Lemma rounds_results `{Platform} (country : string) (rs : list Round) (i : nat)
    (results : list Result) (w : World) :
  match rounds country i rs results w with
  | (Returned results', _) =>
      List.map iteration_of results' =
        List.map iteration_of results ++ seq i (List.length rs)
  | (Threw _, _) => False
  | (Pending, _) => True
  end.
Proof.
  revert i results w. induction rs as [|r rest IH]; intros i results w.
  - cbn. by rewrite app_nil_r.
  - cbn [rounds]. unfold M.bind. rewrite round_run.
    destruct (connect _ _ _) as [[result|e|] w1]; [| |done].
    + specialize (IH (S i)
                    (results ++ [Success i (connectedAtNow r - startNow r)
                                   (requestEndNow r - requestStartNow r)])
                    (disconnect w1).2).
      destruct (rounds _ _ _ _ _) as [[results'|e|] w2]; try done.
      rewrite IH, List.map_app. cbn. by rewrite <- app_assoc.
    + specialize (IH (S i) (results ++ [Failure i e]) w1).
      destruct (rounds _ _ _ _ _) as [[results'|e'|] w2]; try done.
      rewrite IH, List.map_app. cbn. by rewrite <- app_assoc.
Qed.

Lemma rounds_recorded `{Platform} (country : string) (rs : list Round) (i : nat)
    (results : list Result) (w : World) :
  match rounds country i rs results w with
  | (Returned results', w') =>
      exists new, results' = results ++ new /\ recorded country i rs w new w'
  | (Threw _, _) => False
  | (Pending, _) => True
  end.
Proof.
  revert i results w. induction rs as [|r rest IH]; intros i results w.
  - cbn. exists []. split; [by rewrite app_nil_r|constructor].
  - cbn [rounds]. unfold M.bind. rewrite round_run.
    destruct (connect _ _ _) as [[result|e|] w1] eqn:Hconnect; [| |done].
    + specialize (IH (S i)
                    (results ++ [Success i (connectedAtNow r - startNow r)
                                   (requestEndNow r - requestStartNow r)])
                    (disconnect w1).2).
      destruct (rounds _ _ _ _ _) as [[results'|e|] w2]; try done.
      destruct IH as (new & -> & Hrec). eexists. rewrite <- app_assoc.
      split; [reflexivity|]. by eapply recorded_success.
    + specialize (IH (S i) (results ++ [Failure i e]) w1).
      destruct (rounds _ _ _ _ _) as [[results'|e'|] w2]; try done.
      destruct IH as (new & -> & Hrec). eexists. rewrite <- app_assoc.
      split; [reflexivity|]. by eapply recorded_failure.
Qed.

(** X9.  [benchmark] never throws, whatever its rounds do.  When it
    completes, what it has recorded is one result for each round,
    numbered from 1 in order: for a round whose [connect] returns, a
    success with the connection time and the request time measured in
    that round, after which [disconnect] has run; for a round whose
    [connect] throws, a failure with the error thrown, after which the
    loop has gone on.  Its statistics are taken over the successes
    alone: they are missing when no round succeeded, and otherwise give
    the number of successes, between one and the number of rounds, and
    the sums of their connection times and of their request times. *)
Theorem benchmark_records_every_round `{Platform} (rs : list Round) (country : string)
    (w : World) :
  match benchmark rs country w with
  | (Returned report, w') =>
      recorded country 1 rs w (results report) w' /\
      List.map iteration_of (results report) = seq 1 (List.length rs) /\
      let successes := List.filter is_success (results report) in
      statistics report =
        match successes with
        | [] => None
        | _ => Some (List.length successes,
                     sum (List.map connectionTime_of successes),
                     sum (List.map requestTime_of successes))
        end /\
      (List.length successes <= List.length rs)%nat
  | (Threw _, _) => False
  | (Pending, _) => True
  end.
Proof.
  unfold benchmark, M.bind, M.ret.
  pose proof (rounds_results country rs 1 [] w) as Hr.
  pose proof (rounds_recorded country rs 1 [] w) as Hrec.
  destruct (rounds _ _ _ _ _) as [[results'|e|] w1]; try done.
  cbn [results statistics]. cbn in Hr.
  destruct Hrec as (new & -> & Hrec). cbn [app] in *.
  split; [exact Hrec|]. split; [exact Hr|]. cbv zeta.
  assert (Hlen : List.length new = List.length rs).
  { rewrite <- (List.length_map iteration_of), Hr. apply length_seq. }
  pose proof (List.filter_length_le is_success new) as Hle.
  split; [|lia].
  by destruct (List.filter is_success new).
Qed.

(** * Properties of the relay *)

(** ** Values and the session store *)

Lemma same_eq (a b : Json) : JSValue.same a b = true -> a = b.
Proof.
  destruct a, b; cbn; try discriminate; intros E.
  - reflexivity.
  - by apply Bool.eqb_prop in E as ->.
  - by apply Z.eqb_eq in E as ->.
  - by apply String.eqb_eq in E as ->.
Qed.

Lemma same_refl (a b : Json) : JSValue.same a b = true -> JSValue.same b b = true.
Proof. intros E. pose proof (same_eq a b E) as ->. exact E. Qed.

Lemma get_set (k : Json) (v : Stored.t) (m : Sessions.t) :
  JSValue.same k k = true -> Sessions.get k (Sessions.set k v m) = Some v.
Proof.
  intros Hk. induction m as [|[k' v'] rest IH]; cbn; [by rewrite Hk|].
  destruct (JSValue.same k k') eqn:E; cbn; rewrite E; [reflexivity|exact IH].
Qed.

Lemma get_In (k : Json) (v : Stored.t) (m : Sessions.t) :
  Sessions.get k m = Some v -> In (k, v) m.
Proof.
  induction m as [|[k' v'] rest IH]; cbn; [discriminate|].
  destruct (JSValue.same k k') eqn:E.
  - intros [= ->]. left. by rewrite (same_eq k k' E).
  - auto.
Qed.

Lemma In_keys (k : Json) (v : Stored.t) (m : Sessions.t) :
  In (k, v) m -> In k (List.map fst m).
Proof. intros Hin. apply (List.in_map fst) in Hin. exact Hin. Qed.

Lemma In_get (k : Json) (v : Stored.t) (m : Sessions.t) :
  NoDup (List.map fst m) -> JSValue.same k k = true ->
  In (k, v) m -> Sessions.get k m = Some v.
Proof.
  intros Hnd Hk. induction m as [|[k' v'] rest IH]; cbn; [done|].
  apply NoDup_cons in Hnd as [Hnotin Hnd]. intros [[= -> ->]|Hin].
  - by rewrite Hk.
  - destruct (JSValue.same k k') eqn:E; [|by apply IH].
    apply same_eq in E as <-. exfalso. apply Hnotin.
    apply list_elem_of_In. by eapply In_keys.
Qed.

Lemma In_set (k k' : Json) (v s : Stored.t) (m : Sessions.t) :
  In (k', s) (Sessions.set k v m) ->
  In (k', s) m \/ (s = v /\ k' = k).
Proof.
  induction m as [|[k0 v0] rest IH]; cbn.
  - intros [[= <- <-]|[]]. by right.
  - destruct (JSValue.same k k0) eqn:E; cbn.
    + intros [[= <- <-]|Hin]; [|by left; right].
      right. by rewrite (same_eq k k0 E).
    + intros [Heq|Hin]; [by left; left|].
      destruct (IH Hin) as [?|?]; [left; by right|by right].
Qed.

Lemma keys_set (k : Json) (v : Stored.t) (m : Sessions.t) :
  JSValue.same k k = true ->
  NoDup (List.map fst m) -> NoDup (List.map fst (Sessions.set k v m)).
Proof.
  intros Hk. induction m as [|[k0 v0] rest IH]; cbn.
  - intros _. apply NoDup_singleton.
  - intros [Hnotin Hnd]%NoDup_cons.
    destruct (JSValue.same k k0) eqn:E; cbn; apply NoDup_cons.
    + by split.
    + split; [|by apply IH].
      intros Hin%list_elem_of_In%in_map_iff. destruct Hin as ([k1 s1] & Hfst & Hin).
      cbn in Hfst. subst k1. apply In_set in Hin as [Hin|[_ ->]].
      * apply Hnotin, list_elem_of_In. by eapply In_keys.
      * by rewrite Hk in E.
Qed.

Lemma keys_filter (f : Json * Stored.t -> bool) (m : Sessions.t) :
  NoDup (List.map fst m) -> NoDup (List.map fst (List.filter f m)).
Proof.
  induction m as [|kv rest IH]; cbn; [done|].
  intros [Hnotin Hnd]%NoDup_cons.
  destruct (f kv); cbn; [|by apply IH].
  apply NoDup_cons. split; [|by apply IH].
  intros Hin%list_elem_of_In%in_map_iff. destruct Hin as (kv' & Hfst & Hin).
  apply List.filter_In in Hin as [Hin _].
  apply Hnotin, list_elem_of_In. rewrite <- Hfst. by apply List.in_map.
Qed.

Lemma get_filter (f : Stored.t -> bool) (k : Json) (v : Stored.t) (m : Sessions.t) :
  Sessions.get k m = Some v -> f v = true ->
  Sessions.get k (List.filter (fun kv => f (snd kv)) m) = Some v.
Proof.
  intros Hget Hf. induction m as [|[k' v'] rest IH]; cbn in *; [done|].
  destruct (JSValue.same k k') eqn:E.
  - injection Hget as ->. rewrite Hf. cbn. by rewrite E.
  - destruct (f v'); cbn; rewrite ?E; by apply IH.
Qed.

(** ** Tokens at the relay *)

(** On strings the relay's [validateToken] is the function of the
    claims. *)
Lemma validateToken_strings `{Platform} (now : Z) (token sessionId : string) :
  DenoWorker.validateToken now (JStr token) (JStr sessionId)
  = Token.validateToken now token sessionId.
Proof.
  unfold DenoWorker.validateToken, Token.validateToken, Token.validate_with.
  destruct (negb (Str.truthy token)); [reflexivity|].
  destruct (negb _); [reflexivity|].
  destruct (Base64.atob _); [|reflexivity].
  destruct (JSON_parse _) as [p|]; [|reflexivity].
  destruct (JS.get p "expires"), (JS.get p "sessionId") as [sid|]; try reflexivity.
  destruct (JS.throws_on_conversion _); [reflexivity|].
  destruct (JS.gt _ _); [reflexivity|].
  by destruct sid as [[]|].
Qed.

Lemma validateToken_inv `{Platform} (now : Z) (token sessionId payload : Json) :
  DenoWorker.validateToken now token sessionId = Some payload ->
  exists t,
    token = JStr t /\
    Spec.wire_payload Base64.atob t = Some payload /\
    Spec.field payload "sessionId" = Some sessionId /\
    JS.gt now (Spec.field payload "expires") = false /\
    JSValue.same sessionId sessionId = true.
Proof.
  destruct token as [| | |t| |]; try discriminate.
  intros Hvalid. exists t. split; [reflexivity|]. revert Hvalid.
  unfold DenoWorker.validateToken, Spec.wire_payload, Spec.field.
  destruct (Str.truthy t); cbn [negb]; [|discriminate].
  destruct (List.length (Str.split Str.dot t) =? 3)%nat eqn:Hlen; cbn [negb];
    [|discriminate].
  apply length_three in Hlen as (a & b & c & ->). cbn [nth].
  destruct (Base64.atob b) as [text|]; [|discriminate].
  destruct (JSON_parse text) as [p|]; [|discriminate].
  destruct (JS.get p "expires") as [e|] eqn:He,
    (JS.get p "sessionId") as [sid|] eqn:Hs; try discriminate.
  destruct (JS.throws_on_conversion e) eqn:Hthrows; [discriminate|].
  destruct (JS.gt now e) eqn:Hgt; [discriminate|].
  destruct sid as [sid|]; cbn; [|discriminate].
  destruct (JSValue.same sid sessionId) eqn:Hsame; cbn; [|discriminate].
  intros [= <-]. pose proof (same_eq _ _ Hsame) as ->.
  by rewrite He, Hs, Hsame.
Qed.

(** The clock enters [validateToken] through the comparison with the
    payload's expiry alone. *)
Lemma validateToken_earlier `{Platform} (now now' : Z) (token sessionId payload : Json) :
  DenoWorker.validateToken now token sessionId = Some payload ->
  JS.gt now' (Spec.field payload "expires") = false ->
  DenoWorker.validateToken now' token sessionId = Some payload.
Proof.
  unfold DenoWorker.validateToken, Spec.field.
  destruct token as [| | |t| |]; try discriminate.
  destruct (negb (Str.truthy t)); [discriminate|].
  destruct (negb _); [discriminate|].
  destruct (Base64.atob _) as [text|]; [|discriminate].
  destruct (JSON_parse text) as [p|]; [|discriminate].
  destruct (JS.get p "expires") as [e|] eqn:He, (JS.get p "sessionId") as [sid|];
    try discriminate.
  destruct (JS.throws_on_conversion e); [discriminate|].
  destruct (JS.gt now e); [discriminate|].
  destruct (negb _); [discriminate|].
  intros [= <-]. rewrite He. by intros ->.
Qed.

(** ** The handshake *)

Lemma handleConnect_cases `{Platform} `{DateRuntime} (request : Request) (call : Call)
    (sessions : Sessions.t) :
  let answer := DenoWorker.handleConnect request call sessions in
  (answer.2 = sessions /\
   (Response.status answer.1 = 400 \/ Response.status answer.1 = 401 \/
    Response.status answer.1 = 500)) \/
  (exists body token sessionId payload,
     json request = inr body /\
     JS.get body "action" = Some (Some (JStr "connect")) /\
     JS.get body "token" = Some (Some token) /\
     JS.get body "sessionId" = Some (Some sessionId) /\
     JSValue.truthy (Some sessionId) = true /\
     DenoWorker.validateToken (validateNow call) token sessionId = Some payload /\
     answer.2 = Sessions.set sessionId (Relay.session_of call sessionId payload) sessions /\
     answer.1 =
       match JSValue.time_value (Spec.field payload "expires") with
       | Some sessionExpires =>
           DenoWorker.respond 200 (ConnectedBody sessionId (info call) sessionExpires)
       | None => DenoWorker.respond 500 (InternalErrorBody "Invalid time value")
       end).
Proof.
  cbv zeta. unfold DenoWorker.handleConnect.
  destruct (json request) as [message|body] eqn:Hbody; [left; cbn; auto|].
  destruct (JS.get body "token") as [token|] eqn:Htoken,
    (JS.get body "sessionId") as [sessionId|] eqn:Hsid,
    (JS.get body "action") as [action|] eqn:Haction; try (left; cbn; by auto).
  destruct (JS.strict_ne_string action "connect") eqn:Hact; [left; cbn; by auto|].
  destruct (negb (JSValue.truthy token)); [left; cbn; by auto|].
  destruct (JSValue.truthy sessionId) eqn:Htruthy; cbn [negb];
    [|left; cbn; by auto].
  cbn [orb].
  destruct token as [token|], sessionId as [sessionId|]; try (left; cbn; by auto).
  destruct (DenoWorker.validateToken _ _ _) as [payload|] eqn:Hvalid;
    [|left; cbn; by auto].
  right. exists body, token, sessionId, payload.
  assert (action = Some (JStr "connect")) as ->.
  { destruct action as [[| | |a| |]|]; try discriminate.
    cbn in Hact. apply negb_false_iff, String.eqb_eq in Hact. by subst. }
  repeat split; try done.
  - unfold Relay.session_of. by destruct (JSValue.time_value _).
  - by destruct (JSValue.time_value _).
Qed.

Lemma get_set_other (k k' : Json) (v : Stored.t) (m : Sessions.t) :
  JSValue.same k k' = false ->
  Sessions.get k' (Sessions.set k v m) = Sessions.get k' m.
Proof.
  intros Hother. induction m as [|[k0 v0] rest IH]; cbn.
  - destruct (JSValue.same k' k) eqn:E; [|reflexivity].
    pose proof (same_eq _ _ E) as ->. by rewrite E in Hother.
  - destruct (JSValue.same k k0) eqn:E; cbn.
    + destruct (JSValue.same k' k0) eqn:E'; [|reflexivity].
      pose proof (same_eq _ _ E) as ->. pose proof (same_eq _ _ E') as ->.
      by rewrite E in Hother.
    + by rewrite IH.
Qed.

(** X10.  The handshake stores a session only for a token that
    validates, and then changes nothing else.  Either [handleConnect]
    leaves the store as it is and answers 400, 401 or 500; or the
    request body is a JSON value with [action] equal to ['connect'] and
    truthy [token] and [sessionId], the token is a string of three
    segments whose payload names that [sessionId] and has not expired at
    the relay's clock reading, and the store is the old one with the
    session made from the payload filed under [sessionId]: the lookup of
    [sessionId] gives that session, and the lookup of every other
    identifier gives what it gave before.  The answer is then 200 with
    the payload's expiry as [sessionExpires] when that expiry is a valid
    date, and 500 with [Invalid time value] when it is not. *)
Theorem handleConnect_stores_only_validated `{Platform} `{DateRuntime}
    (request : Request) (call : Call) (sessions : Sessions.t) :
  let answer := DenoWorker.handleConnect request call sessions in
  (answer.2 = sessions /\
   (Response.status answer.1 = 400 \/ Response.status answer.1 = 401 \/
    Response.status answer.1 = 500)) \/
  (exists body token sessionId payload,
     json request = inr body /\
     JS.get body "action" = Some (Some (JStr "connect")) /\
     JS.get body "token" = Some (Some (JStr token)) /\
     JS.get body "sessionId" = Some (Some sessionId) /\
     JSValue.truthy (Some sessionId) = true /\
     Spec.wire_payload Base64.atob token = Some payload /\
     Spec.field payload "sessionId" = Some sessionId /\
     JS.gt (validateNow call) (Spec.field payload "expires") = false /\
     answer.2 = Sessions.set sessionId (Relay.session_of call sessionId payload) sessions /\
     Sessions.get sessionId answer.2 = Some (Relay.session_of call sessionId payload) /\
     (forall k, JSValue.same sessionId k = false ->
                Sessions.get k answer.2 = Sessions.get k sessions) /\
     (forall k s, In (k, s) answer.2 ->
        In (k, s) sessions \/
        (k = sessionId /\ s = Relay.session_of call sessionId payload)) /\
     answer.1 =
       match JSValue.time_value (Spec.field payload "expires") with
       | Some sessionExpires =>
           DenoWorker.respond 200 (ConnectedBody sessionId (info call) sessionExpires)
       | None => DenoWorker.respond 500 (InternalErrorBody "Invalid time value")
       end).
Proof.
  cbv zeta.
  destruct (handleConnect_cases request call sessions)
    as [?|(body & token & sessionId & payload & Hbody & Haction & Htoken & Hsid
           & Htruthy & Hvalid & Hstore & Hanswer)]; [by left|].
  right.
  apply validateToken_inv in Hvalid as (t & -> & Hwire & Hfield & Hgt & Hsame).
  exists body, t, sessionId, payload.
  rewrite Hstore. repeat split; try done.
  - by apply get_set.
  - intros k Hother. by apply get_set_other.
  - intros k s Hin. apply In_set in Hin as [?|[-> ->]]; auto.
Qed.

(** X11.  The relay accepts the handshake of the client.  Take a token
    that [generateSessionToken] has minted, with a session identifier
    that is not empty, an expiry within the range of valid dates, and an
    ASCII payload text whose base64url form uses neither [-] nor [_] and
    which [JSON.parse] reads back.  A request whose body is the one [establishConnection]
    posts, handled while the token has not expired, is answered 200 with
    the token's expiry as [sessionExpires], and the session is filed
    under the token's session identifier with the token's expiry and
    country. *)
Theorem handleConnect_accepts_the_client_handshake `{Platform} `{DateRuntime}
    (cfg : Config) (m : Mint) (region workerId : string) (minted : SessionInfo)
    (request : Request) (call : Call) (sessions : Sessions.t) :
  Token.generateSessionToken cfg m region workerId = Returned minted ->
  let p := payload minted in
  let text := JS.JSON_stringify (Token.json_of_payload p) in
  Str.truthy (sessionId p) = true ->
  Spec.is_ascii text = true ->
  Str.mem "-" (Base64.base64url text) = false ->
  Str.mem "_" (Base64.base64url text) = false ->
  JSON_parse text = Some (Token.json_of_payload p) ->
  json request = inr (Relay.handshake_body (token minted) (sessionId p)) ->
  validateNow call <= expires p ->
  Z.abs (expires p) <= 8640000000000000 ->
  DenoWorker.handleConnect request call sessions =
    (DenoWorker.respond 200
       (ConnectedBody (JStr (sessionId p)) (info call) (expires p)),
     Sessions.set (JStr (sessionId p))
       {| Stored.sessionId := JStr (sessionId p);
          Stored.created := createdNow call;
          Stored.expires := Some (JNum (expires p));
          Stored.country := Some (JStr region);
          Stored.clientInfo := info call;
          Stored.lastActivity := activityNow call |}
       sessions).
Proof.
  intros Hmint p text Htruthy Hascii H1 H2 Hparse Hbody Hnow Hrange.
  pose proof (validateToken_accepts_standard_payload cfg m region workerId minted
                (validateNow call) Hmint Hascii H1 H2 Hparse Hnow) as Hvalid.
  rewrite <- validateToken_strings in Hvalid.
  assert (Hcountry : country p = region).
  { revert Hmint. unfold Token.generateSessionToken.
    destruct (entropy m); [discriminate|]. by intros [= <-]. }
  unfold DenoWorker.handleConnect. rewrite Hbody.
  cbn [Relay.handshake_body JS.get JS.assoc String.eqb Ascii.eqb Bool.eqb].
  cbn [JS.strict_ne_string String.eqb Ascii.eqb Bool.eqb negb orb JSValue.truthy].
  rewrite (generated_token_truthy _ _ _ _ _ Hmint). cbn [negb orb].
  fold p. rewrite Htruthy. cbn [negb].
  fold p in Hvalid. rewrite Hvalid.
  unfold Spec.field, Token.json_of_payload. cbn [JS.get JS.assoc String.eqb Ascii.eqb Bool.eqb].
  unfold JSValue.time_value.
  rewrite (proj2 (Z.leb_le _ _) Hrange), Hcountry. reflexivity.
Qed.

Lemma handleConnect_accepts_the_client_handshake_example :
  DenoWorker.handleConnect (H := example_platform) (H0 := example_dates)
    (RelayExamples.handshake 1000) (RelayExamples.call_at 2000) [] =
    (DenoWorker.respond 200
       (ConnectedBody (JStr Examples.uuid1) RelayExamples.client_info 301000),
     [(JStr Examples.uuid1,
       {| Stored.sessionId := JStr Examples.uuid1;
          Stored.created := 2000;
          Stored.expires := Some (JNum 301000);
          Stored.country := Some (JStr "US");
          Stored.clientInfo := RelayExamples.client_info;
          Stored.lastActivity := 2000 |})]).
Proof.
  apply (handleConnect_accepts_the_client_handshake (H := example_platform)
           (H0 := example_dates) default_config (Examples.mint_at 1000) "US"
           RelayExamples.default_worker _ (RelayExamples.handshake 1000)
           (RelayExamples.call_at 2000) [] eq_refl);
    vm_compute; first [reflexivity | discriminate].
Defined.

(** X12.  A token without an expiry makes a session that never ends.
    Let a handshake carry a token that validates and whose payload has
    no [expires].  The relay answers 500, [Invalid time value], and yet
    the session is stored.  The token validates at every later time;
    no cleanup, at whatever time, removes the session; and [handleProxy]
    never finds it expired. *)
Theorem session_without_expiry_never_ends `{Platform} `{DateRuntime}
    (request : Request) (call : Call) (sessions : Sessions.t)
    (token sessionId : string) (payload : Json) :
  json request = inr (Relay.handshake_body token sessionId) ->
  Str.truthy sessionId = true ->
  DenoWorker.validateToken (validateNow call) (JStr token) (JStr sessionId)
    = Some payload ->
  Spec.field payload "expires" = None ->
  exists sessions' session,
    DenoWorker.handleConnect request call sessions =
      (DenoWorker.respond 500 (InternalErrorBody "Invalid time value"), sessions') /\
    Sessions.get (JStr sessionId) sessions' = Some session /\
    forall now,
      DenoWorker.validateToken now (JStr token) (JStr sessionId) = Some payload /\
      Sessions.get (JStr sessionId) (DenoWorker.cleanupExpiredSessions now sessions')
        = Some session /\
      JS.gt now (Stored.expires session) = false.
Proof.
  intros Hbody Htruthy Hvalid Hexpires.
  pose proof Hvalid as Hinv.
  apply validateToken_inv in Hinv as (t & [= <-] & _ & _ & _ & Hsame).
  assert (Htoken : Str.truthy token = true).
  { revert Hvalid. unfold DenoWorker.validateToken.
    by destruct (Str.truthy token). }
  eexists _, (Relay.session_of call (JStr sessionId) payload).
  split; [|split].
  - unfold DenoWorker.handleConnect. rewrite Hbody.
    cbn [Relay.handshake_body JS.get JS.assoc String.eqb Ascii.eqb Bool.eqb].
    cbn [JS.strict_ne_string String.eqb Ascii.eqb Bool.eqb negb orb JSValue.truthy].
    rewrite Htoken, Htruthy. cbn [negb orb].
    rewrite Hvalid, Hexpires. cbn [JSValue.time_value]. reflexivity.
  - unfold Relay.session_of. rewrite Hexpires. by apply get_set.
  - intros now.
    assert (Hgt : JS.gt now (Stored.expires
                               (Relay.session_of call (JStr sessionId) payload)) = false)
      by (cbn; by rewrite Hexpires).
    split; [|split; [|exact Hgt]].
    + apply (validateToken_earlier (validateNow call)); [exact Hvalid|].
      by rewrite Hexpires.
    + unfold DenoWorker.cleanupExpiredSessions.
      apply (get_filter (fun s => negb (JS.gt now (Stored.expires s)))).
      * unfold Relay.session_of. rewrite Hexpires. by apply get_set.
      * by rewrite Hgt.
Qed.

Lemma session_without_expiry_never_ends_example :
  let request :=
    {| method := "POST"; path := "/connect"; headers := ∅;
       json := inr (Relay.handshake_body RelayExamples.token_without_expiry "s1");
       target := None |} in
  exists sessions' session,
    DenoWorker.handleConnect (H := example_platform) (H0 := example_dates)
      request (RelayExamples.call_at 2000) [] =
      (DenoWorker.respond 500 (InternalErrorBody "Invalid time value"), sessions') /\
    Sessions.get (JStr "s1") sessions' = Some session /\
    forall now,
      DenoWorker.validateToken (H := example_platform) now
        (JStr RelayExamples.token_without_expiry) (JStr "s1")
      = Some (JObj [("sessionId", JStr "s1")]%string) /\
      Sessions.get (JStr "s1")
        (DenoWorker.cleanupExpiredSessions (H := example_platform) now sessions')
        = Some session /\
      JS.gt (H := example_platform) now (Stored.expires session) = false.
Proof.
  cbv zeta.
  apply (session_without_expiry_never_ends (H := example_platform)
           (H0 := example_dates)); vm_compute; reflexivity.
Defined.

(** ** Proxied requests *)

Lemma get_delete (k : Json) (m : Sessions.t) :
  Sessions.get k (Sessions.delete k m) = None.
Proof.
  unfold Sessions.delete. induction m as [|[k' v'] rest IH]; cbn; [reflexivity|].
  destruct (JSValue.same k k') eqn:E; cbn; rewrite ?E; exact IH.
Qed.

Lemma handleProxy_forwarded `{Platform} (request : Request) (call : Call)
    (sessions sessions' : Sessions.t) (response : Response.t) (sent : ProxyRequest) :
  DenoWorker.handleProxy request call sessions = (response, sessions', Some sent) ->
  exists sessionId authorization session payload targetUrl,
    headers request !! "x-session-id"%string = Some sessionId /\
    headers request !! "authorization"%string = Some authorization /\
    Sessions.get (JStr sessionId) sessions = Some session /\
    JS.gt (sessionNow call) (Stored.expires session) = false /\
    DenoWorker.validateToken (validateNow call)
      (JStr (JSValue.remove_first "Bearer " authorization)) (JStr sessionId)
      = Some payload /\
    target request = Some targetUrl /\
    Str.truthy targetUrl = true /\
    sent =
      {| proxyTarget := targetUrl;
         proxyMethod := method request;
         proxyHeaders :=
           <["x-original-country"%string := clientCountry (Stored.clientInfo session)]>
             (<["x-forwarded-for"%string := ip (Stored.clientInfo session)]>
                (<["user-agent"%string := "PseudoVPN-Deno/1.0"%string]>
                   (filter (fun kv => fst kv ∉ DenoWorker.internal_headers)
                      (headers request))));
         proxyBody :=
           negb (String.eqb (method request) "GET")
           && negb (String.eqb (method request) "HEAD") |}.
Proof.
  unfold DenoWorker.handleProxy.
  destruct (headers request !! "x-session-id"%string) as [sessionId|] eqn:Hsid;
    [|discriminate].
  destruct (headers request !! "authorization"%string) as [authorization|] eqn:Hauth;
    [|discriminate].
  cbn [fmap option_fmap option_map].
  destruct (negb (Str.truthy sessionId) || negb (Str.truthy _)); [discriminate|].
  destruct (Sessions.get (JStr sessionId) sessions) as [session|] eqn:Hget;
    [|discriminate].
  destruct (JS.gt _ _) eqn:Hgt; [discriminate|].
  destruct (DenoWorker.validateToken _ _ _) as [payload|] eqn:Hvalid; [|discriminate].
  destruct (target request) as [targetUrl|] eqn:Htarget; [|discriminate].
  destruct (Str.truthy targetUrl) eqn:Htruthy; cbn [negb]; [|discriminate].
  destruct (upstream call); [discriminate|..]; intros [= <- <- <-];
    by exists sessionId, authorization, session, payload, targetUrl.
Qed.

(** What [handleProxy] does to the store. *)
Lemma handleProxy_store `{Platform} (request : Request) (call : Call)
    (sessions : Sessions.t) :
  let answer := DenoWorker.handleProxy request call sessions in
  answer.1.2 = sessions \/
  (exists sessionId,
     headers request !! "x-session-id"%string = Some sessionId /\
     answer = (DenoWorker.respond 401 (TextBody "Session expired"),
               Sessions.delete (JStr sessionId) sessions, None)) \/
  (exists sessionId session,
     headers request !! "x-session-id"%string = Some sessionId /\
     Sessions.get (JStr sessionId) sessions = Some session /\
     JS.gt (sessionNow call) (Stored.expires session) = false /\
     answer.1.2 =
       Sessions.set (JStr sessionId)
         {| Stored.sessionId := Stored.sessionId session;
            Stored.created := Stored.created session;
            Stored.expires := Stored.expires session;
            Stored.country := Stored.country session;
            Stored.clientInfo := Stored.clientInfo session;
            Stored.lastActivity := activityNow call |}
         sessions).
Proof.
  cbv zeta. unfold DenoWorker.handleProxy.
  destruct (headers request !! "x-session-id"%string) as [sessionId|] eqn:Hsid;
    [|by left].
  destruct (headers request !! "authorization"%string) as [authorization|] eqn:Hauth;
    [|by left].
  cbn [fmap option_fmap option_map].
  destruct (negb (Str.truthy sessionId) || negb (Str.truthy _)); [by left|].
  destruct (Sessions.get (JStr sessionId) sessions) as [session|] eqn:Hget;
    [|right; left; by exists sessionId].
  destruct (JS.gt _ _) eqn:Hgt; [right; left; by exists sessionId|].
  destruct (DenoWorker.validateToken _ _ _) as [payload|] eqn:Hvalid; [|by left].
  destruct (target request) as [targetUrl|] eqn:Htarget; [|by left].
  destruct (Str.truthy targetUrl) eqn:Htruthy; cbn [negb]; [|by left].
  right; right. exists sessionId, session.
  by destruct (upstream call).
Qed.

(** X13.  [handleProxy] hands a request to the target only for a live
    session and a token of that session.  Whenever a request goes out,
    the incoming one carried [X-Session-ID] and [Authorization]; the
    session of that identifier is in the store and has not expired at
    the relay's clock; the authorization, less its first [Bearer ], is a
    token of three segments whose payload names the same session
    identifier and has not expired either; and the request goes to the
    [url] parameter, which is not empty, with the incoming method, and
    with a body unless the method is GET or HEAD. *)
Theorem handleProxy_forwards_only_for_a_live_session `{Platform} (request : Request)
    (call : Call) (sessions sessions' : Sessions.t) (response : Response.t)
    (sent : ProxyRequest) :
  DenoWorker.handleProxy request call sessions = (response, sessions', Some sent) ->
  exists sessionId authorization session payload,
    headers request !! "x-session-id"%string = Some sessionId /\
    headers request !! "authorization"%string = Some authorization /\
    Sessions.get (JStr sessionId) sessions = Some session /\
    JS.gt (sessionNow call) (Stored.expires session) = false /\
    Spec.wire_payload Base64.atob (JSValue.remove_first "Bearer " authorization)
      = Some payload /\
    Spec.field payload "sessionId" = Some (JStr sessionId) /\
    JS.gt (validateNow call) (Spec.field payload "expires") = false /\
    target request = Some (proxyTarget sent) /\
    proxyTarget sent <> EmptyString /\
    proxyMethod sent = method request /\
    (proxyBody sent = false <-> method request = "GET" \/ method request = "HEAD")%string.
Proof.
  intros Hrun.
  apply handleProxy_forwarded in Hrun
    as (sessionId & authorization & session & payload & targetUrl & Hsid & Hauth
        & Hget & Hgt & Hvalid & Htarget & Htruthy & ->).
  apply validateToken_inv in Hvalid as (t & [= <-] & Hwire & Hfield & Hexp & _).
  exists sessionId, authorization, session, payload. cbn.
  repeat split; try done.
  - intros ->. discriminate.
  - intros [E|E]%andb_false_iff; apply negb_false_iff, String.eqb_eq in E; auto.
  - intros [->| ->]; reflexivity.
Qed.

Lemma handleProxy_forwards_only_for_a_live_session_example :
  let sessions :=
    (DenoWorker.handleConnect (H := example_platform) (H0 := example_dates)
       (RelayExamples.handshake 1000) (RelayExamples.call_at 2000) []).2 in
  exists response sessions' sent,
    DenoWorker.handleProxy (H := example_platform) (RelayExamples.proxied 1000)
      (RelayExamples.call_at 3000) sessions = (response, sessions', Some sent) /\
    proxyTarget sent = "https://example.org/"%string /\
    exists session,
      Sessions.get (JStr Examples.uuid1) sessions = Some session /\
      JS.gt (H := example_platform) 3000 (Stored.expires session) = false.
Proof.
  cbv zeta. eexists _, _, _. split; [vm_compute; reflexivity|].
  split; [reflexivity|].
  match goal with
  | |- context [Sessions.get _ ?sessions] =>
      destruct (handleProxy_forwards_only_for_a_live_session (H := example_platform)
                  (RelayExamples.proxied 1000) (RelayExamples.call_at 3000)
                  sessions _ _ _ eq_refl)
        as (sessionId & authorization & session & payload & Hsid & _ & Hget & Hgt & _)
  end.
  vm_compute in Hsid. injection Hsid as <-.
  exists session. split; [exact Hget|exact Hgt].
Defined.

(** X14.  The credentials of the session never reach the target, and
    the client cannot choose how it is presented.  In every request
    that [handleProxy] hands to the target there is no [Authorization],
    no [X-Session-ID] and no [Host] header; [User-Agent] is the relay's
    own; [X-Forwarded-For] and [X-Original-Country] are the address and
    the country recorded for the session at its handshake, whatever the
    incoming request says in headers of these names; and every other
    header is as it came in. *)
Theorem handleProxy_strips_the_credentials `{Platform} (request : Request)
    (call : Call) (sessions sessions' : Sessions.t) (response : Response.t)
    (sent : ProxyRequest) :
  DenoWorker.handleProxy request call sessions = (response, sessions', Some sent) ->
  proxyHeaders sent !! "authorization"%string = None /\
  proxyHeaders sent !! "x-session-id"%string = None /\
  proxyHeaders sent !! "host"%string = None /\
  proxyHeaders sent !! "user-agent"%string = Some "PseudoVPN-Deno/1.0"%string /\
  (exists sessionId session,
     headers request !! "x-session-id"%string = Some sessionId /\
     Sessions.get (JStr sessionId) sessions = Some session /\
     proxyHeaders sent !! "x-forwarded-for"%string
       = Some (ip (Stored.clientInfo session)) /\
     proxyHeaders sent !! "x-original-country"%string
       = Some (clientCountry (Stored.clientInfo session))) /\
  forall name : string,
    name ∉ ["authorization"; "x-session-id"; "host"; "user-agent"; "x-forwarded-for";
            "x-original-country"]%string ->
    proxyHeaders sent !! name = headers request !! name.
Proof.
  intros Hrun.
  apply handleProxy_forwarded in Hrun
    as (sessionId & authorization & session & payload & targetUrl & Hsid & Hauth
        & Hget & Hgt & Hvalid & Htarget & Htruthy & ->).
  cbn [proxyHeaders].
  assert (Hinternal : forall name : string,
             name ∈ DenoWorker.internal_headers ->
             filter (fun kv : string * string => kv.1 ∉ DenoWorker.internal_headers)
               (headers request) !! name = None).
  { intros name Hin. apply map_lookup_filter_None. right. intros v _ Hnot.
    by apply Hnot. }
  repeat split.
  - rewrite !lookup_insert_ne by done. apply Hinternal, list_elem_of_In. cbn. tauto.
  - rewrite !lookup_insert_ne by done. apply Hinternal, list_elem_of_In. cbn. tauto.
  - rewrite !lookup_insert_ne by done. apply Hinternal, list_elem_of_In. cbn. tauto.
  - rewrite !lookup_insert_ne by done. by rewrite lookup_insert.
  - exists sessionId, session. repeat split; try done.
    + rewrite lookup_insert_ne by done. by rewrite lookup_insert.
    + by rewrite lookup_insert.
  - intros name Hname.
    rewrite !lookup_insert_ne
      by (intros <-; apply Hname, list_elem_of_In; cbn; tauto).
    destruct (headers request !! name) as [v|] eqn:Hv.
    + apply map_lookup_filter_Some. split; [exact Hv|].
      cbn. intros Hin%list_elem_of_In. apply Hname, list_elem_of_In.
      cbn in *. tauto.
    + apply map_lookup_filter_None. by left.
Qed.

Lemma handleProxy_strips_the_credentials_example :
  let sessions :=
    (DenoWorker.handleConnect (H := example_platform) (H0 := example_dates)
       (RelayExamples.handshake 1000) (RelayExamples.call_at 2000) []).2 in
  match (DenoWorker.handleProxy (H := example_platform) (RelayExamples.proxied 1000)
           (RelayExamples.call_at 3000) sessions).2 with
  | Some sent =>
      proxyHeaders sent !! "authorization"%string = None /\
      proxyHeaders sent !! "user-agent"%string = Some "PseudoVPN-Deno/1.0"%string /\
      proxyHeaders sent !! "accept"%string = Some "text/html"%string
  | None => False
  end.
Proof.
  cbv zeta.
  destruct (DenoWorker.handleProxy _ _ _) as [[response sessions'] [sent|]] eqn:Hrun;
    [|vm_compute in Hrun; discriminate].
  destruct (handleProxy_strips_the_credentials (H := example_platform) _ _ _ _ _ _ Hrun)
    as (Hauth & _ & _ & Hagent & _ & Hrest).
  cbn [snd]. split; [exact Hauth|]. split; [exact Hagent|].
  rewrite Hrest; [vm_compute; reflexivity|].
  intros Hin. repeat (apply elem_of_cons in Hin as [Hin|Hin]; [discriminate|]).
  by apply elem_of_nil in Hin.
Defined.

Lemma In_delete (k k' : Json) (s : Stored.t) (m : Sessions.t) :
  In (k', s) (Sessions.delete k m) -> In (k', s) m.
Proof. unfold Sessions.delete. by intros [Hin _]%List.filter_In. Qed.

Lemma same_but_activity_refl (s : Stored.t) : Relay.same_but_activity s s.
Proof. by repeat split. Qed.

(** X15.  [handleProxy] never creates a session and never extends one.
    Every session in the store after the call was in the store before
    it under the same identifier, and the two differ at most in
    [lastActivity]: the expiry fixed at the handshake stays.  A request
    answered [Session expired] leaves no session under its identifier;
    one answered [Unauthorized], [Invalid token] or [Target URL required]
    leaves the store as it was. *)
Theorem handleProxy_never_extends_a_session `{Platform} (request : Request)
    (call : Call) (sessions : Sessions.t) :
  let answer := DenoWorker.handleProxy request call sessions in
  (forall k s', In (k, s') answer.1.2 ->
     exists s, In (k, s) sessions /\ Relay.same_but_activity s s') /\
  (forall sessionId,
     headers request !! "x-session-id"%string = Some sessionId ->
     Response.body answer.1.1 = TextBody "Session expired" ->
     Sessions.get (JStr sessionId) answer.1.2 = None) /\
  (Response.body answer.1.1 = TextBody "Unauthorized" \/
   Response.body answer.1.1 = TextBody "Invalid token" \/
   Response.body answer.1.1 = TextBody "Target URL required" ->
   answer.1.2 = sessions).
Proof.
  cbv zeta.
  destruct (handleProxy_store request call sessions)
    as [Hsame|[(sessionId & Hsid & Hrun)|(sessionId & session & Hsid & Hget & Hgt & Hset)]].
  - split; [|split].
    + intros k s' Hin. rewrite Hsame in Hin. exists s'.
      split; [exact Hin|apply same_but_activity_refl].
    + intros sessionId Hsid. revert Hsame. unfold DenoWorker.handleProxy.
      rewrite Hsid.
      destruct (headers request !! "authorization"%string) as [authorization|];
        [|discriminate].
      cbn [fmap option_fmap option_map].
      destruct (negb (Str.truthy sessionId) || negb (Str.truthy _)); [discriminate|].
      destruct (Sessions.get (JStr sessionId) sessions) as [session|] eqn:Hget.
      2:{ cbn. intros _ _. apply get_delete. }
      destruct (JS.gt _ _). { cbn. intros _ _. apply get_delete. }
      destruct (DenoWorker.validateToken _ _ _); [|discriminate].
      destruct (target request) as [targetUrl|]; [|discriminate].
      destruct (negb (Str.truthy targetUrl)); [discriminate|].
      by destruct (upstream call).
    + done.
  - rewrite Hrun. cbn. split; [|split].
    + intros k s' Hin%In_delete. exists s'.
      split; [exact Hin|apply same_but_activity_refl].
    + intros sid. rewrite Hsid. intros [= <-] _. apply get_delete.
    + intros [?|[?|?]]; discriminate.
  - split; [|split].
    + intros k s' Hin. rewrite Hset in Hin.
      apply In_set in Hin as [Hin|[-> ->]].
      * exists s'. split; [exact Hin|apply same_but_activity_refl].
      * exists session. split; [by apply get_In|by repeat split].
    + intros sid. rewrite Hsid. intros [= <-]. revert Hset.
      unfold DenoWorker.handleProxy. rewrite Hsid.
      destruct (headers request !! "authorization"%string) as [authorization|];
        [|discriminate].
      cbn [fmap option_fmap option_map].
      destruct (negb (Str.truthy sessionId) || negb (Str.truthy _)); [discriminate|].
      rewrite Hget, Hgt.
      destruct (DenoWorker.validateToken _ _ _); [|discriminate].
      destruct (target request) as [targetUrl|]; [|discriminate].
      destruct (negb (Str.truthy targetUrl)); [discriminate|].
      by destruct (upstream call).
    + revert Hset. unfold DenoWorker.handleProxy. rewrite Hsid.
      destruct (headers request !! "authorization"%string) as [authorization|];
        [|done].
      cbn [fmap option_fmap option_map].
      destruct (negb (Str.truthy sessionId) || negb (Str.truthy _)); [done|].
      rewrite Hget, Hgt.
      destruct (DenoWorker.validateToken _ _ _); [|done].
      destruct (target request) as [targetUrl|]; [|done].
      destruct (negb (Str.truthy targetUrl)); [done|].
      destruct (upstream call); cbn; intros _ [?|[?|?]]; discriminate.
Qed.

(** ** The store over the life of the relay *)

Lemma filed_filter (f : Json * Stored.t -> bool) (m : Sessions.t) :
  Relay.filed m -> Relay.filed (List.filter f m).
Proof.
  intros [Hall Hnd]. split; [|by apply keys_filter].
  apply List.Forall_forall. intros kv [Hin _]%List.filter_In.
  by apply (proj1 (List.Forall_forall _ _) Hall).
Qed.

Lemma filed_set (k : Json) (v : Stored.t) (m : Sessions.t) :
  Relay.filed m ->
  Stored.sessionId v = k -> JSValue.truthy (Some k) = true ->
  JSValue.same k k = true ->
  Relay.filed (Sessions.set k v m).
Proof.
  intros [Hall Hnd] Hid Htruthy Hsame. split; [|by apply keys_set].
  apply List.Forall_forall. intros [k' s] Hin.
  apply In_set in Hin as [Hin|[-> ->]]; [|done].
  by apply (proj1 (List.Forall_forall _ _) Hall).
Qed.

Lemma filed_In (k : Json) (s : Stored.t) (m : Sessions.t) :
  Relay.filed m -> In (k, s) m ->
  Stored.sessionId s = k /\ JSValue.truthy (Some k) = true /\ JSValue.same k k = true.
Proof.
  intros [Hall _] Hin. by apply (proj1 (List.Forall_forall _ _) Hall (k, s)).
Qed.

Lemma handleRequest_store `{Platform} `{DateRuntime} (request : Request) (call : Call)
    (sessions : Sessions.t) :
  let sessions' := (DenoWorker.handleRequest request call sessions).2 in
  sessions' = sessions \/
  sessions' = DenoWorker.cleanupExpiredSessions (cleanupNow call) sessions \/
  (method request = "POST"%string /\ path request = "/connect"%string /\
   sessions' = (DenoWorker.handleConnect request call sessions).2) \/
  sessions' = (DenoWorker.handleProxy request call sessions).1.2.
Proof.
  cbv zeta. unfold DenoWorker.handleRequest.
  destruct (String.eqb (method request) "OPTIONS"); [by left|].
  destruct (String.eqb (path request) "/health"); [right; by left|].
  destruct (String.eqb (path request) "/connect") eqn:Hpath.
  { destruct (String.eqb (method request) "POST") eqn:Hmethod; [|by left].
    apply String.eqb_eq in Hpath, Hmethod. right; right; left. done. }
  destruct (String.eqb (path request) "/proxy"); [by right; right; right|].
  destruct (_ || _); [by left|].
  destruct (String.eqb (path request) "/"); by left.
Qed.

Lemma step_filed `{Platform} `{DateRuntime} (sessions : Sessions.t) (s : Server.Step) :
  Relay.filed sessions -> Relay.filed (Server.step sessions s).
Proof.
  intros Hfiled. destruct s as [request call|now]; cbn [Server.step];
    [|by apply filed_filter].
  destruct (handleRequest_store request call sessions)
    as [->|[->|[(_ & _ & ->)| ->]]]; [done|by apply filed_filter|..].
  - destruct (handleConnect_cases request call sessions)
      as [[-> _]|(body & token & sessionId & payload & _ & _ & _ & _ & Htruthy
                  & Hvalid & -> & _)]; [done|].
    apply validateToken_inv in Hvalid as (_ & _ & _ & _ & _ & Hsame).
    by apply filed_set.
  - destruct (handleProxy_store request call sessions)
      as [->|[(sessionId & _ & ->)|(sessionId & session & _ & Hget & _ & ->)]];
      [done|by apply filed_filter|].
    apply get_In in Hget.
    destruct (filed_In _ _ _ Hfiled Hget) as (Hid & Htruthy & Hsame).
    by apply filed_set.
Qed.

Lemma run_filed `{Platform} `{DateRuntime} (steps : list Server.Step)
    (sessions : Sessions.t) :
  Relay.filed sessions -> Relay.filed (foldl Server.step sessions steps).
Proof.
  revert sessions. induction steps as [|s rest IH]; intros sessions Hfiled; [done|].
  cbn. by apply IH, step_filed.
Qed.

(** X16.  Whatever requests and cleanups the relay has gone through
    since it started, in whatever order, every session in its store is
    filed under its own [sessionId], which is a truthy string, number
    or boolean, and no identifier is filed twice; so the lookup of an
    identifier finds a session exactly when the session is in the
    store. *)
Theorem reachable_store_is_filed `{Platform} `{DateRuntime} (steps : list Server.Step) :
  Relay.filed (Server.run steps) /\
  forall k s, In (k, s) (Server.run steps) <-> Sessions.get k (Server.run steps) = Some s.
Proof.
  assert (Hfiled : Relay.filed (Server.run steps)).
  { apply run_filed. split; [constructor|apply NoDup_nil_2]. }
  split; [exact Hfiled|].
  intros k s. split; [|apply get_In].
  intros Hin. destruct (filed_In _ _ _ Hfiled Hin) as (_ & _ & Hsame).
  destruct Hfiled as [_ Hnd]. by apply In_get.
Qed.

(** X17.  A session enters the store through a validated handshake and
    in no other way.  After any request, each session in the store
    either was there before under the same identifier, differing at most
    in [lastActivity]; or the request is a POST to [/connect] whose body
    names that identifier as [sessionId] together with a token of three
    segments whose payload names the same identifier and has not expired
    at the relay's clock, and the session is the one made from that
    payload. *)
Theorem sessions_enter_through_the_handshake `{Platform} `{DateRuntime}
    (request : Request) (call : Call) (sessions : Sessions.t) (k : Json) (s' : Stored.t) :
  In (k, s') (DenoWorker.handleRequest request call sessions).2 ->
  (exists s, In (k, s) sessions /\ Relay.same_but_activity s s') \/
  (method request = "POST"%string /\ path request = "/connect"%string /\
   exists body token payload,
     json request = inr body /\
     JS.get body "action" = Some (Some (JStr "connect")) /\
     JS.get body "token" = Some (Some (JStr token)) /\
     JS.get body "sessionId" = Some (Some k) /\
     Spec.wire_payload Base64.atob token = Some payload /\
     Spec.field payload "sessionId" = Some k /\
     JS.gt (validateNow call) (Spec.field payload "expires") = false /\
     s' = Relay.session_of call k payload).
Proof.
  assert (Hold : forall m, In (k, s') m ->
                   exists s, In (k, s) m /\ Relay.same_but_activity s s')
    by (intros m Hin; exists s'; split; [exact Hin|apply same_but_activity_refl]).
  destruct (handleRequest_store request call sessions)
    as [->|[->|[(Hmethod & Hpath & ->)| ->]]].
  - intros Hin. left. by apply Hold.
  - intros [Hin _]%List.filter_In. left. by apply Hold.
  - destruct (handleConnect_cases request call sessions)
      as [[-> _]|(body & token & sessionId & payload & Hbody & Haction & Htoken & Hsid
                  & _ & Hvalid & -> & _)]; [intros Hin; left; by apply Hold|].
    intros Hin. apply In_set in Hin as [Hin|[-> ->]]; [left; by apply Hold|].
    right. split; [exact Hmethod|]. split; [exact Hpath|].
    apply validateToken_inv in Hvalid as (t & -> & Hwire & Hfield & Hgt & _).
    by exists body, t, payload.
  - destruct (handleProxy_store request call sessions)
      as [->|[(sessionId & _ & ->)|(sessionId & session & _ & Hget & _ & ->)]].
    + intros Hin. left. by apply Hold.
    + cbn. intros Hin%In_delete. left. by apply Hold.
    + intros Hin. left. apply In_set in Hin as [Hin|[-> ->]]; [by apply Hold|].
      exists session. split; [by apply get_In|by repeat split].
Qed.

Lemma sessions_enter_through_the_handshake_example :
  let k := JStr Examples.uuid1 in
  let request := RelayExamples.handshake 1000 in
  let call := RelayExamples.call_at 2000 in
  let payload :=
    Token.json_of_payload
      {| country := "US"; workerId := RelayExamples.default_worker;
         sessionId := Examples.uuid1; issued := 1000; expires := 301000 |} in
  In (k, Relay.session_of call k payload)
    (DenoWorker.handleRequest (H := example_platform) (H0 := example_dates)
       request call []).2 /\
  ((exists s, In (k, s) [] /\ Relay.same_but_activity s (Relay.session_of call k payload)) \/
   (method request = "POST"%string /\ path request = "/connect"%string /\
    exists body token payload',
      json request = inr body /\
      JS.get body "action" = Some (Some (JStr "connect")) /\
      JS.get body "token" = Some (Some (JStr token)) /\
      JS.get body "sessionId" = Some (Some k) /\
      Spec.wire_payload (H := example_platform) Base64.atob token = Some payload' /\
      Spec.field payload' "sessionId" = Some k /\
      JS.gt (H := example_platform) (validateNow call) (Spec.field payload' "expires")
        = false /\
      Relay.session_of call k payload = Relay.session_of call k payload')).
Proof.
  cbv zeta. split; [vm_compute; by left|].
  apply (sessions_enter_through_the_handshake (H := example_platform)
           (H0 := example_dates)).
  vm_compute. by left.
Defined.

(** ** Cleanup *)

Lemma gt_later `{Platform} (now now' : Z) (v : option Json) :
  now <= now' -> JS.gt now v = true -> JS.gt now' v = true.
Proof.
  unfold JS.gt. destruct (JS.ToNumber v); [|done].
  intros Hle Hlt%Z.ltb_lt. apply Z.ltb_lt. lia.
Qed.

(** X18.  A later cleanup makes up for every earlier one.  If [now] is
    not after [now'], then cleaning up at [now] and again at [now']
    leaves exactly what a single cleanup at [now'] leaves, in the same
    order; in particular a cleanup repeated at the same time changes
    nothing, and whatever the later cleanup keeps, the earlier one has
    kept. *)
Theorem later_cleanup_subsumes_earlier `{Platform} (now now' : Z) (sessions : Sessions.t) :
  now <= now' ->
  DenoWorker.cleanupExpiredSessions now'
    (DenoWorker.cleanupExpiredSessions now sessions)
  = DenoWorker.cleanupExpiredSessions now' sessions /\
  forall kv, In kv (DenoWorker.cleanupExpiredSessions now' sessions) ->
             In kv (DenoWorker.cleanupExpiredSessions now sessions).
Proof.
  intros Hle. unfold DenoWorker.cleanupExpiredSessions. split.
  - induction sessions as [|kv rest IH]; cbn; [reflexivity|].
    destruct (JS.gt now (Stored.expires kv.2)) eqn:Hgt; cbn.
    + by rewrite (gt_later now now' _ Hle Hgt).
    + destruct (JS.gt now' (Stored.expires kv.2)); cbn; by rewrite IH.
  - intros kv [Hin Hkeep]%List.filter_In. apply List.filter_In. split; [exact Hin|].
    destruct (JS.gt now (Stored.expires kv.2)) eqn:Hgt; [|reflexivity].
    by rewrite (gt_later now now' _ Hle Hgt) in Hkeep.
Qed.

Lemma later_cleanup_subsumes_earlier_example :
  let sessions :=
    (DenoWorker.handleConnect (H := example_platform) (H0 := example_dates)
       (RelayExamples.handshake 1000) (RelayExamples.call_at 2000) []).2 in
  DenoWorker.cleanupExpiredSessions (H := example_platform) 400000
    (DenoWorker.cleanupExpiredSessions (H := example_platform) 3000 sessions)
  = DenoWorker.cleanupExpiredSessions (H := example_platform) 400000 sessions /\
  forall kv,
    In kv (DenoWorker.cleanupExpiredSessions (H := example_platform) 400000 sessions) ->
    In kv (DenoWorker.cleanupExpiredSessions (H := example_platform) 3000 sessions).
Proof.
  cbv zeta. apply (later_cleanup_subsumes_earlier (H := example_platform)). lia.
Defined.

(** ** The client's token at the relay *)

Lemma substring_all (s : string) : String.substring 0 (String.length s) s = s.
Proof. induction s as [|c s IH]; cbn; [reflexivity|]. by rewrite IH. Qed.

Lemma remove_first_Bearer (token : string) :
  JSValue.remove_first "Bearer " ("Bearer " +:+ token) = token.
Proof.
  destruct token as [|c rest]; [reflexivity|].
  cbn -[String.substring String.length]. cbn [String.length Nat.sub].
  cbn [String.substring]. apply (substring_all (String c rest)).
Qed.



Lemma atob_base64url_ascii (s : string) :
  Spec.is_ascii s = true ->
  Base64.atob (Base64.base64url s) = Some s \/ Base64.atob (Base64.base64url s) = None.
Proof.
  intros Hascii.
  destruct (Str.mem "-" (Base64.base64url s)) eqn:H1.
  { right. by apply (atob_rejects_url_safe "-"); [left|]. }
  destruct (Str.mem "_" (Base64.base64url s)) eqn:H2.
  { right. by apply (atob_rejects_url_safe "_"); [right|]. }
  left. by apply atob_base64url.
Qed.

(** X20.  The token that [refreshToken] stores is not a token of the
    client's session.  Let the client have a session and let the
    refresh mint a token whose fresh session identifier differs from the
    session's, with an ASCII payload text that [JSON.parse] reads back.
    The refresh returns, keeps the session with its old identifier, and
    stores the new token; the relay's [validateToken] rejects that token
    for the session's identifier at every time, and [handleProxy] hands
    no request to any target when the client presents the session's
    identifier with the new token. *)
Theorem refreshed_token_is_not_the_sessions `{Platform} (m : Mint) (now : Z) (w : World)
    (session : Session.t) (minted : SessionInfo) :
  currentSession (this w) = Some session ->
  Token.generateSessionToken (config (this w)) m (Session.country session)
    (url (Session.worker session)) = Returned minted ->
  sessionId (payload minted) <> Session.sessionId session ->
  let text := JS.JSON_stringify (Token.json_of_payload (payload minted)) in
  Spec.is_ascii text = true ->
  JSON_parse text = Some (Token.json_of_payload (payload minted)) ->
  exists w',
    refreshToken m now w = (Returned tt, w') /\
    currentSession (this w') = Some session /\
    sessionToken (this w') = Some (token minted) /\
    (forall relayNow,
       Token.validateToken relayNow (token minted) (Session.sessionId session) = None) /\
    forall request call sessions,
      headers request !! "x-session-id"%string = Some (Session.sessionId session) ->
      headers request !! "authorization"%string
        = Some ("Bearer " +:+ token minted)%string ->
      (DenoWorker.handleProxy request call sessions).2 = None.
Proof.
  intros Hsession Hmint Hfresh text Hascii Hparse.
  destruct (refreshToken_returns m now w session minted Hsession Hmint)
    as (w' & evs & Hrun & Hs & Htoken & _).
  assert (Hreject : forall relayNow,
             Token.validateToken relayNow (token minted) (Session.sessionId session)
             = None).
  { intros relayNow.
    destruct (generated_token_segments _ _ _ _ _ Hmint) as [signature Hsplit].
    unfold Token.validateToken, Token.validate_with.
    rewrite (generated_token_truthy _ _ _ _ _ Hmint), Hsplit.
    cbn [negb List.length Nat.eqb nth]. fold text.
    destruct (atob_base64url_ascii text Hascii) as [-> | ->]; [|reflexivity].
    rewrite Hparse. unfold Token.json_of_payload, JS.strict_ne_string.
    cbn [JS.get JS.assoc String.eqb Ascii.eqb Bool.eqb].
    destruct (JS.gt _ _); [reflexivity|].
    destruct (String.eqb _ _) eqn:E; [|reflexivity].
    by apply String.eqb_eq in E. }
  exists w'. repeat split; try done.
  intros request call sessions Hsid Hauth.
  unfold DenoWorker.handleProxy. rewrite Hsid, Hauth.
  cbn [fmap option_fmap option_map]. rewrite remove_first_Bearer.
  destruct (_ || _); [reflexivity|].
  destruct (Sessions.get _ _); [|reflexivity].
  destruct (JS.gt _ _); [reflexivity|].
  by rewrite validateToken_strings, Hreject.
Qed.

Lemma refreshed_token_is_not_the_sessions_example :
  let m := {| entropy := EntropyGives "9b2e4567-e89b-42d3-a456-426614174fff" "00";
              issuedNow := 240000; expiresNow := 240000 |} in
  exists w' token,
    refreshToken (H := example_platform) m 240000 Examples.connected = (Returned tt, w') /\
    sessionToken (this w') = Some token /\
    (Session.sessionId <$> currentSession (this w')) = Some Examples.uuid1 /\
    forall relayNow,
      Token.validateToken (H := example_platform) relayNow token Examples.uuid1 = None.
Proof.
  cbv zeta.
  destruct (refreshed_token_is_not_the_sessions (H := example_platform)
              {| entropy := EntropyGives "9b2e4567-e89b-42d3-a456-426614174fff" "00";
                 issuedNow := 240000; expiresNow := 240000 |}
              240000 Examples.connected _ _ eq_refl eq_refl)
    as (w' & Hrun & Hsession & Htoken & Hreject & _);
    [vm_compute; discriminate|vm_compute; reflexivity|vm_compute; reflexivity|].
  eexists w', _. split; [exact Hrun|]. split; [exact Htoken|].
  split; [by rewrite Hsession|]. exact Hreject.
Defined.

(** X21.  A minted token carries its payload in its middle segment,
    whatever the region and the endpoint are called.  The payload names
    the region, the endpoint, the identifier that the random source
    gave, the clock reading as [issued], and as [expires] the second
    clock reading plus the token duration in milliseconds.  The token
    has exactly three segments even when the region or the endpoint
    contain dots or quotes: for every base64 decoder, what a relay reads
    from the token is what [JSON.parse] makes of the decoded base64url
    text of that payload.  Minting fails only when the random source
    does. *)
Theorem minted_token_carries_its_payload `{Platform} (decode : string -> option string)
    (cfg : Config) (m : Mint) (region endpoint : string) (minted : SessionInfo) :
  Token.generateSessionToken cfg m region endpoint = Returned minted ->
  country (payload minted) = region /\
  workerId (payload minted) = endpoint /\
  issued (payload minted) = issuedNow m /\
  expires (payload minted) = expiresNow m + tokenDuration (auth cfg) * 1000 /\
  entropy m = EntropyGives (sessionId (payload minted)) (secret minted) /\
  Spec.wire_payload decode (token minted) =
    match decode (Base64.base64url
                    (JS.JSON_stringify (Token.json_of_payload (payload minted)))) with
    | Some text => JSON_parse text
    | None => None
    end.
Proof.
  intros Hmint.
  destruct (generated_token_segments _ _ _ _ _ Hmint) as [signature Hsplit].
  unfold Spec.wire_payload.
  rewrite (generated_token_truthy _ _ _ _ _ Hmint), Hsplit.
  revert Hmint. unfold Token.generateSessionToken.
  destruct (entropy m) as [e|uuid secretHex]; [discriminate|].
  by intros [= <-].
Qed.

Lemma minted_token_carries_its_payload_example :
  exists minted,
    Token.generateSessionToken (H := example_platform) default_config
      (Examples.mint_at 1000) "U.S." "https://w2.example/a.b" = Returned minted /\
    Spec.wire_payload (H := example_platform) Base64.atob (token minted)
    = Some (Token.json_of_payload
              {| country := "U.S."; workerId := "https://w2.example/a.b";
                 sessionId := Examples.uuid1; issued := 1000; expires := 301000 |}).
Proof.
  eexists. split; [reflexivity|].
  match goal with
  | |- Spec.wire_payload _ (token ?minted) = _ =>
      destruct (minted_token_carries_its_payload (H := example_platform) Base64.atob
                  default_config (Examples.mint_at 1000) "U.S."
                  "https://w2.example/a.b" minted eq_refl)
        as (_ & _ & _ & _ & _ & ->)
  end.
  vm_compute. reflexivity.
Defined.

(** X22.  Each refresh arms the next one, or ends the chain without a
    word.  Let at most one refresh timer be pending, let the client have
    a session, and let the refresh mint a token.  After [refreshToken]
    the timer that was pending is gone.  If the new expiry, less the
    refresh buffer, is still ahead of the clock, exactly one timer is
    pending and the client holds its handle; it fires at the new expiry
    less the buffer when that is no more than the 2147483647 ms ahead
    that [setTimeout] honours, and 1 ms after the refresh when it is
    further ahead.  Otherwise no timer is pending at all: the new token
    will expire without a further refresh, and the call has returned all
    the same. *)
Theorem refreshToken_arms_the_next_refresh `{Platform} (m : Mint) (now : Z) (w : World)
    (session : Session.t) (minted : SessionInfo) :
  one_timer w ->
  currentSession (this w) = Some session ->
  Token.generateSessionToken (config (this w)) m (Session.country session)
    (url (Session.worker session)) = Returned minted ->
  exists w',
    refreshToken m now w = (Returned tt, w') /\
    let buffer := refreshBuffer (auth (config (this w))) * 1000 in
    let ahead := expires (payload minted) - now - buffer in
    let next := {| handle := nextHandle w; setAt := now; delay := ahead |} in
    if 0 <? ahead then
      timers w' = [next] /\
      tokenRefreshTimeout (this w') = Some (nextHandle w) /\
      fireAt next =
        if ahead <=? TIMEOUT_MAX then expires (payload minted) - buffer else now + 1
    else timers w' = [].
Proof.
  intros Hw Hsession Hmint.
  unfold refreshToken, M.bind, M.read, M.lift, M.update, M.ret.
  rewrite Hsession, Hmint.
  match goal with
  | |- context [scheduleTokenRefresh ?now ?w3] =>
      pose proof (one_timer_cleared w3) as Hclear;
      rewrite (scheduleTokenRefresh_run now w3)
  end.
  eexists. split; [reflexivity|]. cbv zeta.
  cbn [M.updated this timers config tokenExpiry tokenRefreshTimeout set_tokenExpiry
         set_sessionToken number_of] in *.
  specialize (Hclear Hw).
  destruct (0 <? _) eqn:Hpos; [|exact Hclear].
  unfold armed. cbn [timers this tokenRefreshTimeout set_tokenRefreshTimeout].
  rewrite Hclear. cbn [app].
  assert (Hnext : forall x, nextHandle match tokenRefreshTimeout (this w) with
                                       | Some h => cancelled h x
                                       | None => x
                                       end = nextHandle x)
    by (intros x; by destruct (tokenRefreshTimeout (this w))).
  rewrite Hnext. cbn [nextHandle]. repeat split.
  apply Z.ltb_lt in Hpos. unfold fireAt. cbn [setAt delay].
  destruct (_ <=? TIMEOUT_MAX) eqn:Hmax.
  - apply Z.leb_le in Hmax. rewrite effective_delay_in_range by lia. lia.
  - apply Z.leb_gt in Hmax. by rewrite effective_delay_overflow.
Qed.

Lemma refreshToken_arms_the_next_refresh_example :
  exists w',
    refreshToken (H := example_platform) (Examples.mint_at 240000) 240000
      Examples.connected = (Returned tt, w') /\
    timers w' = [{| handle := 1%nat; setAt := 240000; delay := 240000 |}] /\
    tokenRefreshTimeout (this w') = Some 1%nat /\
    fireAt {| handle := 1%nat; setAt := 240000; delay := 240000 |} = 480000.
Proof.
  destruct (refreshToken_arms_the_next_refresh (H := example_platform)
              (Examples.mint_at 240000) 240000 Examples.connected _ _
              ltac:(vm_compute; reflexivity) eq_refl eq_refl)
    as (w' & Hrun & Harmed).
  exists w'. split; [exact Hrun|]. vm_compute in Harmed.
  destruct Harmed as (Htimers & Hhandle & _). by repeat split.
Defined.

Lemma validateToken_comparable `{Platform} (now : Z) (token sessionId payload : Json) :
  DenoWorker.validateToken now token sessionId = Some payload ->
  JS.throws_on_conversion (Spec.field payload "expires") = false.
Proof.
  unfold DenoWorker.validateToken, Spec.field.
  destruct token as [| | |t| |]; try discriminate.
  destruct (negb (Str.truthy t)); [discriminate|].
  destruct (negb _); [discriminate|].
  destruct (Base64.atob _) as [text|]; [|discriminate].
  destruct (JSON_parse text) as [p|]; [|discriminate].
  destruct (JS.get p "expires") as [e|] eqn:He, (JS.get p "sessionId") as [sid|];
    try discriminate.
  destruct (JS.throws_on_conversion e) eqn:Hthrows; [discriminate|].
  destruct (JS.gt now e); [discriminate|].
  destruct (negb _); [discriminate|].
  intros [= <-]. by rewrite He.
Qed.

Lemma step_comparable `{Platform} `{DateRuntime} (sessions : Sessions.t)
    (s : Server.Step) :
  Forall (fun kv => JS.throws_on_conversion (Stored.expires (snd kv)) = false) sessions ->
  Forall (fun kv => JS.throws_on_conversion (Stored.expires (snd kv)) = false)
    (Server.step sessions s).
Proof.
  intros Hall.
  assert (Hfilter : forall f,
             Forall (fun kv => JS.throws_on_conversion (Stored.expires (snd kv)) = false)
               (List.filter f sessions)).
  { intros f. apply List.Forall_forall. intros kv [Hin _]%List.filter_In.
    by apply (proj1 (List.Forall_forall _ _) Hall). }
  assert (Hset : forall k v,
             JS.throws_on_conversion (Stored.expires v) = false ->
             Forall (fun kv => JS.throws_on_conversion (Stored.expires (snd kv)) = false)
               (Sessions.set k v sessions)).
  { intros k v Hv. apply List.Forall_forall. intros [k' s'] Hin.
    apply In_set in Hin as [Hin|[-> ->]]; [|exact Hv].
    by apply (proj1 (List.Forall_forall _ _) Hall (k', s')). }
  destruct s as [request call|now]; cbn [Server.step]; [|apply Hfilter].
  destruct (handleRequest_store request call sessions)
    as [->|[->|[(_ & _ & ->)| ->]]]; [done|apply Hfilter|..].
  - destruct (handleConnect_cases request call sessions)
      as [[-> _]|(body & token & sessionId & payload & _ & _ & _ & _ & _
                  & Hvalid & -> & _)]; [done|].
    apply Hset. cbn. by eapply validateToken_comparable.
  - destruct (handleProxy_store request call sessions)
      as [->|[(sessionId & _ & ->)|(sessionId & session & _ & Hget & _ & ->)]];
      [done|apply Hfilter|].
    apply Hset. cbn. apply get_In in Hget.
    by apply (proj1 (List.Forall_forall _ _) Hall (JStr sessionId, session)).
Qed.

(** X23.  Whatever requests and cleanups the relay has gone through
    since it started, the expiry of every session in its store is a
    value whose comparison with the clock completes: [handleConnect]
    stores the expiry of a payload only after [validateToken] has made
    that comparison, and nothing else writes an expiry.  So no
    [now > session.expires], in [cleanupExpiredSessions] or in
    [handleProxy], ever throws. *)
Theorem reachable_expiries_compare `{Platform} `{DateRuntime} (steps : list Server.Step)
    (k : Json) (s : Stored.t) :
  In (k, s) (Server.run steps) ->
  JS.throws_on_conversion (Stored.expires s) = false.
Proof.
  assert (Hall : forall sessions,
             Forall (fun kv => JS.throws_on_conversion (Stored.expires (snd kv)) = false)
               sessions ->
             Forall (fun kv => JS.throws_on_conversion (Stored.expires (snd kv)) = false)
               (foldl Server.step sessions steps)).
  { induction steps as [|step rest IH]; intros sessions Hsessions; [done|].
    cbn. by apply IH, step_comparable. }
  intros Hin.
  by apply (proj1 (List.Forall_forall _ _) (Hall [] (List.Forall_nil _)) (k, s)).
Qed.

Lemma reachable_expiries_compare_example :
  let steps :=
    [Server.Serve (RelayExamples.handshake 1000) (RelayExamples.call_at 2000);
     Server.Cleanup 3000] in
  exists s,
    Sessions.get (JStr Examples.uuid1)
      (Server.run (H := example_platform) (H0 := example_dates) steps) = Some s /\
    Stored.expires s = Some (JNum 301000) /\
    JS.throws_on_conversion (Stored.expires s) = false.
Proof.
  cbv zeta. eexists. split; [vm_compute; reflexivity|]. split; [reflexivity|].
  apply (reachable_expiries_compare (H := example_platform) (H0 := example_dates)
           [Server.Serve (RelayExamples.handshake 1000) (RelayExamples.call_at 2000);
            Server.Cleanup 3000] (JStr Examples.uuid1)).
  vm_compute. by left.
Defined.
